(** * Job-queue service of anatome.ai: queue manager, scheduler and admin routes

    A shallow embedding of the job-queue service:
    - [QueueManager] (services/queueManager),
    - [JobScheduler] (services/scheduler),
    - the routers [jobRoutes], [queueRoutes] and [schedulerRoutes],
    - the [Job] and [QueueStats] documents (models/job, models/queue).

    The MongoDB collections are finite maps keyed by their unique index, the
    Bull queues are an interface with a list-based reference instance, and
    every handler is a computation in a state monad whose state survives a
    thrown error (a rejected promise does not roll anything back). *)

From Stdlib Require Import ZArith QArith Qround Lia.
From stdpp Require Import gmap strings list fin_maps pretty sorting.

Open Scope string_scope.
Open Scope Z_scope.

(** ** Values *)

(** [Job.status] of models/job. *)
Inductive JobStatus := waiting | active | completed | failed | stalled.

(** [QueueStats.healthStatus] of models/queue. *)
Inductive HealthStatus := healthy | warning | error.

Global Instance JobStatus_eq_dec : EqDecision JobStatus.
Proof. solve_decision. Defined.
Global Instance HealthStatus_eq_dec : EqDecision HealthStatus.
Proof. solve_decision. Defined.

(** What a handler can throw: an [AppError(message, statusCode, code)] of
    shared/utils, the plain [Error] of the queue manager, a rejected MongoDB
    operation, a rejected Bull operation, or the runtime's [TypeError]. *)
Inductive Error :=
| AppError (message : string) (statusCode : Z) (code : string)
| QueueNotFound (queueName : string)
| MongoUnavailable
| MongoDuplicateKey (jobId : string)
| BullRejected
| TypeError.

Inductive Res (A : Type) := Ok (a : A) | Err (e : Error).
Arguments Ok {A} a.
Arguments Err {A} e.

(** JavaScript truthiness at the types the code uses it at. *)
Definition truthyS (s : option string) : bool :=
  match s with Some s => negb (String.eqb s "") | None => false end.
Definition truthyZ (n : option Z) : bool :=
  match n with Some n => negb (Z.eqb n 0) | None => false end.

(** [x || d] on an optional number and on an optional string. *)
Definition orZ (x : option Z) (d : Z) : Z :=
  match x with Some n => if Z.eqb n 0 then d else n | None => d end.
Definition orS (x : option string) (d : string) : string :=
  match x with Some s => if String.eqb s "" then d else s | None => d end.

(** The request body's [data]: the three properties [addJob] reads, at the
    types the [JobData] interface gives them, and the rest of the object. *)
Record Payload := mkPayload {
  p_id : option string;
  p_userId : option string;
  p_priority : option Z;
  p_body : list (string * string)
}.

(** [{ ...data, userId }] *)
Definition withUserId (data : Payload) (userId : string) : Payload :=
  {| p_id := p_id data; p_userId := Some userId;
     p_priority := p_priority data; p_body := p_body data |}.

(** Bull's [JobOptions], the fields this service passes. *)
Record JobOptions := mkJobOptions {
  o_attempts : option Z;
  o_delay : option Z;
  o_priority : option Z;
  o_jobId : option string
}.

(** [JobData] of the queue manager. *)
Record JobData := mkJobData {
  jd_id : string;
  jd_type : string;
  jd_payload : Payload;
  jd_userId : option string;
  jd_priority : Z;
  jd_attempts : Z;
  jd_delay : Z;
  jd_timestamp : Z
}.

(** [JobResult] of the queue manager. *)
Record JobResult := mkJobResult {
  r_success : bool;
  r_error : option string;
  r_processingTime : Z
}.

(** The [Job] document of models/job. Dates are milliseconds. *)
Module Job.
Record t := mk {
  jobId : string;
  queue : string;
  type : string;
  data : Payload;
  userId : option string;
  status : JobStatus;
  priority : Z;
  attempts : Z;
  maxAttempts : Z;
  delay : Z;
  result : option JobResult;
  error : option string;
  processingTime : option Z;
  createdAt : Z;
  startedAt : option Z;
  completedAt : option Z;
  failedAt : option Z;
  stalledAt : option Z
}.

(** Assignments to a loaded document's fields. *)
Definition set_status (v : JobStatus) (j : t) : t :=
  mk (jobId j) (queue j) (type j) (data j) (userId j) v (priority j)
     (attempts j) (maxAttempts j) (delay j) (result j) (error j)
     (processingTime j) (createdAt j) (startedAt j) (completedAt j)
     (failedAt j) (stalledAt j).
Definition set_attempts (v : Z) (j : t) : t :=
  mk (jobId j) (queue j) (type j) (data j) (userId j) (status j) (priority j)
     v (maxAttempts j) (delay j) (result j) (error j)
     (processingTime j) (createdAt j) (startedAt j) (completedAt j)
     (failedAt j) (stalledAt j).
Definition set_error (v : string) (j : t) : t :=
  mk (jobId j) (queue j) (type j) (data j) (userId j) (status j) (priority j)
     (attempts j) (maxAttempts j) (delay j) (result j) (Some v)
     (processingTime j) (createdAt j) (startedAt j) (completedAt j)
     (failedAt j) (stalledAt j).
Definition set_result (v : JobResult) (j : t) : t :=
  mk (jobId j) (queue j) (type j) (data j) (userId j) (status j) (priority j)
     (attempts j) (maxAttempts j) (delay j) (Some v) (error j)
     (processingTime j) (createdAt j) (startedAt j) (completedAt j)
     (failedAt j) (stalledAt j).
Definition set_processingTime (v : Z) (j : t) : t :=
  mk (jobId j) (queue j) (type j) (data j) (userId j) (status j) (priority j)
     (attempts j) (maxAttempts j) (delay j) (result j) (error j)
     (Some v) (createdAt j) (startedAt j) (completedAt j)
     (failedAt j) (stalledAt j).
Definition set_startedAt (v : Z) (j : t) : t :=
  mk (jobId j) (queue j) (type j) (data j) (userId j) (status j) (priority j)
     (attempts j) (maxAttempts j) (delay j) (result j) (error j)
     (processingTime j) (createdAt j) (Some v) (completedAt j)
     (failedAt j) (stalledAt j).
Definition set_completedAt (v : Z) (j : t) : t :=
  mk (jobId j) (queue j) (type j) (data j) (userId j) (status j) (priority j)
     (attempts j) (maxAttempts j) (delay j) (result j) (error j)
     (processingTime j) (createdAt j) (startedAt j) (Some v)
     (failedAt j) (stalledAt j).
Definition set_failedAt (v : Z) (j : t) : t :=
  mk (jobId j) (queue j) (type j) (data j) (userId j) (status j) (priority j)
     (attempts j) (maxAttempts j) (delay j) (result j) (error j)
     (processingTime j) (createdAt j) (startedAt j) (completedAt j)
     (Some v) (stalledAt j).
Definition set_stalledAt (v : Z) (j : t) : t :=
  mk (jobId j) (queue j) (type j) (data j) (userId j) (status j) (priority j)
     (attempts j) (maxAttempts j) (delay j) (result j) (error j)
     (processingTime j) (createdAt j) (startedAt j) (completedAt j)
     (failedAt j) (Some v).
End Job.

(** The [QueueStats] document of models/queue (without [description] and
    [configuration], which no modelled path reads). *)
Module QueueDoc.
Record t := mk {
  name : string;
  isActive : bool;
  totalJobs : Z;
  completedJobs : Z;
  failedJobs : Z;
  activeJobs : Z;
  waitingJobs : Z;
  delayedJobs : Z;
  processingRate : Z;
  averageProcessingTime : Q;
  lastProcessedAt : option Z;
  healthStatus : HealthStatus;
  lastHealthCheck : Z
}.
Definition set_isActive (v : bool) (d : t) : t :=
  mk (name d) v (totalJobs d) (completedJobs d) (failedJobs d) (activeJobs d)
     (waitingJobs d) (delayedJobs d) (processingRate d)
     (averageProcessingTime d) (lastProcessedAt d) (healthStatus d)
     (lastHealthCheck d).
(** The schema's defaults, as an upsert inserts them. *)
Definition fresh (name : string) (now : Z) : t :=
  mk name true 0 0 0 0 0 0 0 (0#1) None healthy now.
End QueueDoc.

(** ** The registries of [QueueManager] *)

Definition QUEUES : list string :=
  [ "business-discovery"; "instagram-detection"; "video-scraping";
    "video-analysis"; "report-generation"; "file-processing";
    "cleanup"; "notifications" ].

Definition JOB_TYPES : list string :=
  [ "discover-competitors"; "discover-with-instagram"; "validate-business";
    "detect-instagram-profiles"; "analyze-reels"; "validate-instagram-profile";
    "scrape-instagram-videos"; "download-video"; "upload-to-storage";
    "analyze-video-content"; "extract-metadata"; "generate-insights";
    "generate-competitor-report"; "generate-trend-analysis"; "export-pdf-report";
    "process-video-upload"; "clean-temp-files"; "backup-data";
    "send-notification"; "health-check-services"; "cleanup-expired-jobs" ].

(** The (queue, type) pairs [setupProcessors] registers a processor for. *)
Definition setupProcessors : list (string * string) :=
  [ ("business-discovery", "discover-competitors");
    ("business-discovery", "discover-with-instagram");
    ("instagram-detection", "detect-instagram-profiles");
    ("instagram-detection", "analyze-reels");
    ("video-scraping", "scrape-instagram-videos");
    ("video-scraping", "download-video");
    ("video-analysis", "analyze-video-content");
    ("video-analysis", "generate-insights");
    ("report-generation", "generate-competitor-report");
    ("cleanup", "cleanup-expired-jobs");
    ("notifications", "send-notification") ].

(** [Object.values(xs).includes(x)] *)
Definition includes (xs : list string) (x : string) : bool :=
  bool_decide (x ∈ xs).

(** A type is registered against a queue when [setupProcessors] paired them. *)
Definition registered (queueName jobType : string) : bool :=
  bool_decide ((queueName, jobType) ∈ setupProcessors).

(** ** Bull *)

(** The sets a Bull queue keeps its jobs in. *)
Inductive BullState := b_waiting | b_active | b_completed | b_failed | b_delayed.

(** The part of Bull's [Queue] and [Job] API the service calls. Bull is a
    library, so the service is verified against this interface; a rejected
    promise is [None]. A promise that never settles, as Bull's are while
    Redis cannot be reached, gives the handler nothing: the handler stays at
    its [await].
    - [q_add q name data opts] is [queue.add(name, data, opts)];
    - [q_getJob q id] tells whether [queue.getJob(id)] is non-null;
    - [q_remove q id] is [job.remove()] on the job [queue.getJob(id)] returned;
    - [q_jobs q st] are the ids [getWaiting()], [getActive()], ... return;
    - [q_next q] is one turn of the worker loop [queue.process] installs: the
      job it hands to the processor, if any. *)
Class Bull (BQ : Type) := {
  q_add : BQ → string → JobData → JobOptions → option BQ;
  q_getJob : BQ → string → option bool;
  q_remove : BQ → string → option BQ;
  q_jobs : BQ → BullState → option (list string);
  q_next : BQ → option (string * BQ)
}.

(** ** The state of the service and its handlers' monad *)

(** MongoDB ([JobModel], [QueueModel], reachable or not) and the queue
    manager's [queues] map, in insertion order. *)
Record System (BQ : Type) := mkSystem {
  mongoUp : bool;
  jobModel : gmap string Job.t;
  queueModel : gmap string QueueDoc.t;
  queues : list (string * BQ)
}.
Arguments mkSystem {BQ}.
Arguments mongoUp {BQ}.
Arguments jobModel {BQ}.
Arguments queueModel {BQ}.
Arguments queues {BQ}.

Definition set_jobModel {BQ} (f : gmap string Job.t → gmap string Job.t)
    (s : System BQ) : System BQ :=
  mkSystem (mongoUp s) (f (jobModel s)) (queueModel s) (queues s).
Definition set_queueModel {BQ} (f : gmap string QueueDoc.t → gmap string QueueDoc.t)
    (s : System BQ) : System BQ :=
  mkSystem (mongoUp s) (jobModel s) (f (queueModel s)) (queues s).
Definition set_queues {BQ} (f : list (string * BQ) → list (string * BQ))
    (s : System BQ) : System BQ :=
  mkSystem (mongoUp s) (jobModel s) (queueModel s) (f (queues s)).

(** An async handler: it runs on the state and either returns or throws, and
    what it wrote before throwing stays written. *)
Definition M (BQ A : Type) : Type := System BQ → System BQ * Res A.

Definition ret {BQ A} (a : A) : M BQ A := fun s => (s, Ok a).
Definition throw {BQ A} (e : Error) : M BQ A := fun s => (s, Err e).
Definition bind {BQ A B} (m : M BQ A) (k : A → M BQ B) : M BQ B :=
  fun s => match m s with
           | (s', Ok a) => k a s'
           | (s', Err e) => (s', Err e)
           end.
(** [try { m } catch (error) { log }] *)
Definition catch {BQ A} (m : M BQ A) : M BQ unit :=
  fun s => (fst (m s), Ok tt).

Notation "'let*' x ':=' m 'in' k" := (bind m (fun x => k))
  (at level 10, x name, m at level 100, k at level 200).
Notation "m1 '>>' m2" := (bind m1 (fun _ => m2))
  (at level 65, right associativity).

(** [when c (throw e)] is [if (c) throw e]. *)
Definition when {BQ} (c : bool) (m : M BQ unit) : M BQ unit :=
  if c then m else ret tt.

(** [for (const x of xs) body(x)] *)
Fixpoint forEach {BQ A} (xs : list A) (body : A → M BQ unit) : M BQ unit :=
  match xs with
  | [] => ret tt
  | x :: xs' => body x >> forEach xs' body
  end.

(** *** Mongoose *)

Section Mongoose.
Context {BQ : Type}.

(** [JobModel.findOne({ jobId })] *)
Definition JobModel_findOne (jobId : string) : M BQ (option Job.t) :=
  fun s => if mongoUp s then (s, Ok (jobModel s !! jobId))
           else (s, Err MongoUnavailable).

(** [new JobModel(doc).save()]: [jobId] carries a unique index. *)
Definition JobModel_create (doc : Job.t) : M BQ unit :=
  fun s => if mongoUp s then
             match jobModel s !! Job.jobId doc with
             | Some _ => (s, Err (MongoDuplicateKey (Job.jobId doc)))
             | None => (set_jobModel <[Job.jobId doc := doc]> s, Ok tt)
             end
           else (s, Err MongoUnavailable).

(** [doc.save()] on a document a query returned. *)
Definition JobModel_save (doc : Job.t) : M BQ unit :=
  fun s => if mongoUp s then (set_jobModel <[Job.jobId doc := doc]> s, Ok tt)
           else (s, Err MongoUnavailable).

(** [JobModel.find(filter)] *)
Definition JobModel_find (filter : Job.t → bool) : M BQ (list Job.t) :=
  fun s => if mongoUp s
           then (s, Ok (List.filter filter (map_to_list (jobModel s)).*2))
           else (s, Err MongoUnavailable).

(** [JobModel.deleteMany(filter)], returning [deletedCount]. *)
Definition JobModel_deleteMany (filter : Job.t → bool) : M BQ nat :=
  fun s => if mongoUp s
           then (set_jobModel (base.filter (λ kv, filter kv.2 = false)) s,
                 Ok (size (base.filter (λ kv, filter kv.2 = true) (jobModel s))))
           else (s, Err MongoUnavailable).

(** [JobModel.findOneAndUpdate({ jobId }, update)] *)
Definition JobModel_findOneAndUpdate (jobId : string) (update : Job.t → Job.t)
    : M BQ unit :=
  fun s => if mongoUp s then (set_jobModel (alter update jobId) s, Ok tt)
           else (s, Err MongoUnavailable).

(** The TTL index on [completedAt] ([expireAfterSeconds] of thirty days):
    what MongoDB's monitor removes at time [now]. *)
Definition ttlExpired (now : Z) (doc : Job.t) : bool :=
  match Job.completedAt doc with
  | Some t => t + 30 * 24 * 60 * 60 * 1000 <=? now
  | None => false
  end.
Definition JobModel_ttl (now : Z) : M BQ unit :=
  fun s => (set_jobModel (base.filter (λ kv, ttlExpired now kv.2 = false)) s, Ok tt).

(** [QueueModel.findOneAndUpdate({ name }, update, { upsert: true })]; the
    upsert inserts the schema's defaults and then applies the update. *)
Definition QueueModel_upsert (now : Z) (name : string)
    (update : QueueDoc.t → QueueDoc.t) : M BQ unit :=
  fun s => if mongoUp s then
             (set_queueModel
                (λ m, <[name := update (default (QueueDoc.fresh name now) (m !! name))]> m)
                s, Ok tt)
           else (s, Err MongoUnavailable).
End Mongoose.

(** ** QueueManager *)

(** One entry of the object [getQueueStats] builds. *)
Record QStat := mkQStat {
  st_waiting : Z;
  st_active : Z;
  st_completed : Z;
  st_failed : Z;
  st_delayed : Z;
  st_total : Z
}.

(** What [getQueueStats] returns: the whole [stats] object without a queue
    name, [stats[queueName]] (possibly [undefined]) with one. *)
Inductive StatsAny :=
| StatsAll (stats : list (string * QStat))
| StatsOne (stat : option QStat).

Section QueueManager.
Context {BQ : Type} `{Bull BQ}.

(** [this.queues.get(name)] *)
Definition queues_get (s : System BQ) (name : string) : option BQ :=
  snd <$> List.find (λ kv, String.eqb kv.1 name) (queues s).

(** The queue object registered under [name] takes the state [q']. *)
Definition queues_put (name : string) (q' : BQ) (s : System BQ) : System BQ :=
  set_queues (map (λ kv, if String.eqb kv.1 name then (name, q') else kv)) s.

(** [queue.add(jobType, jobData, opts)] on the queue named [name]. *)
Definition queue_add (name jobType : string) (jobData : JobData)
    (opts : JobOptions) : M BQ unit :=
  fun s => match queues_get s name with
           | None => (s, Err (QueueNotFound name))
           | Some q =>
               match q_add q jobType jobData opts with
               | Some q' => (queues_put name q' s, Ok tt)
               | None => (s, Err BullRejected)
               end
           end.

(** [{ ...options, jobId }] *)
Definition withJobId (options : option JobOptions) (jobId : string) : JobOptions :=
  {| o_attempts := options ≫= o_attempts; o_delay := options ≫= o_delay;
     o_priority := options ≫= o_priority; o_jobId := Some jobId |}.

(** The [jobData] object of [addJob]. [now] is [new Date()] and [gen] the
    value [generateJobId()] would return. *)
Definition addJob_jobData (now : Z) (gen : string) (jobType : string)
    (data : Payload) (options : option JobOptions) : JobData :=
  {| jd_id := orS (p_id data) gen;
     jd_type := jobType;
     jd_payload := data;
     jd_userId := p_userId data;
     jd_priority := orZ (p_priority data) 0;
     jd_attempts := orZ (options ≫= o_attempts) 3;
     jd_delay := orZ (options ≫= o_delay) 0;
     jd_timestamp := now |}.

(** The document [addJob] saves. *)
Definition addJob_jobDoc (now : Z) (queueName : string) (jobData : JobData)
    : Job.t :=
  {| Job.jobId := jd_id jobData;
     Job.queue := queueName;
     Job.type := jd_type jobData;
     Job.data := jd_payload jobData;
     Job.userId := jd_userId jobData;
     Job.status := waiting;
     Job.priority := jd_priority jobData;
     Job.attempts := 0;
     Job.maxAttempts := jd_attempts jobData;
     Job.delay := jd_delay jobData;
     Job.result := None;
     Job.error := None;
     Job.processingTime := None;
     Job.createdAt := now;
     Job.startedAt := None;
     Job.completedAt := None;
     Job.failedAt := None;
     Job.stalledAt := None |}.

(** [QueueManager.addJob]; the result is [bullJob.id]. *)
Definition addJob (now : Z) (gen : string) (queueName jobType : string)
    (data : Payload) (options : option JobOptions) : M BQ string :=
  fun s =>
    match queues_get s queueName with
    | None => (s, Err (QueueNotFound queueName))
    | Some _ =>
        let jobData := addJob_jobData now gen jobType data options in
        (JobModel_create (addJob_jobDoc now queueName jobData) >>
         queue_add queueName jobType jobData (withJobId options (jd_id jobData)) >>
         ret (jd_id jobData)) s
    end.


(** [QueueManager.getJob]: the first queue, in insertion order, that holds
    the job; the result is that queue's name. *)
Fixpoint getJob_in (qs : list (string * BQ)) (jobId : string) : Res (option string) :=
  match qs with
  | [] => Ok None
  | (name, q) :: qs' =>
      match q_getJob q jobId with
      | None => Err BullRejected
      | Some true => Ok (Some name)
      | Some false => getJob_in qs' jobId
      end
  end.
Definition getJob (jobId : string) : M BQ (option string) :=
  fun s => (s, getJob_in (queues s) jobId).

(** [bullJob.remove()] on the job [getJob] found in the queue [name]. *)
Definition bullJob_remove (name jobId : string) : M BQ unit :=
  fun s => match queues_get s name with
           | None => (s, Err (QueueNotFound name))
           | Some q =>
               match q_remove q jobId with
               | Some q' => (queues_put name q' s, Ok tt)
               | None => (s, Err BullRejected)
               end
           end.

(** The [stats[name]] entry of one queue. *)
Definition queue_stat (q : BQ) : option QStat :=
  w ← q_jobs q b_waiting; a ← q_jobs q b_active; c ← q_jobs q b_completed;
  f ← q_jobs q b_failed; d ← q_jobs q b_delayed;
  Some {| st_waiting := Z.of_nat (length w);
          st_active := Z.of_nat (length a);
          st_completed := Z.of_nat (length c);
          st_failed := Z.of_nat (length f);
          st_delayed := Z.of_nat (length d);
          st_total := Z.of_nat (length w) + Z.of_nat (length a)
                      + Z.of_nat (length c) + Z.of_nat (length f)
                      + Z.of_nat (length d) |}.

(** The loop of [getQueueStats] over [queuesToCheck]; names without a queue
    are passed over. *)
Fixpoint stats_of (s : System BQ) (names : list string) : Res (list (string * QStat)) :=
  match names with
  | [] => Ok []
  | name :: names' =>
      match queues_get s name with
      | None => stats_of s names'
      | Some q =>
          match queue_stat q with
          | None => Err BullRejected
          | Some st =>
              match stats_of s names' with
              | Ok rest => Ok ((name, st) :: rest)
              | Err e => Err e
              end
          end
      end
  end.

(** [QueueManager.getQueueStats(queueName?)] *)
Definition getQueueStats (queueName : option string) : M BQ StatsAny :=
  fun s =>
    if truthyS queueName then
      match stats_of s [default "" queueName] with
      | Ok stats => (s, Ok (StatsOne (snd <$> head stats)))
      | Err e => (s, Err e)
      end
    else
      match stats_of s (queues s).*1 with
      | Ok stats => (s, Ok (StatsAll stats))
      | Err e => (s, Err e)
      end.

(** The listeners [createQueue] installs on every queue. *)
Definition onJobActive (now : Z) (jobId : string) : M BQ unit :=
  JobModel_findOneAndUpdate jobId
    (λ j, Job.set_startedAt now (Job.set_status active j)).

Definition onJobCompleted (now : Z) (jobId : string) (result : JobResult) : M BQ unit :=
  JobModel_findOneAndUpdate jobId
    (λ j, Job.set_processingTime (r_processingTime result)
            (Job.set_completedAt now
               (Job.set_result result (Job.set_status completed j)))).

Definition onJobFailed (now : Z) (jobId : string) (message : string)
    (attemptsMade : Z) : M BQ unit :=
  JobModel_findOneAndUpdate jobId
    (λ j, Job.set_attempts attemptsMade
            (Job.set_failedAt now
               (Job.set_error message (Job.set_status failed j)))).

Definition onJobStalled (now : Z) (jobId : string) : M BQ unit :=
  JobModel_findOneAndUpdate jobId
    (λ j, Job.set_stalledAt now (Job.set_status stalled j)).

(** One turn of a worker of the queue [queueName]: Bull hands the next job
    to the processor [addProcessor] installed and emits ['active']. Nothing
    on this path reads [QueueModel]. *)
Definition workerTurn (now : Z) (queueName : string) : M BQ (option string) :=
  fun s => match queues_get s queueName with
           | None => (s, Ok None)
           | Some q =>
               match q_next q with
               | None => (s, Ok None)
               | Some (jobId, q') =>
                   (catch (onJobActive now jobId) >> ret (Some jobId))
                     (queues_put queueName q' s)
               end
           end.
End QueueManager.

(** ** jobRoutes *)

(** The identity headers the gateway forwards. *)
Record Headers := mkHeaders {
  x_user_id : option string;
  x_user_role : option string
}.

(** [userRole !== 'admin'] *)
Definition notAdmin (h : Headers) : bool :=
  negb (bool_decide (x_user_role h = Some "admin")).

(** [jobDoc.userId !== userId] *)
Definition notOwner (h : Headers) (jobDoc : Job.t) : bool :=
  negb (bool_decide (Job.userId jobDoc = x_user_id h)).

(** [['completed', 'failed'].includes(status)] *)
Definition terminal (st : JobStatus) : bool :=
  match st with completed | failed => true | _ => false end.

(** The body of [POST /jobs]. *)
Record CreateBody := mkCreateBody {
  b_queue : option string;
  b_type : option string;
  b_data : option Payload;
  b_options : option JobOptions
}.

(** The entries of the [results] array of [POST /jobs/bulk/cancel]. *)
Inductive BulkOutcome :=
| bulk_skipped
| bulk_cancelled
| bulk_error (e : Error).

Section JobRoutes.
Context {BQ : Type} `{Bull BQ}.

Definition requireUser (h : Headers) : M BQ unit :=
  when (negb (truthyS (x_user_id h)))
    (throw (AppError "User authentication required" 401 "AUTH_REQUIRED")).

(** [jobRoutes.post('/')]; the result is [job.id]. *)
Definition createJob (now : Z) (gen : string) (h : Headers) (body : CreateBody)
    : M BQ string :=
  requireUser h >>
  match b_data body with
  | Some data =>
      if truthyS (b_queue body) && truthyS (b_type body) then
        let queue := default "" (b_queue body) in
        let type := default "" (b_type body) in
        when (negb (includes QUEUES queue))
          (throw (AppError "Invalid queue name" 400 "INVALID_QUEUE")) >>
        when (negb (includes JOB_TYPES type))
          (throw (AppError "Invalid job type" 400 "INVALID_JOB_TYPE")) >>
        addJob now gen queue type
          (withUserId data (default "" (x_user_id h))) (b_options body)
      else throw (AppError "Queue, type, and data are required" 400 "VALIDATION_ERROR")
  | None => throw (AppError "Queue, type, and data are required" 400 "VALIDATION_ERROR")
  end.

(** The lookup and permission check the per-job routes share. *)
Definition loadJob (h : Headers) (jobId : string) : M BQ Job.t :=
  requireUser h >>
  let* found := JobModel_findOne jobId in
  match found with
  | None => throw (AppError "Job not found" 404 "JOB_NOT_FOUND")
  | Some jobDoc =>
      when (notAdmin h && notOwner h jobDoc)
        (throw (AppError "Access denied" 403 "FORBIDDEN")) >>
      ret jobDoc
  end.

(** The writes both cancel paths make to the document. *)
Definition markCancelled (now : Z) (message : string) (jobDoc : Job.t) : Job.t :=
  Job.set_failedAt now (Job.set_error message (Job.set_status failed jobDoc)).

(** Remove the live Bull job, if [getJob] finds one. *)
Definition removeBullJob (jobId : string) : M BQ unit :=
  let* bullJob := getJob jobId in
  match bullJob with
  | Some name => bullJob_remove name jobId
  | None => ret tt
  end.

(** [jobRoutes.delete('/:jobId')] *)
Definition cancelJob (now : Z) (h : Headers) (jobId : string) : M BQ unit :=
  let* jobDoc := loadJob h jobId in
  when (terminal (Job.status jobDoc))
    (throw (AppError "Cannot cancel completed or failed job" 400 "JOB_NOT_CANCELLABLE")) >>
  removeBullJob jobId >>
  JobModel_save (markCancelled now "Cancelled by user" jobDoc).

(** [jobRoutes.post('/:jobId/retry')]; the result is [newJob.id]. *)
Definition retryJob (now : Z) (gen : string) (h : Headers) (jobId : string)
    : M BQ string :=
  let* jobDoc := loadJob h jobId in
  when (negb (bool_decide (Job.status jobDoc = failed)))
    (throw (AppError "Only failed jobs can be retried" 400 "JOB_NOT_RETRYABLE")) >>
  addJob now gen (Job.queue jobDoc) (Job.type jobDoc) (Job.data jobDoc)
    (Some {| o_attempts := Some (Job.maxAttempts jobDoc);
             o_delay := None;
             o_priority := Some (Job.priority jobDoc);
             o_jobId := None |}).

(** The body of the loop of [POST /jobs/bulk/cancel], with its [try]. *)
Definition bulkCancelOne (now : Z) (job : Job.t) : M BQ BulkOutcome :=
  fun s =>
    let attempt : M BQ BulkOutcome :=
      if terminal (Job.status job) then ret bulk_skipped
      else
        removeBullJob (Job.jobId job) >>
        JobModel_save (markCancelled now "Bulk cancelled by user" job) >>
        ret bulk_cancelled in
    match attempt s with
    | (s', Ok o) => (s', Ok o)
    | (s', Err e) => (s', Ok (bulk_error e))
    end.

Fixpoint bulkCancelLoop (now : Z) (jobs : list Job.t)
    : M BQ (list (string * BulkOutcome)) :=
  match jobs with
  | [] => ret []
  | job :: jobs' =>
      let* o := bulkCancelOne now job in
      let* rest := bulkCancelLoop now jobs' in
      ret ((Job.jobId job, o) :: rest)
  end.

(** [jobRoutes.post('/bulk/cancel')]: [jobIds] is [None] when the body's
    value is not an array. *)
Definition bulkCancel (now : Z) (h : Headers) (jobIds : option (list string))
    : M BQ (list (string * BulkOutcome)) :=
  requireUser h >>
  match jobIds with
  | Some (id :: ids) =>
      let filter := λ j : Job.t,
        bool_decide (Job.jobId j ∈ id :: ids)
        && (negb (notAdmin h) || negb (notOwner h j)) in
      let* jobs := JobModel_find filter in
      bulkCancelLoop now jobs
  | _ => throw (AppError "Job IDs array is required" 400 "VALIDATION_ERROR")
  end.
End JobRoutes.

(** ** queueRoutes *)

Section QueueRoutes.
Context {BQ : Type} `{Bull BQ}.

Definition requireAdmin (h : Headers) : M BQ unit :=
  when (notAdmin h) (throw (AppError "Admin access required" 403 "FORBIDDEN")).

Definition requireQueue (queueName : string) : M BQ unit :=
  when (negb (includes QUEUES queueName))
    (throw (AppError "Queue not found" 404 "QUEUE_NOT_FOUND")).

(** [queueRoutes.post('/:queueName/pause')]: only the database document is
    written ("Bull queue pause/resume would need to be implemented in
    QueueManager"). *)
Definition pauseQueue (now : Z) (h : Headers) (queueName : string) : M BQ unit :=
  requireAdmin h >>
  requireQueue queueName >>
  QueueModel_upsert now queueName (QueueDoc.set_isActive false).

(** [queueRoutes.post('/:queueName/resume')] *)
Definition resumeQueue (now : Z) (h : Headers) (queueName : string) : M BQ unit :=
  requireAdmin h >>
  requireQueue queueName >>
  QueueModel_upsert now queueName (QueueDoc.set_isActive true).

(** The filter [POST /:queueName/clean] builds: the third component is the
    [status] constraint, absent when the argument is not recognised. *)
Definition cleanStatusFilter (status : string) : option (list JobStatus) :=
  if String.eqb status "completed" then Some [completed]
  else if String.eqb status "failed" then Some [failed]
  else if String.eqb status "all" then Some [completed; failed]
  else None.

Definition cleanFilter (queueName : string) (cutoffDate : Z) (status : string)
    (j : Job.t) : bool :=
  String.eqb (Job.queue j) queueName
  && (Job.createdAt j <? cutoffDate)
  && match cleanStatusFilter status with
     | Some allowed => bool_decide (Job.status j ∈ allowed)
     | None => true
     end.

(** [queueRoutes.post('/:queueName/clean')]; [olderThan] and [status] are
    the body's values, [None] when absent. The result is [deletedCount]. *)
Definition cleanQueue (now : Z) (h : Headers) (queueName : string)
    (olderThan : option Z) (status : option string) : M BQ nat :=
  requireAdmin h >>
  let olderThan := default (24 * 60 * 60 * 1000) olderThan in
  let status := default "completed" status in
  requireQueue queueName >>
  let cutoffDate := now - olderThan in
  JobModel_deleteMany (cleanFilter queueName cutoffDate status).
End QueueRoutes.

(** ** Health evaluation, schedulerRoutes and JobScheduler *)

(** [x > y] on rationals. *)
Definition Qgtb (x y : Q) : bool := negb (Qle_bool x y).

(** [failed > 10 && failed > completed * 0.1], then [failed > completed]. The
    counts are array lengths; the product is taken in the rationals, where
    it compares with an integer as the double product of a length does. *)
Definition evalHealth (failedN completedN : Z) : HealthStatus :=
  let status := healthy in
  let status :=
    if (10 <? failedN) && Qgtb (inject_Z failedN) (inject_Z completedN * (1 # 10))
    then warning else status in
  let status := if completedN <? failedN then error else status in
  status.

(** The property [key] of a stats object, as [stats[key]] reads it. *)
Definition stat_property (st : QStat) (key : string) : option Z :=
  if String.eqb key "waiting" then Some (st_waiting st)
  else if String.eqb key "active" then Some (st_active st)
  else if String.eqb key "completed" then Some (st_completed st)
  else if String.eqb key "failed" then Some (st_failed st)
  else if String.eqb key "delayed" then Some (st_delayed st)
  else if String.eqb key "total" then Some (st_total st)
  else None.

(** A queue of the [GET /scheduler/health] summary. *)
Record QueueHealth := mkQueueHealth {
  qh_name : string;
  qh_status : HealthStatus;
  qh_stat : QStat
}.

(** [recentJobs.sort((a, b) => b.completedAt - a.completedAt)]: latest
    first, jobs completed at the same time in their order. *)
Fixpoint insertByCompletedAt (j : Job.t) (sorted : list Job.t) : list Job.t :=
  match sorted with
  | [] => [j]
  | k :: rest =>
      if default 0 (Job.completedAt k) <=? default 0 (Job.completedAt j)
      then j :: k :: rest
      else k :: insertByCompletedAt j rest
  end.
Definition sortByCompletedAtDesc (jobs : list Job.t) : list Job.t :=
  foldr insertByCompletedAt [] jobs.

(** [recentJobs.reduce((sum, job) => sum + (job.processingTime || 0), 0)] *)
Definition sumProcessingTime (jobs : list Job.t) : Z :=
  foldl (λ sum job, sum + orZ (Job.processingTime job) 0) 0 jobs.

Section Scheduler.
Context {BQ : Type} `{Bull BQ}.

(** [QueueModel.find({}, ...)] of [getSchedulerStats]. *)
Definition getSchedulerStats : M BQ (list QueueDoc.t) :=
  fun s => if mongoUp s then (s, Ok (map_to_list (queueModel s)).*2)
           else (s, Err MongoUnavailable).

(** [schedulerRoutes.get('/health')]: the per-queue entries and [overall]. *)
Definition healthEntry (entry : string * QStat) : QueueHealth :=
  {| qh_name := entry.1;
     qh_status := evalHealth (st_failed entry.2) (st_completed entry.2);
     qh_stat := entry.2 |}.

Definition overallHealth (qs : list QueueHealth) : HealthStatus :=
  if existsb (λ q, bool_decide (qh_status q = error)) qs then error
  else if existsb (λ q, bool_decide (qh_status q = warning)) qs then warning
  else healthy.

Definition healthSummary (h : Headers) : M BQ (HealthStatus * list QueueHealth) :=
  requireAdmin h >>
  let* stats := getSchedulerStats in
  let* queueStats := getQueueStats None in
  match queueStats with
  | StatsAll entries =>
      let qs := map healthEntry entries in
      ret (overallHealth qs, qs)
  | StatsOne _ => ret (healthy, [])
  end.

(** The body of the loop of [performHealthChecks]. [stats] is already the
    entry of [queueName], so [stats[queueName]] reads a property named like
    the queue from it. *)
Definition healthCheckOne (now : Z) (queueName : string) : M BQ unit :=
  let* stats := getQueueStats (Some queueName) in
  match stats with
  | StatsOne None => throw TypeError
  | StatsOne (Some st) =>
      match stat_property st queueName with
      | None => ret tt
      | Some n =>
          if Z.eqb n 0 then ret tt
          else
            (* a number has no [failed], [completed] or [total]: both tests
               are false and the counts written are undefined *)
            QueueModel_upsert now queueName
              (λ d, QueueDoc.mk queueName (QueueDoc.isActive d)
                      (QueueDoc.totalJobs d) (QueueDoc.completedJobs d)
                      (QueueDoc.failedJobs d) (QueueDoc.activeJobs d)
                      (QueueDoc.waitingJobs d) (QueueDoc.delayedJobs d)
                      (QueueDoc.processingRate d) (QueueDoc.averageProcessingTime d)
                      (QueueDoc.lastProcessedAt d) healthy now)
      end
  | StatsAll entries =>
      match List.find (λ kv, String.eqb kv.1 queueName) entries with
      | None => ret tt
      | Some (_, st) =>
          QueueModel_upsert now queueName
            (λ d, QueueDoc.mk queueName (QueueDoc.isActive d)
                    (st_total st) (st_completed st) (st_failed st)
                    (st_active st) (st_waiting st) (st_delayed st)
                    (QueueDoc.processingRate d) (QueueDoc.averageProcessingTime d)
                    (QueueDoc.lastProcessedAt d)
                    (evalHealth (st_failed st) (st_completed st)) now)
      end
  end.

(** [JobScheduler.performHealthChecks] *)
Definition performHealthChecks (now : Z) : M BQ unit :=
  catch (forEach QUEUES (healthCheckOne now)).

(** The statistics [updateQueueStatistics] derives from [recentJobs]. *)
Definition processingRateOf (recentJobs : list Job.t) : Z :=
  Z.of_nat (length recentJobs).

Definition averageProcessingTimeOf (recentJobs : list Job.t) : Q :=
  if 0 <? Z.of_nat (length recentJobs)
  then (inject_Z (sumProcessingTime recentJobs)
        / inject_Z (Z.of_nat (length recentJobs)))%Q
  else 0%Q.

Definition lastProcessedOf (recentJobs : list Job.t) : option Z :=
  if 0 <? Z.of_nat (length recentJobs)
  then head (sortByCompletedAtDesc recentJobs) ≫= Job.completedAt
  else None.

Definition recentFilter (now : Z) (queueName : string) (j : Job.t) : bool :=
  String.eqb (Job.queue j) queueName
  && bool_decide (Job.status j = completed)
  && match Job.completedAt j with
     | Some t => now - 60 * 60 * 1000 <=? t
     | None => false
     end.

Definition updateQueueStatisticsOne (now : Z) (queueName : string) : M BQ unit :=
  let* recentJobs := JobModel_find (recentFilter now queueName) in
  let processingRate := processingRateOf recentJobs in
  let averageProcessingTime := averageProcessingTimeOf recentJobs in
  let lastProcessed := lastProcessedOf recentJobs in
  QueueModel_upsert now queueName
    (λ d, QueueDoc.mk (QueueDoc.name d) (QueueDoc.isActive d)
            (QueueDoc.totalJobs d) (QueueDoc.completedJobs d)
            (QueueDoc.failedJobs d) (QueueDoc.activeJobs d)
            (QueueDoc.waitingJobs d) (QueueDoc.delayedJobs d)
            processingRate averageProcessingTime lastProcessed
            (QueueDoc.healthStatus d) (QueueDoc.lastHealthCheck d)).

(** [JobScheduler.updateQueueStatistics] *)
Definition updateQueueStatistics (now : Z) : M BQ unit :=
  catch (forEach QUEUES (updateQueueStatisticsOne now)).

(** The writes of [processStalledJobs] to one stalled document. *)
Definition sweepStalled (now : Z) (job : Job.t) : Job.t :=
  if Job.maxAttempts job <=? Job.attempts job then
    Job.set_failedAt now
      (Job.set_error "Job stalled and exceeded maximum retry attempts"
         (Job.set_status failed job))
  else
    Job.set_attempts (Job.attempts job + 1) (Job.set_status waiting job).

Definition stalledFilter (now : Z) (j : Job.t) : bool :=
  bool_decide (Job.status j = stalled)
  && match Job.stalledAt j with
     | Some t => t <? now - 30 * 60 * 1000
     | None => false
     end.

(** [JobScheduler.processStalledJobs] *)
Definition processStalledJobs (now : Z) : M BQ unit :=
  catch (let* stalledJobs := JobModel_find (stalledFilter now) in
         forEach stalledJobs (λ job, JobModel_save (sweepStalled now job))).
End Scheduler.

(** ** A reference queue

    A Bull queue as the list of its jobs in insertion order, each in one
    set, over a Redis that accepts the queue's commands or refuses them by an
    error reply ([NOAUTH], [BUSY], ...). Every operation rejects while Redis
    refuses. A Redis that cannot be reached is another matter: Bull's calls
    then do not reject, they never settle, and the handler stays at its
    [await] (see [addJob_untilAdd]); no queue state stands for it. [add]
    ignores an id the queue already holds and puts
    a job with a delay into the delayed set; [remove] rejects on an active
    job, whose lock a worker holds; the worker loop takes the oldest waiting
    job. The service's theorems hold for every [Bull] instance: this one
    serves to run the handlers on concrete states. *)

Record BullJob := mkBullJob {
  bj_id : string;
  bj_name : string;
  bj_state : BullState
}.

Record ListQueue := mkListQueue {
  redisAccepts : bool;
  bullJobs : list BullJob
}.

Global Instance BullState_eq_dec : EqDecision BullState.
Proof. solve_decision. Defined.

Definition lq_holds (q : ListQueue) (jobId : string) : bool :=
  existsb (λ b, String.eqb (bj_id b) jobId) (bullJobs q).

Definition lq_add (q : ListQueue) (name : string) (jobData : JobData)
    (opts : JobOptions) : option ListQueue :=
  if redisAccepts q then
    let jobId := default (jd_id jobData) (o_jobId opts) in
    if lq_holds q jobId then Some q
    else Some (mkListQueue true
                 (bullJobs q ++
                  [mkBullJob jobId name
                     (if 0 <? orZ (o_delay opts) 0 then b_delayed else b_waiting)]))
  else None.

Definition lq_getJob (q : ListQueue) (jobId : string) : option bool :=
  if redisAccepts q then Some (lq_holds q jobId) else None.

Definition lq_remove (q : ListQueue) (jobId : string) : option ListQueue :=
  if redisAccepts q then
    if existsb (λ b, String.eqb (bj_id b) jobId && bool_decide (bj_state b = b_active))
         (bullJobs q)
    then None
    else Some (mkListQueue true
                 (List.filter (λ b, negb (String.eqb (bj_id b) jobId)) (bullJobs q)))
  else None.

Definition lq_jobs (q : ListQueue) (st : BullState) : option (list string) :=
  if redisAccepts q
  then Some (map bj_id (List.filter (λ b, bool_decide (bj_state b = st)) (bullJobs q)))
  else None.

Fixpoint lq_take (jobs : list BullJob) : option (string * list BullJob) :=
  match jobs with
  | [] => None
  | b :: rest =>
      if bool_decide (bj_state b = b_waiting)
      then Some (bj_id b, mkBullJob (bj_id b) (bj_name b) b_active :: rest)
      else match lq_take rest with
           | Some (jobId, rest') => Some (jobId, b :: rest')
           | None => None
           end
  end.

Definition lq_next (q : ListQueue) : option (string * ListQueue) :=
  if redisAccepts q then
    match lq_take (bullJobs q) with
    | Some (jobId, jobs') => Some (jobId, mkListQueue true jobs')
    | None => None
    end
  else None.

Global Instance ListQueue_Bull : Bull ListQueue := {
  q_add := lq_add;
  q_getJob := lq_getJob;
  q_remove := lq_remove;
  q_jobs := lq_jobs;
  q_next := lq_next
}.

(** The queue manager after [initialize]: one empty queue per name. *)
Definition initialQueues : list (string * ListQueue) :=
  map (λ name, (name, mkListQueue true [])) QUEUES.

Definition initialSystem : System ListQueue :=
  mkSystem true ∅ ∅ initialQueues.

Definition adminHeaders : Headers := mkHeaders (Some "root") (Some "admin").
Definition userHeaders (userId : string) : Headers := mkHeaders (Some userId) (Some "user").

(** ** States and requests the handlers are run on *)

(** MongoDB reachable, Redis refusing every command with an error reply. *)
Definition brokerRefusingSystem : System ListQueue :=
  mkSystem true ∅ ∅ (map (λ name, (name, mkListQueue false [])) QUEUES).

Definition samplePayload : Payload := mkPayload None (Some "u1") None [].

(** A known queue with a type that [setupProcessors] registers against
    another queue only. *)
Definition crossQueueBody : CreateBody :=
  mkCreateBody (Some "cleanup") (Some "send-notification")
    (Some (mkPayload None None None [])) None.

(** A document as [addJob] writes it for user ["u1"], then moved to [status]. *)
Definition sampleJob (jobId queue type : string) (status : JobStatus)
    (attempts maxAttempts createdAt : Z) : Job.t :=
  Job.mk jobId queue type samplePayload (Some "u1") status 0 attempts
    maxAttempts 0 None None None createdAt None None None None.

(** The store holding [jobs], each under its [jobId]. *)
Definition withJobs {BQ : Type} (jobs : list Job.t) (s : System BQ) : System BQ :=
  set_jobModel (λ _, list_to_map (map (λ j, (Job.jobId j, j)) jobs)) s.

(** Two days after the epoch, with three jobs of ['cleanup'] created at the
    epoch: one waiting, one active, one completed. *)
Definition twoDays : Z := 2 * 24 * 60 * 60 * 1000.
Definition cleanupBacklog : System ListQueue :=
  withJobs [ sampleJob "w1" "cleanup" "cleanup-expired-jobs" waiting 0 3 0;
             sampleJob "a1" "cleanup" "cleanup-expired-jobs" active 0 3 0;
             sampleJob "c1" "cleanup" "cleanup-expired-jobs" completed 1 3 0 ]
    initialSystem.

(** The health evaluation as the specification words it: [error] if
    [failed > completed]; [warning] if [failed > 10] and
    [failed > 0.1 × completed]; [healthy] otherwise. *)
Definition specHealth (failedN completedN : Z) : HealthStatus :=
  if Z_lt_dec completedN failedN then error
  else if Z_lt_dec 10 failedN then
    if Qlt_le_dec (inject_Z completedN * (1 # 10)) (inject_Z failedN)
    then warning else healthy
  else healthy.

(** A Bull queue holding [nCompleted] completed and [nFailed] failed jobs. *)
Definition queueWith (nCompleted nFailed : nat) : ListQueue :=
  mkListQueue true
    (map (λ i, mkBullJob ("c" +:+ pretty i) "send-notification" b_completed)
         (seq 0 nCompleted)
     ++ map (λ i, mkBullJob ("f" +:+ pretty i) "send-notification" b_failed)
            (seq 0 nFailed)).

(** Three queues: 100 completed and 11 failed, 2 and 3, 200 and 11. *)
Definition mixedHealth : System ListQueue :=
  mkSystem true ∅ ∅
    [ ("notifications", queueWith 100 11);
      ("cleanup", queueWith 2 3);
      ("video-analysis", queueWith 200 11) ].

(** A job of ['cleanup'] completed at [completedAt] after [processingTime] ms. *)
Definition completedJob (jobId : string) (completedAt processingTime : Z) : Job.t :=
  Job.mk jobId "cleanup" "cleanup-expired-jobs" samplePayload (Some "u1")
    completed 0 1 3 0 None None (Some processingTime) 0 (Some 0)
    (Some completedAt) None None.

(** One hour after the epoch, sixty jobs of ['cleanup'] completed within the
    hour, one per minute, each after 500 ms. *)
Definition oneHour : Z := 60 * 60 * 1000.
Definition sixtyCompleted : System ListQueue :=
  withJobs (map (λ i, completedJob ("c" +:+ pretty i) (Z.of_nat i * 60000 + 1000) 500)
                (seq 0 60))
    initialSystem.

(** Every document sits under its own [jobId]: the unique index of the
    collection. *)
Definition wf_store (m : gmap string Job.t) : Prop :=
  ∀ id doc, m !! id = Some doc → Job.jobId doc = id.

(** A job of ['cleanup'] that Bull reported stalled at the epoch after
    [attempts] of 3 attempts and that no Bull set holds any more. *)
Definition stalledJob (jobId : string) (attempts : Z) : Job.t :=
  Job.mk jobId "cleanup" "cleanup-expired-jobs" samplePayload (Some "u1")
    stalled 0 attempts 3 0 None None None 0 (Some 0) None None (Some 0).

Definition stalledBacklog : System ListQueue :=
  withJobs [ stalledJob "s1" 1; stalledJob "s3" 3 ] initialSystem.

(** The store says ["w1"] is waiting and ["a1"] is active; the queue
    ['cleanup'] holds ["w1"] in its waiting set and no queue holds ["a1"]. *)
Definition cancelScene : System ListQueue :=
  withJobs [ sampleJob "w1" "cleanup" "cleanup-expired-jobs" waiting 0 3 0;
             sampleJob "a1" "cleanup" "cleanup-expired-jobs" active 1 3 0 ]
    (mkSystem true ∅ ∅
       (map (λ name,
               (name,
                mkListQueue true
                  (if String.eqb name "cleanup"
                   then [mkBullJob "w1" "cleanup-expired-jobs" b_waiting]
                   else [])))
            QUEUES)).

(** What holds of every document [addJob] saves and no handler undoes: the
    priority is the payload's, [maxAttempts] is truthy, and an [id] in the
    payload is the document's [jobId]. *)
Definition addJob_shaped (doc : Job.t) : Prop :=
  Job.priority doc = orZ (p_priority (Job.data doc)) 0
  ∧ Job.maxAttempts doc ≠ 0
  ∧ orS (p_id (Job.data doc)) (Job.jobId doc) = Job.jobId doc.

(** The strings a stored document carries. The schema has no [retried_as]
    path, so a link to another job would have to be one of them. *)
Definition job_strings (doc : Job.t) : list string :=
  [Job.jobId doc; Job.queue doc; Job.type doc]
  ++ option_list (Job.userId doc)
  ++ option_list (Job.error doc)
  ++ option_list (p_id (Job.data doc))
  ++ option_list (p_userId (Job.data doc))
  ++ (p_body (Job.data doc)).*1 ++ (p_body (Job.data doc)).*2
  ++ option_list (Job.result doc ≫= r_error).

(** The record stored under [from] names the job [to]. *)
Definition linked (m : gmap string Job.t) (from to : string) : bool :=
  match m !! from with
  | Some doc => bool_decide (to ∈ job_strings doc)
  | None => false
  end.

(** The job ["j1"] of user ["u1"], failed after three attempts with
    priority 5 in its payload. *)
Definition failedJob : Job.t :=
  Job.mk "j1" "cleanup" "cleanup-expired-jobs"
    (mkPayload None (Some "u1") (Some 5) [("older_than_days", "30")])
    (Some "u1") failed 5 3 3 0 None (Some "connect ECONNREFUSED") None
    0 (Some 10) None (Some 20) None.

Definition retryScene : System ListQueue := withJobs [failedJob] initialSystem.

(** [cancelScene] after an admin paused ['cleanup']. *)
Definition pausedCleanup : System ListQueue :=
  (pauseQueue 1000 adminHeaders "cleanup" cancelScene).1.

(** ** The rest of the service *)

(** [errorHandler] of shared/utils: the status and the error code of the
    response to a thrown error. A duplicate key is MongoDB's error 11000. *)
Definition errorHandler (e : Error) : Z * string :=
  match e with
  | AppError _ statusCode code => (statusCode, code)
  | MongoDuplicateKey _ => (409, "DUPLICATE_ENTRY")
  | _ => (500, "INTERNAL_ERROR")
  end.

(** What the downstream service answers to a processor's [axios.post]: a
    response, or an error with its message. *)
Inductive HttpReply :=
| reply_ok
| reply_error (message : string).

(** The three shapes of the processors [setupProcessors] binds: the nine
    that post to a service, [processCleanupExpiredJobs] and
    [processSendNotification]. *)
Inductive Processor := proc_http | proc_cleanup | proc_notify.

(** The processor [setupProcessors] registers for a (queue, type) pair. *)
Definition processorOf (queueName jobType : string) : option Processor :=
  if bool_decide ((queueName, jobType) = ("cleanup", "cleanup-expired-jobs"))
  then Some proc_cleanup
  else if bool_decide ((queueName, jobType) = ("notifications", "send-notification"))
  then Some proc_notify
  else if registered queueName jobType then Some proc_http
  else None.

(** [status: { $in: ['completed', 'failed'] }] with [createdAt: { $lt }]. *)
Definition expiredFilter (cutoff : Z) (j : Job.t) : bool :=
  (Job.createdAt j <? cutoff) && terminal (Job.status j).

Definition sevenDays : Z := 7 * 24 * 60 * 60 * 1000.
Definition thirtyDays : Z := 30 * 24 * 60 * 60 * 1000.

(** The body's [data] with the property [key] set, as a spread followed by
    [key: value] leaves it: in place when the key is there, last otherwise. *)
Fixpoint setProperty (key value : string) (body : list (string * string))
    : list (string * string) :=
  match body with
  | [] => [(key, value)]
  | (k, v) :: rest =>
      if String.eqb k key then (key, value) :: rest
      else (k, v) :: setProperty key value rest
  end.

(** The body of [POST /scheduler/delayed]. *)
Record DelayedBody := mkDelayedBody {
  d_queue : option string;
  d_type : option string;
  d_data : option Payload;
  d_delayMs : option Z
}.

(** A property of the object Bull keeps as [job.data]: [addJob] passes its
    [jobData], whose own properties are these eight; the submitted payload is
    the value of [payload]. *)
Inductive JsProp :=
| prop_string (s : string)
| prop_number (n : Z)
| prop_object (fields : list (string * string)).

Definition jobData_property (jobData : JobData) (name : string) : option JsProp :=
  if String.eqb name "id" then Some (prop_string (jd_id jobData))
  else if String.eqb name "type" then Some (prop_string (jd_type jobData))
  else if String.eqb name "payload"
  then Some (prop_object (p_body (jd_payload jobData)))
  else if String.eqb name "userId" then prop_string <$> jd_userId jobData
  else if String.eqb name "priority" then Some (prop_number (jd_priority jobData))
  else if String.eqb name "attempts" then Some (prop_number (jd_attempts jobData))
  else if String.eqb name "delay" then Some (prop_number (jd_delay jobData))
  else if String.eqb name "timestamp" then Some (prop_number (jd_timestamp jobData))
  else None.

(** The parts of the object literal a posting processor sends: a property
    taken from [job.data] under its name, or a property of [job.data] spread. *)
Inductive BodyPart :=
| part_take (name : string)
| part_spread (name : string).

(** The object literal of each posting processor, by job type. *)
Definition postedParts (jobType : string) : list BodyPart :=
  if String.eqb jobType "discover-competitors"
  then [part_take "businessId"; part_spread "businessData"; part_take "radius"]
  else if String.eqb jobType "discover-with-instagram"
  then part_take <$> ["businessName"; "location"; "businessType"; "industry"; "radius"]
  else if String.eqb jobType "detect-instagram-profiles"
  then part_take <$> ["businessId"; "businessName"; "location"; "keywords"]
  else if String.eqb jobType "analyze-reels" then []
  else if String.eqb jobType "scrape-instagram-videos"
  then part_take <$> ["profileId"; "username"; "topReels"]
  else if String.eqb jobType "download-video"
  then part_take <$> ["videoUrl"; "postId"]
  else if String.eqb jobType "analyze-video-content"
  then part_take <$> ["videoId"; "videoPath"]
  else if String.eqb jobType "generate-insights"
  then part_take <$> ["analysisIds"; "reportType"]
  else if String.eqb jobType "generate-competitor-report"
  then part_take <$> ["businessId"; "competitorIds"; "analysisData"]
  else [].

(** [obj[key] = value] on the object being built. *)
Fixpoint setProp (key : string) (value : JsProp) (obj : list (string * JsProp))
    : list (string * JsProp) :=
  match obj with
  | [] => [(key, value)]
  | (k, v) :: rest =>
      if String.eqb k key then (key, value) :: rest
      else (k, v) :: setProp key value rest
  end.

(** The body of the request, as JSON carries it: a property that is
    [undefined] is left out; spreading [undefined] or a number adds nothing,
    spreading a string adds its characters under their positions. *)
Definition addPart (jobData : JobData) (obj : list (string * JsProp))
    (part : BodyPart) : list (string * JsProp) :=
  match part with
  | part_take name =>
      match jobData_property jobData name with
      | Some value => setProp name value obj
      | None => obj
      end
  | part_spread name =>
      match jobData_property jobData name with
      | Some (prop_object fields) =>
          foldl (λ o kv, setProp kv.1 (prop_string kv.2) o) obj fields
      | Some (prop_string str) =>
          foldl (λ o kv, setProp kv.1 (prop_string kv.2) o) obj
            (imap (λ i c, (pretty i, String c "")) (String.list_ascii_of_string str))
      | Some (prop_number _) | None => obj
      end
  end.

Definition postedBody (jobType : string) (jobData : JobData)
    : list (string * JsProp) :=
  foldl (addPart jobData) [] (postedParts jobType).

(** The [x-user-id] header of the request. *)
Definition postedUser (jobData : JobData) : option JsProp :=
  jobData_property jobData "userId".

Section Workers.
Context {BQ : Type} `{Bull BQ}.

(** The processors that post to a service: they catch the error of the call
    and return it. *)
Definition processHttp (reply : HttpReply) : JobResult :=
  match reply with
  | reply_ok => {| r_success := true; r_error := None; r_processingTime := 0 |}
  | reply_error message =>
      {| r_success := false; r_error := Some message; r_processingTime := 0 |}
  end.

(** [processCleanupExpiredJobs]: the result and [data.deletedCount].
    [mongoMessage] is the message of the error a rejected [deleteMany]
    carries. *)
Definition processCleanupExpiredJobs (now : Z) (mongoMessage : string)
    : M BQ (JobResult * option nat) :=
  fun s =>
    match JobModel_deleteMany (expiredFilter (now - sevenDays)) s with
    | (s', Ok deletedCount) =>
        (s', Ok ({| r_success := true; r_error := None; r_processingTime := 0 |},
                 Some deletedCount))
    | (s', Err _) =>
        (s', Ok ({| r_success := false; r_error := Some mongoMessage;
                    r_processingTime := 0 |}, None))
    end.

(** [processSendNotification] *)
Definition processSendNotification : JobResult :=
  {| r_success := true; r_error := None; r_processingTime := 0 |}.

(** The function [addProcessor] hands to [queue.process]: it runs the
    processor between [startTime] and [endTime] and returns its result with
    the time taken; an error of the processor is thrown on. *)
Definition processJob (processor : Processor) (startTime endTime : Z)
    (reply : HttpReply) (mongoMessage : string) : M BQ JobResult :=
  let* result :=
    match processor with
    | proc_http => ret (processHttp reply)
    | proc_cleanup =>
        let* out := processCleanupExpiredJobs startTime mongoMessage in
        ret out.1
    | proc_notify => ret processSendNotification
    end in
  ret {| r_success := r_success result; r_error := r_error result;
         r_processingTime := endTime - startTime |}.

(** A job run to its end when the function returns: Bull emits
    ['completed'] with the result and the listener writes it. (When the
    function throws, Bull emits ['failed'] instead.) *)
Definition runJob (processor : Processor) (jobId : string) (startTime endTime : Z)
    (reply : HttpReply) (mongoMessage : string) : M BQ unit :=
  let* result := processJob processor startTime endTime reply mongoMessage in
  catch (onJobCompleted endTime jobId result).

(** [JobScheduler.archiveOldJobs] *)
Definition archiveOldJobs (now : Z) : M BQ unit :=
  catch (JobModel_deleteMany (expiredFilter (now - thirtyDays))).

(** [JobScheduler.scheduleDelayedJob] *)
Definition scheduleDelayedJob (now : Z) (gen : string) (queueName jobType : string)
    (data : Payload) (delayMs : Z) : M BQ unit :=
  addJob now gen queueName jobType data
    (Some {| o_attempts := None; o_delay := Some delayMs;
             o_priority := None; o_jobId := None |})
  >> ret tt.

(** [schedulerRoutes.post('/delayed')] *)
Definition scheduleDelayed (now : Z) (gen : string) (h : Headers)
    (body : DelayedBody) : M BQ unit :=
  requireUser h >>
  match d_data body, d_delayMs body with
  | Some data, Some delayMs =>
      if truthyS (d_queue body) && truthyS (d_type body) then
        let queue := default "" (d_queue body) in
        let type := default "" (d_type body) in
        let userId := default "" (x_user_id h) in
        when (negb (includes QUEUES queue))
          (throw (AppError "Invalid queue name" 400 "INVALID_QUEUE")) >>
        when (negb (includes JOB_TYPES type))
          (throw (AppError "Invalid job type" 400 "INVALID_JOB_TYPE")) >>
        when (7 * 24 * 60 * 60 * 1000 <? delayMs)
          (throw (AppError "Delay cannot exceed 7 days" 400 "INVALID_DELAY")) >>
        scheduleDelayedJob now gen queue type
          {| p_id := p_id data; p_userId := Some userId;
             p_priority := p_priority data;
             p_body := setProperty "scheduledBy" userId (p_body data) |}
          delayMs
      else throw (AppError "Queue, type, data, and delayMs are required" 400
                    "VALIDATION_ERROR")
  | _, _ => throw (AppError "Queue, type, data, and delayMs are required" 400
                     "VALIDATION_ERROR")
  end.

(** The names of the properties every object literal inherits from
    [Object.prototype]; their values are truthy. *)
Definition objectPrototype : list string :=
  [ "constructor"; "__defineGetter__"; "__defineSetter__"; "hasOwnProperty";
    "__lookupGetter__"; "__lookupSetter__"; "isPrototypeOf";
    "propertyIsEnumerable"; "toString"; "valueOf"; "__proto__";
    "toLocaleString" ].

(** What [systemJobs[jobName]] evaluates to when it is not [undefined]: one
    of the two entries of the table, or a property inherited from
    [Object.prototype], which has neither [queue] nor [type]. *)
Inductive SystemJob :=
| system_job (queue type : string)
| inherited_property.

(** [systemJobs[jobName]] on the table of
    [POST /scheduler/jobs/:jobName/trigger]; [None] is [undefined]. *)
Definition systemJobs (jobName : string) : option SystemJob :=
  if String.eqb jobName "cleanup-expired-jobs"
  then Some (system_job "cleanup" "cleanup-expired-jobs")
  else if String.eqb jobName "health-check-services"
  then Some (system_job "cleanup" "health-check-services")
  else if includes objectPrototype jobName then Some inherited_property
  else None.

(** [schedulerRoutes.post('/jobs/:jobName/trigger')]; [data] is the body's
    [data], [None] when absent, and [manualTrigger: true] is kept as the
    string ["true"]. The result is [job.id]. An inherited property passes
    the test [!systemJob], and [addJob(undefined, undefined, jobData)] finds
    no queue under [undefined] and throws its plain [Error]. *)
Definition triggerJob (now : Z) (gen : string) (h : Headers) (jobName : string)
    (data : option Payload) : M BQ string :=
  when (negb (truthyS (x_user_id h)) || notAdmin h)
    (throw (AppError "Admin access required" 403 "FORBIDDEN")) >>
  let data := default (mkPayload None None None []) data in
  match systemJobs jobName with
  | None => throw (AppError "Cannot manually trigger this job type" 400
                     "JOB_NOT_TRIGGERABLE")
  | Some (system_job queue type) =>
      addJob now gen queue type
        {| p_id := p_id data; p_userId := p_userId data;
           p_priority := p_priority data;
           p_body := setProperty "manualTrigger" "true"
                       (setProperty "triggeredBy" (default "" (x_user_id h))
                          (p_body data)) |}
        None
  | Some inherited_property => throw (QueueNotFound "undefined")
  end.
End Workers.

(** *** Views of the queues *)

(** What [liveStats[queueName] || {}] evaluates to. *)
Inductive LiveStats :=
| live_empty
| live_stat (stat : QStat)
| live_number (n : Z).

(** A queue as [GET /queues] and [GET /queues/:queueName] show it;
    [qv_healthStatus] is [None] for ['unknown']. *)
Record QueueView := mkQueueView {
  qv_name : string;
  qv_isActive : bool;
  qv_liveStats : LiveStats;
  qv_healthStatus : option HealthStatus;
  qv_processingRate : Z;
  qv_lastProcessedAt : option Z
}.

(** An entry of [jobTypeStats] of [GET /queues/:queueName]. *)
Record TypeStat := mkTypeStat {
  ts_type : string;
  ts_count : nat;
  ts_completed : nat;
  ts_failed : nat
}.

(** [stats[key] || {}] on what [getQueueStats] returned. *)
Definition liveStatsOf (stats : StatsAny) (key : string) : Res LiveStats :=
  match stats with
  | StatsAll entries =>
      match List.find (λ kv, String.eqb kv.1 key) entries with
      | Some (_, stat) => Ok (live_stat stat)
      | None => Ok live_empty
      end
  | StatsOne (Some stat) =>
      match stat_property stat key with
      | Some n => Ok (if Z.eqb n 0 then live_empty else live_number n)
      | None => Ok live_empty
      end
  | StatsOne None => Err TypeError
  end.

(** The fields both routes take from the queue's document, if there is one. *)
Definition queueView (queueName : string) (live : LiveStats)
    (db : option QueueDoc.t) : QueueView :=
  {| qv_name := queueName;
     qv_isActive := default true (QueueDoc.isActive <$> db);
     qv_liveStats := live;
     qv_healthStatus := QueueDoc.healthStatus <$> db;
     qv_processingRate := orZ (QueueDoc.processingRate <$> db) 0;
     qv_lastProcessedAt := db ≫= QueueDoc.lastProcessedAt |}.

(** [.sort({ createdAt: -1 })]: latest first. MongoDB leaves the order of
    documents with equal [createdAt] open; here they stay in the order
    found, and what is proved of an order assumes that no two documents
    share their [createdAt]. *)
Fixpoint insertByCreatedAt (j : Job.t) (sorted : list Job.t) : list Job.t :=
  match sorted with
  | [] => [j]
  | k :: rest =>
      if Job.createdAt k <=? Job.createdAt j then j :: k :: rest
      else k :: insertByCreatedAt j rest
  end.
Definition sortByCreatedAtDesc (jobs : list Job.t) : list Job.t :=
  foldr insertByCreatedAt [] jobs.

(** The [$group] by [type] of the detail route: one entry per type in the
    order of first appearance, with its count and its completed and failed
    jobs. *)
Definition typeStat (jobs : list Job.t) (type : string) : TypeStat :=
  let group := List.filter (λ j, String.eqb (Job.type j) type) jobs in
  {| ts_type := type;
     ts_count := length group;
     ts_completed :=
       length (List.filter (λ j, bool_decide (Job.status j = completed)) group);
     ts_failed :=
       length (List.filter (λ j, bool_decide (Job.status j = failed)) group) |}.
Definition jobTypeStats (jobs : list Job.t) : list TypeStat :=
  typeStat jobs <$> remove_dups (Job.type <$> jobs).

(** The status as the documents and the queries spell it. *)
Definition statusName (st : JobStatus) : string :=
  match st with
  | waiting => "waiting"
  | active => "active"
  | completed => "completed"
  | failed => "failed"
  | stalled => "stalled"
  end.

(** The query of [GET /queues/:queueName/jobs]: [page] and [limit] as
    [parseInt] read them ([None] for [NaN]), the filters when the query
    carries them, the dates in milliseconds. *)
Record JobsQuery := mkJobsQuery {
  jq_page : option Z;
  jq_limit : option Z;
  jq_status : option string;
  jq_type : option string;
  jq_userId : option string;
  jq_from : option Z;
  jq_to : option Z
}.

(** The [pagination] object of the response. *)
Record Pagination := mkPagination {
  pg_page : Z;
  pg_limit : Z;
  pg_total : Z;
  pg_totalPages : Z;
  pg_hasNext : bool;
  pg_hasPrev : bool
}.

(** The filter the route builds from the query. *)
Definition jobsFilter (queueName : string) (q : JobsQuery) (j : Job.t) : bool :=
  String.eqb (Job.queue j) queueName
  && (if truthyS (jq_status q)
      then String.eqb (statusName (Job.status j)) (default "" (jq_status q))
      else true)
  && (if truthyS (jq_type q)
      then String.eqb (Job.type j) (default "" (jq_type q)) else true)
  && (if truthyS (jq_userId q)
      then bool_decide (Job.userId j = jq_userId q) else true)
  && match jq_from q with Some t => t <=? Job.createdAt j | None => true end
  && match jq_to q with Some t => Job.createdAt j <=? t | None => true end.

(** [Math.ceil(total / limit)] *)
Definition totalPagesOf (total limit : Z) : Z :=
  Qceiling (inject_Z total / inject_Z limit).

Section QueueViews.
Context {BQ : Type} `{Bull BQ}.

(** [QueueModel.findOne({ name })] *)
Definition QueueModel_findOne (name : string) : M BQ (option QueueDoc.t) :=
  fun s => if mongoUp s then (s, Ok (queueModel s !! name))
           else (s, Err MongoUnavailable).

(** [queueRoutes.get('/')]: the names of a collection with a unique index on
    [name] are distinct, so the order [.sort({ name: 1 })] gives the
    documents does not change what [dbStats.find] finds. *)
Definition listQueues (h : Headers) : M BQ (list QueueView) :=
  requireAdmin h >>
  let* liveStats := getQueueStats None in
  let* dbStats := getSchedulerStats in
  match mapM (λ queueName,
                match liveStatsOf liveStats queueName with
                | Ok live =>
                    Some (queueView queueName live
                            (List.find (λ q, String.eqb (QueueDoc.name q) queueName)
                                       dbStats))
                | Err _ => None
                end) QUEUES with
  | Some views => ret views
  | None => throw TypeError
  end.

(** [queueRoutes.get('/:queueName')]: the view, the ten latest jobs and the
    rollup by type. *)
Definition queueDetail (h : Headers) (queueName : string)
    : M BQ (QueueView * list Job.t * list TypeStat) :=
  requireAdmin h >>
  requireQueue queueName >>
  let* liveStats := getQueueStats (Some queueName) in
  let* dbStats := QueueModel_findOne queueName in
  let* jobs := JobModel_find (λ j, String.eqb (Job.queue j) queueName) in
  match liveStatsOf liveStats queueName with
  | Ok live =>
      ret (queueView queueName live dbStats,
           take 10 (sortByCreatedAtDesc jobs),
           jobTypeStats jobs)
  | Err e => throw e
  end.

(** [queueRoutes.get('/:queueName/jobs')]: the page of documents (the
    response leaves their [data] out) and the [pagination] object. MongoDB's
    answer to a negative [skip] or [limit] is not modelled. *)
Definition queueJobs (h : Headers) (queueName : string) (q : JobsQuery)
    : M BQ (list Job.t * Pagination) :=
  requireAdmin h >>
  let page := orZ (jq_page q) 1 in
  let limit := Z.min (orZ (jq_limit q) 20) 100 in
  let skip := (page - 1) * limit in
  requireQueue queueName >>
  let* found := JobModel_find (jobsFilter queueName q) in
  let total := Z.of_nat (length found) in
  ret (take (Z.to_nat limit) (drop (Z.to_nat skip) (sortByCreatedAtDesc found)),
       {| pg_page := page;
          pg_limit := limit;
          pg_total := total;
          pg_totalPages := totalPagesOf total limit;
          pg_hasNext := page <? totalPagesOf total limit;
          pg_hasPrev := 1 <? page |}).
End QueueViews.

(** *** System metrics *)

(** The totals of [GET /scheduler/metrics]. *)
Record SystemTotals := mkSystemTotals {
  totalJobs : Z;
  totalCompleted : Z;
  totalFailed : Z;
  totalActive : Z;
  totalWaiting : Z
}.

(** The body of [Object.values(queueStats).forEach]. *)
Definition addTotals (acc : SystemTotals) (stat : QStat) : SystemTotals :=
  {| totalJobs := totalJobs acc + st_total stat;
     totalCompleted := totalCompleted acc + st_completed stat;
     totalFailed := totalFailed acc + st_failed stat;
     totalActive := totalActive acc + st_active stat;
     totalWaiting := totalWaiting acc + st_waiting stat |}.

Section SystemMetrics.
Context {BQ : Type} `{Bull BQ}.

(** [schedulerRoutes.get('/metrics')]: the totals and [queueMetrics]. *)
Definition systemMetrics (h : Headers) : M BQ (SystemTotals * list (string * QStat)) :=
  requireAdmin h >>
  let* queueStats := getQueueStats None in
  match queueStats with
  | StatsAll entries =>
      ret (foldl addTotals (mkSystemTotals 0 0 0 0 0) entries.*2, entries)
  | StatsOne _ => ret (mkSystemTotals 0 0 0 0 0, [])
  end.
End SystemMetrics.

(** *** The timers of JobScheduler *)

(** What a timer runs. *)
Inductive Task :=
| task_addJob (queueName jobType : string) (data : Payload)
| task_performHealthChecks
| task_updateQueueStatistics
| task_processStalledJobs
| task_archiveOldJobs.

(** A [CronJob]: constructed started, running until [stop()]. *)
Record CronJob := mkCronJob {
  cron_expression : string;
  cron_task : Task;
  cron_running : bool
}.

(** The scheduler: every [CronJob] constructed so far, in the order of
    construction, and [this.jobs], the [Map] from a name to the position of
    its [CronJob], in the order of insertion. *)
Record JobScheduler := mkJobScheduler {
  cronJobs : list CronJob;
  jobs : list (string * nat)
}.

(** [Map.prototype.get], [set] and [delete] *)
Definition jobs_get (name : string) (m : list (string * nat)) : option nat :=
  snd <$> List.find (λ kv, String.eqb kv.1 name) m.
Fixpoint jobs_set (name : string) (i : nat) (m : list (string * nat))
    : list (string * nat) :=
  match m with
  | [] => [(name, i)]
  | (k, v) :: rest =>
      if String.eqb k name then (name, i) :: rest
      else (k, v) :: jobs_set name i rest
  end.
Definition jobs_delete (name : string) (m : list (string * nat)) : list (string * nat) :=
  List.filter (λ kv, negb (String.eqb kv.1 name)) m.

(** [job.stop()] *)
Definition cron_stop (i : nat) (cs : list CronJob) : list CronJob :=
  alter (λ c, mkCronJob (cron_expression c) (cron_task c) false) i cs.

Section Timers.
(** The parser of the cron library: whether [new CronJob] takes the
    expression or throws. *)
Variable validCron : string → bool.

(** [JobScheduler.scheduleJob]: the scheduler after the call and whether it
    returned. *)
Definition scheduleJob (name cronExpression : string) (task : Task)
    (sch : JobScheduler) : JobScheduler * bool :=
  if validCron cronExpression then
    ({| cronJobs := cronJobs sch ++ [mkCronJob cronExpression task true];
        jobs := jobs_set name (length (cronJobs sch)) (jobs sch) |}, true)
  else (sch, false).

(** The five timers of [scheduleRecurringJobs]. *)
Definition recurringJobs : list (string * string * Task) :=
  [("cleanup-expired-jobs", "0 2 * * *",
    task_addJob "cleanup" "cleanup-expired-jobs"
      (mkPayload None None None [("triggeredBy", "scheduler")]));
   ("health-check-services", "*/5 * * * *", task_performHealthChecks);
   ("update-queue-stats", "* * * * *", task_updateQueueStatistics);
   ("process-stalled-jobs", "*/30 * * * *", task_processStalledJobs);
   ("archive-old-jobs", "0 3 * * 0", task_archiveOldJobs)].

(** A sequence of [scheduleJob] calls: the first that throws ends it. *)
Fixpoint scheduleAll (entries : list (string * string * Task)) (sch : JobScheduler)
    : JobScheduler * bool :=
  match entries with
  | [] => (sch, true)
  | (name, cronExpression, task) :: rest =>
      match scheduleJob name cronExpression task sch with
      | (sch', true) => scheduleAll rest sch'
      | (sch', false) => (sch', false)
      end
  end.

(** [JobScheduler.start] *)
Definition scheduleRecurringJobs (sch : JobScheduler) : JobScheduler * bool :=
  scheduleAll recurringJobs sch.

(** [JobScheduler.scheduleRepeatingJob] *)
Definition scheduleRepeatingJob (now : Z) (queueName jobType : string)
    (data : Payload) (cronExpression : string) (sch : JobScheduler)
    : JobScheduler * bool :=
  scheduleJob (queueName ++ "-" ++ jobType ++ "-" ++ pretty now) cronExpression
    (task_addJob queueName jobType data) sch.
End Timers.

(** [JobScheduler.cancelScheduledJob] *)
Definition cancelScheduledJob (jobName : string) (sch : JobScheduler)
    : JobScheduler * bool :=
  match jobs_get jobName (jobs sch) with
  | Some i =>
      ({| cronJobs := cron_stop i (cronJobs sch);
          jobs := jobs_delete jobName (jobs sch) |}, true)
  | None => (sch, false)
  end.

(** [JobScheduler.getScheduledJobs] *)
Definition getScheduledJobs (sch : JobScheduler) : list string := (jobs sch).*1.

(** [JobScheduler.stop] *)
Definition stop (sch : JobScheduler) : JobScheduler :=
  {| cronJobs := foldl (λ cs kv, cron_stop kv.2 cs) (cronJobs sch) (jobs sch);
     jobs := [] |}.

(** The calls that change the scheduler. *)
Inductive SchedulerCall :=
| call_scheduleJob (name cronExpression : string) (task : Task)
| call_cancelScheduledJob (jobName : string)
| call_stop.

Definition schedulerCall (validCron : string → bool) (c : SchedulerCall)
    (sch : JobScheduler) : JobScheduler :=
  match c with
  | call_scheduleJob name cronExpression task =>
      (scheduleJob validCron name cronExpression task sch).1
  | call_cancelScheduledJob jobName => (cancelScheduledJob jobName sch).1
  | call_stop => stop sch
  end.

Section TimerTasks.
Context {BQ : Type} `{Bull BQ}.

(** What a timer does when it fires: the callback [scheduleJob] wraps
    around the task, which logs the task's error. *)
Definition runTask (now : Z) (gen : string) (task : Task) : M BQ unit :=
  catch
    match task with
    | task_addJob queueName jobType data =>
        addJob now gen queueName jobType data None >> ret tt
    | task_performHealthChecks => performHealthChecks now
    | task_updateQueueStatistics => updateQueueStatistics now
    | task_processStalledJobs => processStalledJobs now
    | task_archiveOldJobs => archiveOldJobs now
    end.

(** The timer at position [i] fires, if it runs. *)
Definition fire (now : Z) (gen : string) (sch : JobScheduler) (i : nat) : M BQ unit :=
  match cronJobs sch !! i with
  | Some c => if cron_running c then runTask now gen (cron_task c) else ret tt
  | None => ret tt
  end.
End TimerTasks.

(** *** The jobs of a user *)

(** [createPaginationOptions] of shared/utils: [skip] and [limit]. *)
Definition createPaginationOptions (page limit : Z) : Z * Z :=
  ((page - 1) * limit, limit).

(** The [pagination] object of [createPaginationResponse]. *)
Record PageInfo := mkPageInfo {
  pi_page : Z;
  pi_limit : Z;
  pi_total : Z;
  pi_totalPages : Z
}.

(** [createPaginationResponse] of shared/utils. *)
Definition createPaginationResponse {T : Type} (data : list T) (total page limit : Z)
    : list T * PageInfo :=
  (data,
   {| pi_page := page; pi_limit := limit; pi_total := total;
      pi_totalPages := totalPagesOf total limit |}).

(** An entry of [GET /jobs/user/:userId]. *)
Record JobSummary := mkJobSummary {
  js_jobId : string;
  js_queue : string;
  js_type : string;
  js_status : JobStatus;
  js_attempts : Z;
  js_maxAttempts : Z;
  js_processingTime : option Z;
  js_createdAt : Z;
  js_completedAt : option Z;
  js_failedAt : option Z;
  js_hasError : bool
}.

Definition jobSummary (job : Job.t) : JobSummary :=
  {| js_jobId := Job.jobId job;
     js_queue := Job.queue job;
     js_type := Job.type job;
     js_status := Job.status job;
     js_attempts := Job.attempts job;
     js_maxAttempts := Job.maxAttempts job;
     js_processingTime := Job.processingTime job;
     js_createdAt := Job.createdAt job;
     js_completedAt := Job.completedAt job;
     js_failedAt := Job.failedAt job;
     js_hasError := truthyS (Job.error job) |}.

(** The query of [GET /jobs/user/:userId]. *)
Record UserJobsQuery := mkUserJobsQuery {
  uq_page : option Z;
  uq_limit : option Z;
  uq_status : option string;
  uq_queue : option string;
  uq_type : option string
}.

(** The filter the route builds. *)
Definition userJobsFilter (userId : string) (q : UserJobsQuery) (j : Job.t) : bool :=
  bool_decide (Job.userId j = Some userId)
  && (if truthyS (uq_status q)
      then String.eqb (statusName (Job.status j)) (default "" (uq_status q))
      else true)
  && (if truthyS (uq_queue q)
      then String.eqb (Job.queue j) (default "" (uq_queue q)) else true)
  && (if truthyS (uq_type q)
      then String.eqb (Job.type j) (default "" (uq_type q)) else true).

Section UserJobs.
Context {BQ : Type} `{Bull BQ}.

(** [jobRoutes.get('/user/:userId')]. MongoDB's answer to a negative [skip]
    or [limit] is not modelled. *)
Definition userJobs (h : Headers) (userId : string) (q : UserJobsQuery)
    : M BQ (list JobSummary * PageInfo) :=
  requireUser h >>
  when (notAdmin h && negb (bool_decide (x_user_id h = Some userId)))
    (throw (AppError "Access denied" 403 "FORBIDDEN")) >>
  let page := orZ (uq_page q) 1 in
  let limit := orZ (uq_limit q) 20 in
  let skip := (createPaginationOptions page limit).1 in
  let* found := JobModel_find (userJobsFilter userId q) in
  let total := Z.of_nat (length found) in
  ret (createPaginationResponse
         (jobSummary <$>
            take (Z.to_nat limit) (drop (Z.to_nat skip) (sortByCreatedAtDesc found)))
         total page limit).
End UserJobs.

(** Three jobs of two users. *)
Definition twoUsers : System ListQueue :=
  withJobs
    [ sampleJob "u1-a" "cleanup" "cleanup-expired-jobs" waiting 0 3 10;
      Job.mk "u2-a" "cleanup" "cleanup-expired-jobs"
        (mkPayload None (Some "u2") None []) (Some "u2") waiting 0 0 3 0
        None None None 20 None None None None;
      sampleJob "u1-b" "notifications" "send-notification" completed 1 3 30 ]
    initialSystem.

(** *** healthRoutes *)

(** [health.status] *)
Inductive ServiceStatus := svc_healthy | svc_warning | svc_unhealthy.

Global Instance ServiceStatus_eq_dec : EqDecision ServiceStatus.
Proof. solve_decision. Defined.

(** [health.checks] of [GET /health]. *)
Record HealthChecks := mkHealthChecks {
  hc_database : bool;
  hc_redis : bool;
  hc_queues : bool;
  hc_memory : bool
}.

(** [health.status === 'healthy' ? 200 : health.status === 'warning' ? 200 : 503] *)
Definition healthStatusCode (status : ServiceStatus) : Z :=
  match status with
  | svc_healthy => 200
  | svc_warning => 200
  | svc_unhealthy => 503
  end.

(** [health.status = health.status === 'healthy' ? 'warning' : health.status] *)
Definition warnIfHealthy (status : ServiceStatus) : ServiceStatus :=
  match status with svc_healthy => svc_warning | _ => status end.

(** [stats.failed > stats.completed && stats.total > 10] *)
Definition problematic (stat : QStat) : bool :=
  (st_completed stat <? st_failed stat) && (10 <? st_total stat).

Section HealthRoutes.
Context {BQ : Type} `{Bull BQ}.

(** [healthRoutes.get('/')]: the status code, [health.status] and
    [health.checks]. [mongoUp] stands for [mongoose.connection.readyState
    === 1], [memoryBelow90] for [memoryUsagePercent < 90]. *)
Definition healthBasic (memoryBelow90 : bool) : M BQ (Z * ServiceStatus * HealthChecks) :=
  fun s =>
    let status := svc_healthy in
    let database := mongoUp s in
    let status := if database then status else svc_unhealthy in
    let redis := match (getQueueStats None s).2 with Ok _ => true | Err _ => false end in
    let status := if redis then status else svc_unhealthy in
    let status := if memoryBelow90 then status else svc_warning in
    (s, Ok (healthStatusCode status, status,
            {| hc_database := database; hc_redis := redis; hc_queues := redis;
               hc_memory := memoryBelow90 |})).

(** [healthRoutes.get('/ready')]: the status code and whether the status is
    ['ready']. *)
Definition healthReady : M BQ (Z * bool) :=
  fun s =>
    let ready := mongoUp s in
    let ready := match (getQueueStats None s).2 with Ok _ => ready | Err _ => false end in
    (s, Ok (if ready then 200 else 503, ready)).

(** [healthRoutes.get('/detailed')]: the status code and, for an admin,
    [health.status] and whether the queues' check carries the warning.
    [memoryAbove85] stands for [memoryUsagePercent > 85]. *)
Definition healthDetailed (h : Headers) (memoryAbove85 : bool)
    : M BQ (Z * option (ServiceStatus * bool)) :=
  fun s =>
    if notAdmin h then (s, Ok (403, None))
    else
      let status := svc_healthy in
      let status := if mongoUp s then status else svc_unhealthy in
      let '(status, hasProblematicQueues) :=
        match (getQueueStats None s).2 with
        | Ok (StatsAll entries) =>
            (foldl (λ st entry, if problematic entry.2 then warnIfHealthy st else st)
                   status entries,
             existsb (λ entry, problematic entry.2) entries)
        | Ok (StatsOne _) => (status, false)
        | Err _ => (svc_unhealthy, false)
        end in
      let status := if memoryAbove85 then warnIfHealthy status else status in
      (s, Ok (healthStatusCode status, Some (status, hasProblematicQueues))).
End HealthRoutes.

(** The invariant of the job store: every document sits under its own
    [jobId] and has the shape [addJob] gave it. *)
Definition store_ok (m : gmap string Job.t) : Prop :=
  ∀ id doc, m !! id = Some doc → Job.jobId doc = id ∧ addJob_shaped doc.

(** [keeps m R]: the handler [m] preserves the invariant of the job store,
    and what it returns satisfies [R]. *)
Definition keeps {BQ A : Type} (m : M BQ A) (R : A → Prop) : Prop :=
  ∀ s, store_ok (jobModel s) →
       store_ok (jobModel (m s).1) ∧ ∀ a, (m s).2 = Ok a → R a.

(** What changes the state: the routes, the scheduler's tasks and timers,
    the workers, the listeners on Bull's events, MongoDB's TTL monitor,
    MongoDB going down or coming back, and whatever Bull and Redis do to the
    queues. *)
Inductive step {BQ : Type} `{Bull BQ} : System BQ → System BQ → Prop :=
| step_addJob now gen queueName jobType data options s :
    step s (addJob now gen queueName jobType data options s).1
| step_createJob now gen h body s :
    step s (createJob now gen h body s).1
| step_cancelJob now h jobId s :
    step s (cancelJob now h jobId s).1
| step_retryJob now gen h jobId s :
    step s (retryJob now gen h jobId s).1
| step_bulkCancel now h jobIds s :
    step s (bulkCancel now h jobIds s).1
| step_pauseQueue now h queueName s :
    step s (pauseQueue now h queueName s).1
| step_resumeQueue now h queueName s :
    step s (resumeQueue now h queueName s).1
| step_cleanQueue now h queueName olderThan status s :
    step s (cleanQueue now h queueName olderThan status s).1
| step_healthSummary h s :
    step s (healthSummary h s).1
| step_performHealthChecks now s :
    step s (performHealthChecks now s).1
| step_updateQueueStatistics now s :
    step s (updateQueueStatistics now s).1
| step_processStalledJobs now s :
    step s (processStalledJobs now s).1
| step_workerTurn now queueName s :
    step s (workerTurn now queueName s).1
| step_onJobCompleted now jobId result s :
    step s (onJobCompleted now jobId result s).1
| step_onJobFailed now jobId message attemptsMade s :
    step s (onJobFailed now jobId message attemptsMade s).1
| step_onJobStalled now jobId s :
    step s (onJobStalled now jobId s).1
| step_ttl now s :
    step s (JobModel_ttl now s).1
| step_mongo up s :
    step s (mkSystem up (jobModel s) (queueModel s) (queues s))
| step_bull f s :
    step s (set_queues f s)
| step_runJob processor jobId startTime endTime reply mongoMessage s :
    step s (runJob processor jobId startTime endTime reply mongoMessage s).1
| step_archiveOldJobs now s :
    step s (archiveOldJobs now s).1
| step_scheduleDelayed now gen h body s :
    step s (scheduleDelayed now gen h body s).1
| step_triggerJob now gen h jobName data s :
    step s (triggerJob now gen h jobName data s).1
| step_fire now gen sch i s :
    step s (fire now gen sch i s).1.

(** The states the service reaches from an empty job store. *)
Inductive reachable {BQ : Type} `{Bull BQ} : System BQ → Prop :=
| reachable_start s : jobModel s = ∅ → reachable s
| reachable_step s s' : reachable s → step s s' → reachable s'.

(** What a [results] entry of the bulk cancel says about a job: [before] and
    [after] are what the store holds under its id before and after the call. *)
Definition bulkOutcome (now : Z) (job : Job.t) (before after : option Job.t)
    (o : BulkOutcome) : Prop :=
  match o with
  | bulk_skipped => terminal (Job.status job) = true ∧ after = before
  | bulk_cancelled =>
      terminal (Job.status job) = false
      ∧ after = Some (markCancelled now "Bulk cancelled by user" job)
  | bulk_error _ => terminal (Job.status job) = false ∧ after = before
  end.

(** The stored health of the queues: every queue document says [healthy]. *)
Definition healthy_docs (m : gmap string QueueDoc.t) : Prop :=
  ∀ name d, m !! name = Some d → QueueDoc.healthStatus d = healthy.

(** [qkeeps m]: the handler [m] leaves the stored health as it is. *)
Definition qkeeps {BQ A : Type} (m : M BQ A) : Prop :=
  ∀ s, healthy_docs (queueModel s) → healthy_docs (queueModel (m s).1).

(** A store whose queues show one warning and one error, with no queue
    document yet. *)
Definition unhealthyQueues : System ListQueue :=
  mkSystem true ∅ ∅
    (map (λ name,
            (name,
             if String.eqb name "cleanup" then queueWith 2 3
             else if String.eqb name "notifications" then queueWith 100 11
             else mkListQueue true []))
         QUEUES).

(** * Properties *)

(** ** Submission *)

Section AddJobFacts.
Context {BQ : Type} `{Bull BQ}.

(** The outcomes of [addJob], in the order the code reaches them. *)
Lemma addJob_unfold now gen queueName jobType data options (s : System BQ) :
  let jobData := addJob_jobData now gen jobType data options in
  let doc := addJob_jobDoc now queueName jobData in
  addJob now gen queueName jobType data options s =
    match queues_get s queueName with
    | None => (s, Err (QueueNotFound queueName))
    | Some q =>
        if mongoUp s then
          match jobModel s !! jd_id jobData with
          | Some _ => (s, Err (MongoDuplicateKey (jd_id jobData)))
          | None =>
              match q_add q jobType jobData (withJobId options (jd_id jobData)) with
              | Some q' =>
                  (queues_put queueName q' (set_jobModel <[jd_id jobData := doc]> s),
                   Ok (jd_id jobData))
              | None => (set_jobModel <[jd_id jobData := doc]> s, Err BullRejected)
              end
          end
        else (s, Err MongoUnavailable)
    end.
Proof.
  intros jobData doc. unfold addJob.
  destruct (queues_get s queueName) as [q|] eqn:Hq; [|reflexivity].
  fold jobData. fold doc.
  unfold bind at 1. unfold JobModel_create.
  destruct (mongoUp s) eqn:Hup; [|reflexivity].
  change (Job.jobId doc) with (jd_id jobData).
  destruct (jobModel s !! jd_id jobData) eqn:Hfree; [reflexivity|].
  unfold bind, queue_add, ret.
  change (queues_get (set_jobModel <[jd_id jobData:=doc]> s) queueName)
    with (queues_get s queueName).
  rewrite Hq.
  destruct (q_add q jobType jobData _); reflexivity.
Qed.
End AddJobFacts.

(** C10. A submission that reaches the store (MongoDB up, queue known, id
    free) creates exactly one record; its [maxAttempts] is [options.attempts]
    when that is truthy and 3 otherwise (so 3 for [attempts = 0]), its status
    is [waiting] and its [attempts] is 0. *)
Theorem addJob_new_record {BQ : Type} `{Bull BQ}
    now gen queueName jobType data options (s : System BQ) :
  let jobId := orS (p_id data) gen in
  let s' := (addJob now gen queueName jobType data options s).1 in
  mongoUp s = true →
  is_Some (queues_get s queueName) →
  jobModel s !! jobId = None →
  ∃ doc,
    jobModel s' !! jobId = Some doc
    ∧ Job.maxAttempts doc = match options ≫= o_attempts with
                            | Some n => if decide (n = 0) then 3 else n
                            | None => 3
                            end
    ∧ Job.status doc = waiting
    ∧ Job.attempts doc = 0
    ∧ ∀ id doc', jobModel s !! id = None → jobModel s' !! id = Some doc' →
                 id = jobId ∧ doc' = doc.
Proof.
  intros jobId s' Hup [q Hq] Hfree. subst s'.
  rewrite addJob_unfold, Hq, Hup. cbn [jd_id addJob_jobData].
  fold jobId. rewrite Hfree.
  set (doc := addJob_jobDoc now queueName (addJob_jobData now gen jobType data options)).
  exists doc.
  assert (Hstore : jobModel
            (match q_add q jobType (addJob_jobData now gen jobType data options)
                     (withJobId options jobId) with
             | Some q' => (queues_put queueName q' (set_jobModel <[jobId:=doc]> s), Ok jobId)
             | None => (set_jobModel <[jobId:=doc]> s, Err BullRejected)
             end).1 = <[jobId:=doc]> (jobModel s)).
  { destruct (q_add _ _ _ _); reflexivity. }
  rewrite Hstore.
  split; [apply lookup_insert_eq|].
  split.
  { cbn. unfold orZ. destruct (options ≫= o_attempts) as [n|]; [|reflexivity].
    destruct (decide (n = 0)) as [->|Hn]; [reflexivity|].
    apply Z.eqb_neq in Hn. now rewrite Hn. }
  split; [reflexivity|]. split; [reflexivity|].
  intros id doc' Hold Hnew.
  destruct (decide (id = jobId)) as [->|Hne].
  - rewrite lookup_insert_eq in Hnew. split; congruence.
  - rewrite lookup_insert_ne in Hnew by congruence. congruence.
Qed.

(** With [attempts: 0] in the options the record gets [maxAttempts = 3]. *)
Lemma addJob_new_record_witness :
  ∃ doc,
    jobModel (addJob 1000 "job_1" "cleanup" "cleanup-expired-jobs"
                (mkPayload None (Some "u1") None [])
                (Some (mkJobOptions (Some 0) None None None)) initialSystem).1
      !! "job_1" = Some doc
    ∧ Job.maxAttempts doc = 3 ∧ Job.status doc = waiting ∧ Job.attempts doc = 0.
Proof.
  destruct (addJob_new_record 1000 "job_1" "cleanup" "cleanup-expired-jobs"
              (mkPayload None (Some "u1") None [])
              (Some (mkJobOptions (Some 0) None None None)) initialSystem)
    as (doc & Hdoc & Hmax & Hst & Hatt & _).
  - reflexivity.
  - eexists. vm_compute. reflexivity.
  - reflexivity.
  - exists doc. repeat split; assumption.
Defined.




(** C5, as stated, fails: ['send-notification'] is registered against
    ['notifications'] only, yet submitting it to ['cleanup'] creates a job. *)
Lemma createJob_accepts_unregistered_pair :
  let out := createJob 1000 "job_1" (userHeaders "u1") crossQueueBody initialSystem in
  registered "cleanup" "send-notification" = false
  ∧ out.2 = Ok "job_1"
  ∧ Job.queue <$> jobModel out.1 !! "job_1" = Some "cleanup"
  ∧ Job.type <$> jobModel out.1 !! "job_1" = Some "send-notification".
Proof. vm_compute. repeat split. Qed.

(** C5, amended. For an authenticated caller, a known queue and a body with
    all three fields, the submission fails with [INVALID_JOB_TYPE], writing
    nothing, exactly when the type is none of [JOB_TYPES]; every type of that
    list goes on to [addJob] whatever the queue. *)
Theorem createJob_type_check {BQ : Type} `{Bull BQ}
    now gen h queue type data options (s : System BQ) :
  let body := mkCreateBody (Some queue) (Some type) (Some data) options in
  truthyS (x_user_id h) = true →
  queue ∈ QUEUES →
  type ≠ "" →
  (type ∉ JOB_TYPES →
     createJob now gen h body s
     = (s, Err (AppError "Invalid job type" 400 "INVALID_JOB_TYPE")))
  ∧ (type ∈ JOB_TYPES →
       createJob now gen h body s
       = addJob now gen queue type (withUserId data (default "" (x_user_id h)))
           options s).
Proof.
  intros body Huser Hqueue Htype.
  assert (Hq : truthyS (Some queue) = true).
  { cbn. apply negb_true_iff, String.eqb_neq. intros ->.
    assert (Hnot : "" ∉ QUEUES) by (apply (bool_decide_unpack _); vm_compute; exact I).
    contradiction. }
  assert (Ht : truthyS (Some type) = true).
  { cbn. now apply negb_true_iff, String.eqb_neq. }
  unfold createJob, requireUser. rewrite Huser. cbn [negb when b_data body].
  cbn [b_queue b_type b_options body]. rewrite Hq, Ht. cbn [andb default].
  unfold includes. rewrite (bool_decide_eq_true_2 _ Hqueue). cbn [negb when].
  split; intros Hin.
  - rewrite (bool_decide_eq_false_2 _ Hin). reflexivity.
  - rewrite (bool_decide_eq_true_2 _ Hin). reflexivity.
Qed.

(** ['validate-business'] is a job type no processor is registered for; the
    route hands it to [addJob] all the same. *)
Lemma createJob_type_check_witness :
  createJob 1000 "job_1" (userHeaders "u1")
    (mkCreateBody (Some "cleanup") (Some "validate-business") (Some samplePayload) None)
    initialSystem
  = addJob 1000 "job_1" "cleanup" "validate-business"
      (withUserId samplePayload "u1") None initialSystem.
Proof.
  apply (createJob_type_check 1000 "job_1" (userHeaders "u1") "cleanup"
           "validate-business" samplePayload None initialSystem).
  - reflexivity.
  - apply (bool_decide_unpack _). vm_compute. exact I.
  - discriminate.
  - apply (bool_decide_unpack _). vm_compute. exact I.
Defined.

(** ** Cleaning a queue *)

(** C9. For an admin, a known queue and a reachable store, [POST
    /:queueName/clean] with a status other than ['completed'], ['failed'] and
    ['all'] deletes exactly the queue's jobs created before the cutoff,
    whatever their status; with one of the three, every job that is neither
    completed nor failed stays. The call returns the deleted count. *)
Theorem cleanQueue_status_filter {BQ : Type} `{Bull BQ}
    now h queueName olderThan status (s : System BQ) :
  let cutoffDate := now - default (24 * 60 * 60 * 1000) olderThan in
  let given := default "completed" status in
  let out := cleanQueue now h queueName olderThan status s in
  x_user_role h = Some "admin" →
  queueName ∈ QUEUES →
  mongoUp s = true →
  (given ∉ ["completed"; "failed"; "all"] →
     ∀ id doc, jobModel out.1 !! id = Some doc
               ↔ jobModel s !! id = Some doc
                 ∧ ¬ (Job.queue doc = queueName ∧ Job.createdAt doc < cutoffDate))
  ∧ (given ∈ ["completed"; "failed"; "all"] →
       ∀ id doc, jobModel s !! id = Some doc →
                 Job.status doc ≠ completed → Job.status doc ≠ failed →
                 jobModel out.1 !! id = Some doc)
  ∧ (∃ deletedCount, out.2 = Ok deletedCount)
  ∧ queues out.1 = queues s.
Proof.
  intros cutoffDate given out Hadmin Hqueue Hup.
  assert (Hout : out = (set_jobModel
                          (base.filter (λ kv, cleanFilter queueName cutoffDate given kv.2 = false))
                          s,
                        Ok (size (base.filter
                                    (λ kv, cleanFilter queueName cutoffDate given kv.2 = true)
                                    (jobModel s))))).
  { subst out. unfold cleanQueue, requireAdmin, requireQueue, notAdmin, includes.
    rewrite (bool_decide_eq_true_2 _ Hadmin), (bool_decide_eq_true_2 _ Hqueue).
    cbn [negb when]. unfold bind at 1. cbn [ret]. unfold bind at 1. cbn [ret].
    unfold JobModel_deleteMany. rewrite Hup. reflexivity. }
  rewrite Hout. cbn [fst snd set_jobModel jobModel queues].
  split; [|split; [|split]]; [| |eauto|reflexivity].
  - intros Hother id doc. rewrite map_lookup_filter_Some. cbn [snd].
    assert (Hnone : cleanStatusFilter given = None).
    { unfold cleanStatusFilter.
      destruct (String.eqb_spec given "completed") as [Heq|_];
        [exfalso; apply Hother; rewrite Heq; repeat constructor|].
      destruct (String.eqb_spec given "failed") as [Heq|_];
        [exfalso; apply Hother; rewrite Heq; repeat constructor|].
      destruct (String.eqb_spec given "all") as [Heq|_];
        [exfalso; apply Hother; rewrite Heq; repeat constructor|].
      reflexivity. }
    unfold cleanFilter. rewrite Hnone, andb_true_r.
    rewrite andb_false_iff, String.eqb_neq, Z.ltb_ge.
    split; intros [Hdoc Hkeep]; (split; [exact Hdoc|]).
    + intros [Hq Hc]. destruct Hkeep; [congruence|lia].
    + destruct (decide (Job.queue doc = queueName)); [right|left; assumption].
      destruct (Z.le_gt_cases cutoffDate (Job.createdAt doc)); [assumption|].
      exfalso. apply Hkeep. split; [assumption|lia].
  - intros Hknown id doc Hdoc Hnc Hnf. rewrite map_lookup_filter_Some. cbn [snd].
    split; [exact Hdoc|].
    unfold cleanFilter. apply andb_false_iff. right.
    assert (Hsome : ∃ allowed, cleanStatusFilter given = Some allowed
                               ∧ allowed ⊆ [completed; failed]).
    { unfold cleanStatusFilter.
      repeat (apply elem_of_cons in Hknown as [Heq|Hknown];
              [rewrite Heq; cbn; eexists; split; [reflexivity|];
               intros x Hx; repeat (apply elem_of_cons in Hx as [->|Hx];
                                    [repeat constructor|]); inversion Hx|]).
      inversion Hknown. }
    destruct Hsome as (allowed & -> & Hsub).
    apply bool_decide_eq_false_2. intros Hin. apply Hsub in Hin.
    repeat (apply elem_of_cons in Hin as [Heq|Hin]; [congruence|]).
    inversion Hin.
Qed.

(** With the unrecognised status ['pending'] and the default age of a day,
    the waiting, the active and the completed job of ['cleanup'] all go. *)
Lemma cleanQueue_status_filter_witness :
  let out := cleanQueue twoDays adminHeaders "cleanup" None (Some "pending")
               cleanupBacklog in
  jobModel cleanupBacklog !! "a1"
  = Some (sampleJob "a1" "cleanup" "cleanup-expired-jobs" active 0 3 0)
  ∧ jobModel out.1 !! "a1" = None
  ∧ jobModel out.1 !! "w1" = None.
Proof.
  destruct (cleanQueue_status_filter twoDays adminHeaders "cleanup" None
              (Some "pending") cleanupBacklog) as (Hother & _ & _ & _).
  - reflexivity.
  - apply (bool_decide_unpack _). vm_compute. exact I.
  - reflexivity.
  - assert (Hunknown : "pending" ∉ ["completed"; "failed"; "all"])
      by (apply (bool_decide_unpack _); vm_compute; exact I).
    specialize (Hother Hunknown).
    assert (Hgone : ∀ id status,
              jobModel cleanupBacklog !! id
              = Some (sampleJob id "cleanup" "cleanup-expired-jobs" status 0 3 0) →
              jobModel (cleanQueue twoDays adminHeaders "cleanup" None
                          (Some "pending") cleanupBacklog).1 !! id = None).
    { intros id status Hin.
      destruct (jobModel (cleanQueue _ _ _ _ _ _).1 !! id) as [doc|] eqn:Hdoc;
        [|reflexivity].
      apply Hother in Hdoc as [Hdoc Hkeep]. exfalso. apply Hkeep.
      rewrite Hin in Hdoc. injection Hdoc as <-. split; [reflexivity|].
      vm_compute. reflexivity. }
    split; [vm_compute; reflexivity|].
    split; [apply (Hgone "a1" active) | apply (Hgone "w1" waiting)];
      vm_compute; reflexivity.
Defined.

(** ** Health evaluation *)

(** The two assignments of the routes and the scheduler compute the
    specification's three-way rule. *)
Lemma evalHealth_specHealth failedN completedN :
  evalHealth failedN completedN = specHealth failedN completedN.
Proof.
  unfold evalHealth, specHealth, Qgtb.
  destruct (Z_lt_dec completedN failedN) as [Hlt|Hge].
  - apply Z.ltb_lt in Hlt. now rewrite Hlt.
  - apply Z.ltb_nlt in Hge. rewrite Hge.
    destruct (Z_lt_dec 10 failedN) as [Hten|Hten].
    + apply Z.ltb_lt in Hten. rewrite Hten. cbn [andb].
      destruct (Qlt_le_dec _ _) as [Hq|Hq].
      * destruct (Qle_bool _ _) eqn:Hle; [|reflexivity].
        apply Qle_bool_iff in Hle. exfalso. exact (Qlt_not_le _ _ Hq Hle).
      * apply Qle_bool_iff in Hq. now rewrite Hq.
    + apply Z.ltb_nlt in Hten. now rewrite Hten.
Qed.

(** X27. For an admin, a reachable store and readable queues,
    [GET /scheduler/health] reports for every queue the status the
    specification's rule gives for that queue's live [failed] and
    [completed] counts: [error] when [failed > completed], otherwise
    [warning] when [failed > 10] and [failed > 0.1 × completed], otherwise
    [healthy]. *)
Theorem healthSummary_evaluation {BQ : Type} `{Bull BQ}
    h (s : System BQ) entries :
  x_user_role h = Some "admin" →
  mongoUp s = true →
  stats_of s (queues s).*1 = Ok entries →
  ∃ overall,
    healthSummary h s
    = (s, Ok (overall,
              map (λ e, mkQueueHealth e.1
                          (specHealth (st_failed e.2) (st_completed e.2)) e.2)
                  entries)).
Proof.
  intros Hadmin Hup Hstats.
  unfold healthSummary, requireAdmin, notAdmin.
  rewrite (bool_decide_eq_true_2 _ Hadmin). cbn [negb when].
  unfold bind at 1. cbn [ret]. unfold bind at 1.
  unfold getSchedulerStats. rewrite Hup.
  unfold bind, getQueueStats. cbn [truthyS]. rewrite Hstats.
  eexists. unfold ret. f_equal. f_equal. f_equal.
  apply map_ext. intros [name st]. unfold healthEntry. cbn [fst snd].
  now rewrite evalHealth_specHealth.
Qed.

(** 11 failed against 100 completed is a warning, 3 against 2 an error, 11
    against 200 healthy. *)
Lemma healthSummary_evaluation_witness :
  ∃ overall,
    healthSummary adminHeaders mixedHealth
    = (mixedHealth,
       Ok (overall,
           [ mkQueueHealth "notifications" warning (mkQStat 0 0 100 11 0 111);
             mkQueueHealth "cleanup" error (mkQStat 0 0 2 3 0 5);
             mkQueueHealth "video-analysis" healthy (mkQStat 0 0 200 11 0 211) ])).
Proof.
  destruct (healthSummary_evaluation adminHeaders mixedHealth
              [ ("notifications", mkQStat 0 0 100 11 0 111);
                ("cleanup", mkQStat 0 0 2 3 0 5);
                ("video-analysis", mkQStat 0 0 200 11 0 211) ])
    as [overall Hsum].
  - reflexivity.
  - reflexivity.
  - vm_compute. reflexivity.
  - exists overall. rewrite Hsum. reflexivity.
Defined.

(** [performHealthChecks] asks [getQueueStats] for one queue and then reads
    the property named like the queue from that queue's entry: there is
    none, so the loop passes over every queue and writes nothing. *)
Lemma stat_property_of_queue st queueName :
  queueName ∈ QUEUES → stat_property st queueName = None.
Proof.
  intros Hin.
  repeat (apply elem_of_cons in Hin as [->|Hin]; [reflexivity|]).
  inversion Hin.
Qed.

Lemma healthCheckOne_writes_nothing {BQ : Type} `{Bull BQ}
    now queueName (s : System BQ) :
  queueName ∈ QUEUES → (healthCheckOne now queueName s).1 = s.
Proof.
  intros Hin. unfold healthCheckOne, bind, getQueueStats.
  assert (Htruthy : truthyS (Some queueName) = true).
  { repeat (apply elem_of_cons in Hin as [->|Hin]; [reflexivity|]).
    inversion Hin. }
  rewrite Htruthy.
  destruct (stats_of s [default "" (Some queueName)]) as [stats|e]; [|reflexivity].
  destruct (head stats) as [[name st]|]; cbn [fmap option_fmap option_map snd];
    [|reflexivity].
  now rewrite stat_property_of_queue.
Qed.

Lemma forEach_writes_nothing {BQ A : Type} (body : A → M BQ unit) xs (s : System BQ) :
  (∀ x s0, x ∈ xs → (body x s0).1 = s0) → (forEach xs body s).1 = s.
Proof.
  revert s. induction xs as [|x xs IH]; intros s Hbody; [reflexivity|].
  cbn [forEach]. unfold bind.
  pose proof (Hbody x s (list_elem_of_here _ _)) as Hx.
  destruct (body x s) as [s1 [[]|e]]; cbn [fst] in Hx; subst s1; [|reflexivity].
  apply IH. intros y s0 Hy. apply Hbody. now apply list_elem_of_further.
Qed.

Lemma performHealthChecks_writes_nothing {BQ : Type} `{Bull BQ} now (s : System BQ) :
  performHealthChecks now s = (s, Ok tt).
Proof.
  unfold performHealthChecks, catch. f_equal.
  apply forEach_writes_nothing. intros x s0 Hx.
  now apply healthCheckOne_writes_nothing.
Qed.

(** C6 at the failing input. The queue ['cleanup'] holds two completed and
    three failed jobs, so the rule gives [error], and [GET /scheduler/health]
    reports it. The scheduler's health check on the same state evaluates
    nothing: [getQueueStats('cleanup')] already returns the counts of the
    queue, [stats['cleanup']] read from them is [undefined], and the loop
    continues. No status is yielded and none is stored, for this queue or any
    other. *)
Theorem performHealthChecks_yields_no_status :
  let s := unhealthyQueues in
  let counts := mkQStat 0 0 2 3 0 5 in
  (getQueueStats (Some "cleanup") s).2 = Ok (StatsOne (Some counts))
  ∧ evalHealth (st_failed counts) (st_completed counts) = error
  ∧ (∃ overall qs, healthSummary adminHeaders s = (s, Ok (overall, qs))
                   ∧ mkQueueHealth "cleanup" error counts ∈ qs)
  ∧ stat_property counts "cleanup" = None
  ∧ (∀ now, healthCheckOne now "cleanup" s = (s, Ok tt))
  ∧ (∀ now, performHealthChecks now s = (s, Ok tt))
  ∧ (∀ now, queueModel (performHealthChecks now s).1 !! "cleanup" = None).
Proof.
  intros s counts.
  split; [vm_compute; reflexivity|]. split; [vm_compute; reflexivity|].
  split.
  { eexists _, _. split; [vm_compute; reflexivity|].
    do 6 apply list_elem_of_further. apply list_elem_of_here. }
  split; [reflexivity|]. split; [intros now; vm_compute; reflexivity|].
  split.
  - intros now. apply performHealthChecks_writes_nothing.
  - intros now. now rewrite performHealthChecks_writes_nothing.
Qed.

(** ** Metrics refresh *)

(** What [updateQueueStatistics] stores as [processingRate] is the number of
    jobs completed in the last hour. *)
Lemma updateQueueStatisticsOne_rate {BQ : Type} `{Bull BQ}
    now queueName (s : System BQ) :
  mongoUp s = true →
  QueueDoc.processingRate
    <$> queueModel (updateQueueStatisticsOne now queueName s).1 !! queueName
  = Some (Z.of_nat (length (List.filter (recentFilter now queueName)
                              (map_to_list (jobModel s)).*2))).
Proof.
  intros Hup. unfold updateQueueStatisticsOne, bind, JobModel_find, QueueModel_upsert.
  rewrite Hup. cbv beta. rewrite Hup.
  cbn [mongoUp set_queueModel queueModel fst].
  now rewrite lookup_insert_eq.
Qed.

(** The head of the sorted [recentJobs] is a job with the latest
    [completedAt]. *)
Lemma sortByCompletedAtDesc_head jobs :
  match head (sortByCompletedAtDesc jobs) with
  | Some latest =>
      latest ∈ jobs
      ∧ ∀ job, job ∈ jobs →
               default 0 (Job.completedAt job) ≤ default 0 (Job.completedAt latest)
  | None => jobs = []
  end.
Proof.
  induction jobs as [|j jobs IH]; [reflexivity|].
  cbn [sortByCompletedAtDesc foldr]. fold (sortByCompletedAtDesc jobs).
  destruct (sortByCompletedAtDesc jobs) as [|k rest]; cbn [head] in IH.
  - subst jobs. cbn. split; [constructor|].
    intros job Hin. apply list_elem_of_singleton in Hin as ->. lia.
  - destruct IH as [Hk Hmax]. cbn [insertByCompletedAt].
    destruct (Z.leb_spec (default 0 (Job.completedAt k)) (default 0 (Job.completedAt j)));
      cbn [head].
    + split; [constructor|]. intros job Hin.
      apply elem_of_cons in Hin as [->|Hin]; [lia|].
      specialize (Hmax job Hin). lia.
    + split; [now constructor|]. intros job Hin.
      apply elem_of_cons in Hin as [->|Hin]; [lia|]. now apply Hmax.
Qed.

(** For a non-empty window the latest completion time in it is what
    [lastProcessedOf] picks. *)
Lemma lastProcessedOf_latest {BQ : Type} `{Bull BQ} now queueName jobs :
  jobs ≠ [] →
  Forall (λ job, recentFilter now queueName job = true) jobs →
  ∃ t, lastProcessedOf jobs = Some t
       ∧ (∃ job, job ∈ jobs ∧ Job.completedAt job = Some t)
       ∧ ∀ job t', job ∈ jobs → Job.completedAt job = Some t' → t' ≤ t.
Proof.
  intros Hne Hrecent. unfold lastProcessedOf.
  assert (Hlen : (0 <? Z.of_nat (length jobs)) = true).
  { apply Z.ltb_lt. destruct jobs; [contradiction|cbn; lia]. }
  rewrite Hlen. pose proof (sortByCompletedAtDesc_head jobs) as Hhead.
  destruct (head (sortByCompletedAtDesc jobs)) as [latest|]; [|contradiction].
  destruct Hhead as [Hin Hmax]. cbn [mbind option_bind].
  assert (Hdone : ∀ job, job ∈ jobs → is_Some (Job.completedAt job)).
  { intros job Hjob. rewrite Forall_forall in Hrecent.
    specialize (Hrecent job Hjob). unfold recentFilter in Hrecent.
    destruct (Job.completedAt job); [eauto|].
    now rewrite andb_false_r in Hrecent. }
  destruct (Hdone latest Hin) as [t Ht]. exists t. split; [exact Ht|].
  split; [now exists latest|].
  intros job t' Hjob Ht'. specialize (Hmax job Hjob).
  now rewrite Ht, Ht' in Hmax.
Qed.

(** C7 at the failing input. Sixty jobs completed in the last hour are one
    job per minute; the refresh stores 60 as the rate ([QueueStats] documents
    [processingRate] as "jobs per minute"). The mean processing time and the
    last completion time are as the claim says. *)
Theorem updateQueueStatistics_rate_is_hourly_count :
  let d := queueModel (updateQueueStatistics oneHour sixtyCompleted).1 !! "cleanup" in
  QueueDoc.processingRate <$> d = Some 60
  ∧ Qeq_bool (default 0%Q (QueueDoc.averageProcessingTime <$> d)) (500 # 1) = true
  ∧ (d ≫= QueueDoc.lastProcessedAt) = Some (59 * 60000 + 1000).
Proof. vm_compute. repeat split. Qed.

(** ** Documents found and saved in a loop *)

Section StoreLoops.
Context {BQ : Type}.

Lemma wf_store_empty : wf_store ∅.
Proof. intros id doc Hdoc. now rewrite lookup_empty in Hdoc. Qed.

Lemma wf_store_insert m doc :
  wf_store m → wf_store (<[Job.jobId doc := doc]> m).
Proof.
  intros Hwf id doc' Hdoc'.
  destruct (decide (Job.jobId doc = id)) as [<-|Hne].
  - rewrite lookup_insert_eq in Hdoc'. congruence.
  - rewrite lookup_insert_ne in Hdoc' by assumption. now apply Hwf.
Qed.

(** What [JobModel.find(filter)] returns from a well-formed store. *)
Lemma elem_of_found (P : Job.t → bool) (m : gmap string Job.t) job :
  wf_store m →
  job ∈ List.filter P (map_to_list m).*2
  ↔ m !! Job.jobId job = Some job ∧ P job = true.
Proof.
  intros Hwf. rewrite list_elem_of_In, filter_In, <- list_elem_of_In.
  rewrite list_elem_of_fmap. split.
  - intros [([k doc] & -> & Hin) HP]. split; [|exact HP].
    apply elem_of_map_to_list in Hin. cbn [snd].
    now rewrite (Hwf _ _ Hin).
  - intros [Hdoc HP]. split; [|exact HP].
    exists (Job.jobId job, job). split; [reflexivity|].
    now apply elem_of_map_to_list.
Qed.

Lemma NoDup_fmap_filter {A B : Type} (g : A → B) (P : A → bool) (l : list A) :
  NoDup (g <$> l) → NoDup (g <$> List.filter P l).
Proof.
  induction l as [|x l IH]; [trivial|].
  cbn [fmap list_fmap List.filter]. rewrite NoDup_cons. intros [Hx Hl].
  destruct (P x); [|now apply IH].
  cbn [fmap list_fmap]. apply NoDup_cons. split; [|now apply IH].
  intros Hin. apply Hx. apply list_elem_of_fmap in Hin as (y & -> & Hy).
  apply list_elem_of_fmap. exists y. split; [reflexivity|].
  apply list_elem_of_In. apply list_elem_of_In in Hy.
  now apply filter_In in Hy as [Hy _].
Qed.

Lemma NoDup_found (P : Job.t → bool) (m : gmap string Job.t) :
  wf_store m → NoDup (Job.jobId <$> List.filter P (map_to_list m).*2).
Proof.
  intros Hwf. apply NoDup_fmap_filter.
  assert (Hkeys : Job.jobId <$> (map_to_list m).*2 = (map_to_list m).*1).
  { rewrite <- list_fmap_compose. apply Forall_fmap_ext, Forall_forall.
    intros [k doc] Hin. apply elem_of_map_to_list in Hin. cbn.
    now apply Hwf. }
  rewrite Hkeys. apply NoDup_fst_map_to_list.
Qed.

(** [for (const job of jobs) { ...; await job.save() }] where the writes to
    each document are [f]. *)
Definition saveAll (f : Job.t → Job.t) (jobs : list Job.t)
    (m : gmap string Job.t) : gmap string Job.t :=
  foldl (λ m job, <[Job.jobId (f job) := f job]> m) m jobs.

Lemma forEach_save (f : Job.t → Job.t) jobs (s : System BQ) :
  mongoUp s = true →
  forEach jobs (λ job, JobModel_save (f job)) s
  = (set_jobModel (saveAll f jobs) s, Ok tt).
Proof.
  revert s. induction jobs as [|job jobs IH]; intros s Hup.
  - destruct s; reflexivity.
  - cbn [forEach]. unfold bind, JobModel_save at 1. rewrite Hup.
    rewrite IH by exact Hup. reflexivity.
Qed.

Lemma saveAll_other f jobs m id :
  (∀ job, job ∈ jobs → Job.jobId (f job) ≠ id) →
  saveAll f jobs m !! id = m !! id.
Proof.
  revert m. induction jobs as [|job jobs IH]; intros m Hne; [reflexivity|].
  cbn [saveAll foldl]. fold (saveAll f jobs (<[Job.jobId (f job) := f job]> m)).
  rewrite IH.
  - apply lookup_insert_ne. apply Hne. constructor.
  - intros job' Hin. apply Hne. now constructor.
Qed.

Lemma saveAll_saved f jobs m job :
  (∀ job, Job.jobId (f job) = Job.jobId job) →
  NoDup (Job.jobId <$> jobs) →
  job ∈ jobs →
  saveAll f jobs m !! Job.jobId job = Some (f job).
Proof.
  intros Hid. revert m. induction jobs as [|job0 jobs IH]; intros m Hnd Hin.
  - inversion Hin.
  - cbn [fmap list_fmap] in Hnd. apply NoDup_cons in Hnd as [Hfresh Hnd].
    cbn [saveAll foldl]. fold (saveAll f jobs (<[Job.jobId (f job0) := f job0]> m)).
    apply elem_of_cons in Hin as [->|Hin]; [|now apply IH].
    rewrite saveAll_other.
    + rewrite Hid. apply lookup_insert_eq.
    + intros job' Hin' Heq. apply Hfresh. rewrite Hid in Heq.
      apply list_elem_of_fmap. now exists job'.
Qed.
End StoreLoops.

(** ** Stall sweep *)

Lemma sweepStalled_jobId now job : Job.jobId (sweepStalled now job) = Job.jobId job.
Proof. unfold sweepStalled. now destruct (Job.maxAttempts job <=? Job.attempts job). Qed.

(** The state [processStalledJobs] leaves when the store is reachable. *)
Lemma processStalledJobs_unfold {BQ : Type} `{Bull BQ} now (s : System BQ) :
  mongoUp s = true →
  processStalledJobs now s
  = (set_jobModel
       (saveAll (sweepStalled now)
          (List.filter (stalledFilter now) (map_to_list (jobModel s)).*2)) s,
     Ok tt).
Proof.
  intros Hup. unfold processStalledJobs, catch, bind, JobModel_find.
  rewrite Hup. now rewrite forEach_save.
Qed.

(** C3, as stated, fails: the sweep resets a stalled job with attempts left
    to [waiting], but no queue holds the job before the sweep and none holds
    it after; the sweep enqueues nothing, and the worker of the job's queue
    finds nothing to take. *)
Lemma processStalledJobs_does_not_enqueue :
  let s' := (processStalledJobs oneHour stalledBacklog).1 in
  Job.status <$> jobModel stalledBacklog !! "s1" = Some stalled
  ∧ Job.status <$> jobModel s' !! "s1" = Some waiting
  ∧ getJob_in (queues stalledBacklog) "s1" = Ok None
  ∧ getJob_in (queues s') "s1" = Ok None
  ∧ queues s' = queues stalledBacklog
  ∧ (workerTurn (oneHour + 1) "cleanup" s').2 = Ok None.
Proof. vm_compute. repeat split. Qed.

(** C3, amended. On a sweep over a reachable, well-formed store, every job
    that is stalled for more than thirty minutes is rewritten: with
    [attempts < maxAttempts] its status becomes [waiting] and its attempts
    grow by one; otherwise its status becomes [failed], [failedAt] is the
    time of the sweep and the error is the stall message. Every other job
    is left as it is, and so are the queues: the sweep enqueues nothing. *)
Theorem processStalledJobs_effect {BQ : Type} `{Bull BQ} now (s : System BQ) :
  let s' := (processStalledJobs now s).1 in
  mongoUp s = true →
  wf_store (jobModel s) →
  queues s' = queues s
  ∧ queueModel s' = queueModel s
  ∧ ∀ id job, jobModel s !! id = Some job →
      (stalledFilter now job = false → jobModel s' !! id = Some job)
      ∧ (stalledFilter now job = true →
           ∃ job', jobModel s' !! id = Some job'
             ∧ (Job.attempts job < Job.maxAttempts job →
                  Job.status job' = waiting
                  ∧ Job.attempts job' = Job.attempts job + 1)
             ∧ (Job.maxAttempts job ≤ Job.attempts job →
                  Job.status job' = failed
                  ∧ Job.failedAt job' = Some now
                  ∧ Job.error job'
                    = Some "Job stalled and exceeded maximum retry attempts"
                  ∧ Job.attempts job' = Job.attempts job)).
Proof.
  intros s' Hup Hwf. subst s'. rewrite processStalledJobs_unfold by exact Hup.
  cbn [fst set_jobModel queues queueModel jobModel].
  split; [reflexivity|]. split; [reflexivity|].
  intros id job Hjob. pose proof (Hwf _ _ Hjob) as Hid. split.
  - intros Hnot. rewrite saveAll_other; [exact Hjob|].
    intros job' Hin Heq. rewrite sweepStalled_jobId in Heq.
    apply elem_of_found in Hin as [Hjob' Hsel]; [|exact Hwf].
    rewrite Heq, Hjob in Hjob'. injection Hjob' as <-. congruence.
  - intros Hsel. exists (sweepStalled now job). split.
    + rewrite <- Hid. apply saveAll_saved.
      * intros job0. apply sweepStalled_jobId.
      * now apply NoDup_found.
      * apply elem_of_found; [exact Hwf|]. now rewrite Hid.
    + unfold sweepStalled. split.
      * intros Hlt. apply Z.leb_gt in Hlt. rewrite Hlt. split; reflexivity.
      * intros Hge. apply Z.leb_le in Hge. rewrite Hge. repeat split.
Qed.

(** The stalled job with one of three attempts made goes back to [waiting]
    with two attempts; the one with three of three fails. *)
Lemma processStalledJobs_effect_witness :
  let s' := (processStalledJobs oneHour stalledBacklog).1 in
  (∃ job', jobModel s' !! "s1" = Some job'
           ∧ Job.status job' = waiting ∧ Job.attempts job' = 2)
  ∧ (∃ job', jobModel s' !! "s3" = Some job'
             ∧ Job.status job' = failed ∧ Job.failedAt job' = Some oneHour).
Proof.
  destruct (processStalledJobs_effect oneHour stalledBacklog) as (_ & _ & Hjobs).
  - reflexivity.
  - intros id doc. unfold stalledBacklog, withJobs. cbn [jobModel set_jobModel].
    cbn [map list_to_map foldr]. intros Hdoc.
    destruct (decide (id = "s1")) as [->|Hn1].
    { vm_compute in Hdoc. now injection Hdoc as <-. }
    destruct (decide (id = "s3")) as [->|Hn3].
    { vm_compute in Hdoc. now injection Hdoc as <-. }
    cbn [fst snd stalledJob Job.jobId] in Hdoc.
    rewrite !lookup_insert_ne, lookup_empty in Hdoc by congruence. discriminate.
  - split.
    + destruct (Hjobs "s1" (stalledJob "s1" 1)) as [_ Hsel]; [reflexivity|].
      destruct Hsel as (job' & Hjob' & Hretry & _); [reflexivity|].
      exists job'. split; [exact Hjob'|]. apply Hretry. reflexivity.
    + destruct (Hjobs "s3" (stalledJob "s3" 3)) as [_ Hsel]; [reflexivity|].
      destruct Hsel as (job' & Hjob' & _ & Hfail); [reflexivity|].
      exists job'. split; [exact Hjob'|].
      destruct Hfail as (Hst & Hat & _); [discriminate|]. now split.
Defined.

(** ** Cancellation *)

Section CancelFacts.
Context {BQ : Type} `{Bull BQ}.

Lemma loadJob_found h jobId (s : System BQ) jobDoc :
  truthyS (x_user_id h) = true →
  mongoUp s = true →
  jobModel s !! jobId = Some jobDoc →
  x_user_role h = Some "admin" ∨ Job.userId jobDoc = x_user_id h →
  loadJob h jobId s = (s, Ok jobDoc).
Proof.
  intros Huser Hup Hdoc Hperm.
  unfold loadJob, requireUser. rewrite Huser. cbn [negb when].
  unfold bind at 1. cbn [ret]. unfold bind at 1. unfold JobModel_findOne.
  rewrite Hup, Hdoc.
  assert (Hallowed : notAdmin h && notOwner h jobDoc = false).
  { unfold notAdmin, notOwner. destruct Hperm as [Hadmin|Howner].
    - now rewrite (bool_decide_eq_true_2 _ Hadmin).
    - rewrite (bool_decide_eq_true_2 _ Howner). apply andb_false_r. }
  rewrite Hallowed. reflexivity.
Qed.

(** What removing the live Bull job does to the state. *)
Lemma removeBullJob_state jobId (s : System BQ) :
  let out := removeBullJob jobId s in
  mongoUp out.1 = mongoUp s
  ∧ jobModel out.1 = jobModel s
  ∧ queueModel out.1 = queueModel s
  ∧ (∀ e, out.2 = Err e → out.1 = s)
  ∧ (getJob_in (queues s) jobId = Ok None → out = (s, Ok tt))
  ∧ (∀ name q, getJob_in (queues s) jobId = Ok (Some name) →
               queues_get s name = Some q →
               out = match q_remove q jobId with
                     | Some q' => (queues_put name q' s, Ok tt)
                     | None => (s, Err BullRejected)
                     end).
Proof.
  unfold removeBullJob, bind, getJob.
  destruct (getJob_in (queues s) jobId) as [[name|]|e] eqn:Hget; cbn [fst snd].
  - unfold bullJob_remove.
    destruct (queues_get s name) as [q|] eqn:Hq.
    + destruct (q_remove q jobId) as [q'|] eqn:Hrm; cbn [fst snd];
        repeat split; try congruence.
      * intros name0 q0 [= <-] Hq0. rewrite Hq in Hq0.
        injection Hq0 as <-. now rewrite Hrm.
      * intros name0 q0 [= <-] Hq0. rewrite Hq in Hq0.
        injection Hq0 as <-. now rewrite Hrm.
    + cbn [fst snd]. repeat split; congruence.
  - repeat split; congruence.
  - repeat split; congruence.
Qed.

(** The writes of both cancel paths. *)
Lemma markCancelled_fields now message jobDoc :
  let doc := markCancelled now message jobDoc in
  Job.status doc = failed
  ∧ Job.error doc = Some message
  ∧ Job.failedAt doc = Some now
  ∧ Job.jobId doc = Job.jobId jobDoc
  ∧ Job.attempts doc = Job.attempts jobDoc.
Proof. repeat split. Qed.
End CancelFacts.

(** C2, as stated, fails, twice. The active job ["a1"], which no queue
    holds, is cancelled by its owner: the call succeeds and the record
    becomes [failed]. The waiting job ["w1"] is removed from its queue and
    its error is ['Cancelled by user'], not ['cancelled']. *)
Lemma cancelJob_cancels_active :
  let a := cancelJob 5000 (userHeaders "u1") "a1" cancelScene in
  let w := cancelJob 5000 (userHeaders "u1") "w1" cancelScene in
  Job.status <$> jobModel cancelScene !! "a1" = Some active
  ∧ a.2 = Ok tt
  ∧ Job.status <$> jobModel a.1 !! "a1" = Some failed
  ∧ Job.status <$> jobModel cancelScene !! "w1" = Some waiting
  ∧ w.2 = Ok tt
  ∧ getJob_in (queues w.1) "w1" = Ok None
  ∧ (jobModel w.1 !! "w1" ≫= Job.error) = Some "Cancelled by user".
Proof. vm_compute. repeat split. Qed.

(** C2, amended. For a reachable store and a caller allowed to touch the
    job: a completed or failed job is refused ([JOB_NOT_CANCELLABLE]; the
    bulk path reports [skipped]) and nothing changes. Every other job,
    whether waiting, active or stalled, is treated alike, by what Bull
    holds. If [getJob] finds the job in no queue, only the record is
    written. If it finds the job in a queue, the job is removed from that
    queue, which becomes what Bull's [remove] leaves, and then the record is
    written. The record written is the job's with status [failed],
    [failedAt] and the error ['Cancelled by user'] (['Bulk cancelled by
    user'] on the bulk path). If Bull rejects the removal or the lookup, the
    error is returned (reported per job on the bulk path) and nothing
    changes. *)
Theorem cancelJob_outcomes {BQ : Type} `{Bull BQ}
    now h jobId (s : System BQ) jobDoc :
  let out := cancelJob now h jobId s in
  let one := bulkCancelOne now jobDoc s in
  let cancelled := markCancelled now "Cancelled by user" jobDoc in
  let bulkCancelled := markCancelled now "Bulk cancelled by user" jobDoc in
  truthyS (x_user_id h) = true →
  mongoUp s = true →
  jobModel s !! jobId = Some jobDoc →
  Job.jobId jobDoc = jobId →
  x_user_role h = Some "admin" ∨ Job.userId jobDoc = x_user_id h →
  (Job.status jobDoc = completed ∨ Job.status jobDoc = failed →
     out = (s, Err (AppError "Cannot cancel completed or failed job" 400
                      "JOB_NOT_CANCELLABLE"))
     ∧ one = (s, Ok bulk_skipped))
  ∧ (Job.status jobDoc ≠ completed → Job.status jobDoc ≠ failed →
       (getJob_in (queues s) jobId = Ok None →
          out = (set_jobModel <[jobId := cancelled]> s, Ok tt)
          ∧ one = (set_jobModel <[jobId := bulkCancelled]> s, Ok bulk_cancelled))
       ∧ (∀ name q q',
            getJob_in (queues s) jobId = Ok (Some name) →
            queues_get s name = Some q →
            q_remove q jobId = Some q' →
            out = (set_jobModel <[jobId := cancelled]> (queues_put name q' s), Ok tt)
            ∧ one = (set_jobModel <[jobId := bulkCancelled]> (queues_put name q' s),
                     Ok bulk_cancelled)
            ∧ queues_get out.1 name = Some q'
            ∧ queues_get one.1 name = Some q')
       ∧ (∀ name q,
            getJob_in (queues s) jobId = Ok (Some name) →
            queues_get s name = Some q →
            q_remove q jobId = None →
            out = (s, Err BullRejected) ∧ one = (s, Ok (bulk_error BullRejected)))
       ∧ (∀ e, getJob_in (queues s) jobId = Err e →
               out = (s, Err e) ∧ one = (s, Ok (bulk_error e))))
  ∧ (Job.status cancelled = failed
     ∧ Job.error cancelled = Some "Cancelled by user"
     ∧ Job.failedAt cancelled = Some now
     ∧ Job.status bulkCancelled = failed
     ∧ Job.error bulkCancelled = Some "Bulk cancelled by user"
     ∧ Job.failedAt bulkCancelled = Some now).
Proof.
  intros out one cancelled bulkCancelled Huser Hup Hdoc Hid Hperm.
  assert (Hout : out = (when (terminal (Job.status jobDoc))
                          (throw (AppError "Cannot cancel completed or failed job"
                                    400 "JOB_NOT_CANCELLABLE"))
                        >> removeBullJob jobId
                        >> JobModel_save cancelled) s).
  { subst out. unfold cancelJob. unfold bind at 1.
    now rewrite (loadJob_found h jobId s jobDoc). }
  split; [|split; [|repeat split]].
  - intros Hterm.
    assert (Ht : terminal (Job.status jobDoc) = true)
      by (destruct Hterm as [->| ->]; reflexivity).
    split.
    + rewrite Hout, Ht. reflexivity.
    + subst one. unfold bulkCancelOne. rewrite Ht. reflexivity.
  - intros Hnc Hnf.
    assert (Ht : terminal (Job.status jobDoc) = false)
      by (destruct (Job.status jobDoc); (reflexivity || congruence)).
    assert (Hrun : ∀ s1 r,
              removeBullJob jobId s = (s1, r) →
              mongoUp s1 = true →
              out = match r with
                    | Ok _ => (set_jobModel <[jobId := cancelled]> s1, Ok tt)
                    | Err e => (s1, Err e)
                    end
              ∧ one = match r with
                      | Ok _ => (set_jobModel <[jobId := bulkCancelled]> s1,
                                 Ok bulk_cancelled)
                      | Err e => (s1, Ok (bulk_error e))
                      end).
    { intros s1 r Hrem Hup1. split.
      - rewrite Hout, Ht. cbn [when]. unfold bind, ret. rewrite Hrem.
        destruct r as [[]|e]; [|reflexivity].
        unfold JobModel_save. rewrite Hup1.
        replace (Job.jobId cancelled) with jobId by exact (eq_sym Hid). reflexivity.
      - subst one. unfold bulkCancelOne. rewrite Ht, Hid. unfold bind, ret.
        rewrite Hrem. destruct r as [[]|e]; [|reflexivity].
        unfold JobModel_save. rewrite Hup1. fold bulkCancelled.
        replace (Job.jobId bulkCancelled) with jobId by exact (eq_sym Hid). reflexivity. }
    destruct (removeBullJob_state jobId s) as (_ & _ & _ & _ & Hnone & Hsome).
    split; [|split; [|split]].
    + intros Hget. exact (Hrun s (Ok tt) (Hnone Hget) Hup).
    + intros name q q' Hget Hq Hrm.
      pose proof (Hsome name q Hget Hq) as Hrem. rewrite Hrm in Hrem.
      destruct (Hrun _ _ Hrem Hup) as [Ho Hb].
      split; [exact Ho|]. split; [exact Hb|].
      assert (Hput : queues_get (queues_put name q' s) name = Some q').
      { clear -Hq. unfold queues_get, queues_put in *. cbn [queues set_queues].
        induction (queues s) as [|[k v] qs IH]; [discriminate|].
        cbn [map List.find fst] in *.
        destruct (String.eqb_spec k name) as [->|Hne].
        - cbn [fst]. now rewrite String.eqb_refl.
        - cbn [fst]. destruct (String.eqb_spec k name); [congruence|]. now apply IH. }
      rewrite Ho, Hb. split; exact Hput.
    + intros name q Hget Hq Hrm.
      pose proof (Hsome name q Hget Hq) as Hrem. rewrite Hrm in Hrem.
      exact (Hrun _ _ Hrem Hup).
    + intros e Hget.
      assert (Hrem : removeBullJob jobId s = (s, Err e)).
      { unfold removeBullJob, bind, getJob. now rewrite Hget. }
      exact (Hrun _ _ Hrem Hup).
Qed.

(** The owner cancels the waiting job ["w1"], which the queue ['cleanup']
    holds: the job leaves the queue and the record is failed. *)
Lemma cancelJob_outcomes_witness :
  let out := cancelJob 5000 (userHeaders "u1") "w1" cancelScene in
  getJob_in (queues cancelScene) "w1" = Ok (Some "cleanup")
  ∧ out.2 = Ok tt
  ∧ queues_get out.1 "cleanup" = Some (mkListQueue true [])
  ∧ getJob_in (queues out.1) "w1" = Ok None
  ∧ jobModel out.1 !! "w1"
    = Some (markCancelled 5000 "Cancelled by user"
              (sampleJob "w1" "cleanup" "cleanup-expired-jobs" waiting 0 3 0)).
Proof.
  destruct (cancelJob_outcomes 5000 (userHeaders "u1") "w1" cancelScene
              (sampleJob "w1" "cleanup" "cleanup-expired-jobs" waiting 0 3 0))
    as (_ & Hlive & _).
  - reflexivity.
  - reflexivity.
  - vm_compute. reflexivity.
  - reflexivity.
  - right. reflexivity.
  - destruct Hlive as (_ & Hheld & _); [discriminate | discriminate |].
    destruct (Hheld "cleanup"
                (mkListQueue true [mkBullJob "w1" "cleanup-expired-jobs" b_waiting])
                (mkListQueue true []))
      as (Hout & _ & Hqueue & _).
    + vm_compute. reflexivity.
    + reflexivity.
    + reflexivity.
    + split; [vm_compute; reflexivity|]. rewrite Hout.
      split; [reflexivity|]. split; [vm_compute; reflexivity|].
      split; vm_compute; reflexivity.
Defined.

(** ** Retry *)

(** C4, as stated, fails on its last clause: after a successful retry the
    original record is exactly what it was, the store has gained the new
    record and nothing else, and neither record names the other. *)
Lemma retryJob_stores_no_link :
  let out := retryJob 5000 "job_2" (userHeaders "u1") "j1" retryScene in
  out.2 = Ok "job_2"
  ∧ jobModel out.1 !! "j1" = Some failedJob
  ∧ dom (jobModel out.1) = {[ "j1"; "job_2" ]}
  ∧ linked (jobModel out.1) "j1" "job_2" = false
  ∧ linked (jobModel out.1) "job_2" "j1" = false.
Proof.
  vm_compute. repeat split.
Qed.

(** C4, amended. For a reachable store and a caller allowed to touch the
    job, retry throws [JOB_NOT_RETRYABLE], writing nothing, unless the
    status is [failed]. For a failed job it is [addJob] on the record's
    queue, type and payload; when it returns a new id, that id was not in
    the store, the store gains under it one record in status [waiting] with
    the original's queue, type, payload, [maxAttempts] and priority, and the
    original record is unchanged: nothing is written to it, so no link to
    the new record is stored. It does return when the queue accepts the job
    under a free id. *)
Theorem retryJob_outcomes {BQ : Type} `{Bull BQ}
    now gen h jobId (s : System BQ) jobDoc :
  let out := retryJob now gen h jobId s in
  let options := Some (mkJobOptions (Some (Job.maxAttempts jobDoc)) None
                         (Some (Job.priority jobDoc)) None) in
  let newId := orS (p_id (Job.data jobDoc)) gen in
  truthyS (x_user_id h) = true →
  mongoUp s = true →
  jobModel s !! jobId = Some jobDoc →
  x_user_role h = Some "admin" ∨ Job.userId jobDoc = x_user_id h →
  addJob_shaped jobDoc →
  (Job.status jobDoc ≠ failed →
     out = (s, Err (AppError "Only failed jobs can be retried" 400
                      "JOB_NOT_RETRYABLE")))
  ∧ (Job.status jobDoc = failed →
       out = addJob now gen (Job.queue jobDoc) (Job.type jobDoc)
               (Job.data jobDoc) options s
       ∧ (∀ id, out.2 = Ok id →
            id = newId ∧ id ≠ jobId ∧ jobModel s !! id = None
            ∧ jobModel out.1 !! jobId = Some jobDoc
            ∧ ∃ doc, jobModel out.1 = <[id := doc]> (jobModel s)
                     ∧ Job.jobId doc = id
                     ∧ Job.queue doc = Job.queue jobDoc
                     ∧ Job.type doc = Job.type jobDoc
                     ∧ Job.data doc = Job.data jobDoc
                     ∧ Job.maxAttempts doc = Job.maxAttempts jobDoc
                     ∧ Job.priority doc = Job.priority jobDoc
                     ∧ Job.status doc = waiting
                     ∧ Job.attempts doc = 0)
       ∧ (∀ q q', queues_get s (Job.queue jobDoc) = Some q →
                  jobModel s !! newId = None →
                  q_add q (Job.type jobDoc)
                    (addJob_jobData now gen (Job.type jobDoc) (Job.data jobDoc) options)
                    (withJobId options newId) = Some q' →
                  out.2 = Ok newId)).
Proof.
  intros out options newId Huser Hup Hdoc Hperm (Hprio & Hmax & _).
  assert (Hout : out = (when (negb (bool_decide (Job.status jobDoc = failed)))
                          (throw (AppError "Only failed jobs can be retried" 400
                                    "JOB_NOT_RETRYABLE"))
                        >> addJob now gen (Job.queue jobDoc) (Job.type jobDoc)
                             (Job.data jobDoc) options) s).
  { subst out. unfold retryJob. unfold bind at 1.
    now rewrite (loadJob_found h jobId s jobDoc). }
  split.
  - intros Hst. rewrite Hout, (bool_decide_eq_false_2 _ Hst). reflexivity.
  - intros Hst.
    assert (Hadd : out = addJob now gen (Job.queue jobDoc) (Job.type jobDoc)
                           (Job.data jobDoc) options s).
    { rewrite Hout, (bool_decide_eq_true_2 _ Hst). reflexivity. }
    split; [exact Hadd|]. rewrite Hadd, addJob_unfold.
    cbn [jd_id addJob_jobData]. fold newId. rewrite Hup.
    split.
    + intros id.
      destruct (queues_get s (Job.queue jobDoc)) as [q|]; [|discriminate].
      destruct (jobModel s !! newId) eqn:Hfree; [discriminate|].
      destruct (q_add q _ _ _); [|discriminate].
      cbn [fst snd set_jobModel queues_put set_queues jobModel].
      intros [= <-].
      assert (Hne : newId ≠ jobId) by congruence.
      split; [reflexivity|]. split; [exact Hne|]. split; [exact Hfree|].
      split; [now rewrite lookup_insert_ne|].
      eexists. split; [reflexivity|]. cbn.
      repeat split.
      * unfold orZ. now destruct (Z.eqb_spec (Job.maxAttempts jobDoc) 0).
      * now rewrite Hprio.
    + intros q q' Hq Hfree Hadd'. now rewrite Hq, Hfree, Hadd'.
Qed.

(** User ["u1"] retries the failed job ["j1"]: the new job ["job_2"] has its
    three attempts and its priority 5, and ["j1"] is as it was. *)
Lemma retryJob_outcomes_witness :
  let out := retryJob 5000 "job_2" (userHeaders "u1") "j1" retryScene in
  jobModel out.1 !! "j1" = Some failedJob
  ∧ ∃ doc, jobModel out.1 = <["job_2" := doc]> (jobModel retryScene)
           ∧ Job.maxAttempts doc = 3 ∧ Job.priority doc = 5
           ∧ Job.status doc = waiting.
Proof.
  destruct (retryJob_outcomes 5000 "job_2" (userHeaders "u1") "j1" retryScene
              failedJob) as [_ Hfailed].
  - reflexivity.
  - reflexivity.
  - vm_compute. reflexivity.
  - right. reflexivity.
  - split; [reflexivity|]. split; [discriminate | reflexivity].
  - destruct Hfailed as (_ & Hnew & Hreturns); [reflexivity|].
    destruct (Hnew "job_2") as (_ & _ & _ & Horig & doc & Hstore & _ & _ & _ & _
                                & Hmax & Hprio & Hst & _).
    + apply (Hreturns (mkListQueue true [])
               (mkListQueue true [mkBullJob "job_2" "cleanup-expired-jobs" b_waiting]));
        vm_compute; reflexivity.
    + split; [exact Horig|]. exists doc. repeat split; assumption.
Defined.

(** X3. A job submitted under an [id] of its payload cannot be retried: the
    retry asks for the same [jobId] again and the unique index rejects it. *)
Lemma retryJob_own_id {BQ : Type} `{Bull BQ}
    now gen h jobId (s : System BQ) jobDoc :
  truthyS (x_user_id h) = true →
  mongoUp s = true →
  jobModel s !! jobId = Some jobDoc →
  Job.jobId jobDoc = jobId →
  x_user_role h = Some "admin" ∨ Job.userId jobDoc = x_user_id h →
  addJob_shaped jobDoc →
  Job.status jobDoc = failed →
  truthyS (p_id (Job.data jobDoc)) = true →
  is_Some (queues_get s (Job.queue jobDoc)) →
  retryJob now gen h jobId s = (s, Err (MongoDuplicateKey jobId)).
Proof.
  intros Huser Hup Hdoc Hid Hperm (_ & _ & Hown) Hst Hcustom [q Hq].
  unfold retryJob. unfold bind at 1.
  rewrite (loadJob_found h jobId s jobDoc) by assumption.
  rewrite (bool_decide_eq_true_2 _ Hst). cbn [negb when].
  unfold bind at 1. cbn [ret]. rewrite addJob_unfold, Hq, Hup.
  cbn [jd_id addJob_jobData].
  assert (Hnew : orS (p_id (Job.data jobDoc)) gen = jobId).
  { rewrite <- Hid. unfold orS, truthyS in *.
    destruct (p_id (Job.data jobDoc)) as [id|]; [|discriminate].
    destruct (String.eqb id ""); [discriminate|exact Hown]. }
  now rewrite Hnew, Hdoc.
Qed.

(** ** Pause and resume *)

Section PauseFacts.
Context {BQ : Type} `{Bull BQ}.

(** A worker's turn reads and writes the queues and the job store only. *)
Lemma workerTurn_ignores_queueModel now queueName f (s : System BQ) :
  workerTurn now queueName (set_queueModel f s)
  = (set_queueModel f (workerTurn now queueName s).1,
     (workerTurn now queueName s).2).
Proof.
  unfold workerTurn.
  change (queues_get (set_queueModel f s) queueName) with (queues_get s queueName).
  destruct (queues_get s queueName) as [q|]; [|reflexivity].
  destruct (q_next q) as [[jobId q']|]; [|reflexivity].
  unfold bind, catch, onJobActive, JobModel_findOneAndUpdate, ret.
  cbn [mongoUp queues_put set_queues set_queueModel].
  destruct (mongoUp s); reflexivity.
Qed.

Lemma setActive_unfold now h queueName v (s : System BQ) :
  x_user_role h = Some "admin" →
  queueName ∈ QUEUES →
  mongoUp s = true →
  (requireAdmin h >> requireQueue queueName
   >> QueueModel_upsert now queueName (QueueDoc.set_isActive v)) s
  = (set_queueModel
       (λ m, <[queueName := QueueDoc.set_isActive v
                              (default (QueueDoc.fresh queueName now) (m !! queueName))]> m)
       s, Ok tt).
Proof.
  intros Hadmin Hqueue Hup.
  unfold requireAdmin, requireQueue, notAdmin, includes.
  rewrite (bool_decide_eq_true_2 _ Hadmin), (bool_decide_eq_true_2 _ Hqueue).
  cbn [negb when]. unfold bind, ret, QueueModel_upsert. now rewrite Hup.
Qed.
End PauseFacts.

(** C1, as stated, fails: ['cleanup'] is paused, its descriptor says
    [isActive = false], and the next turn of its worker takes the waiting
    job ["w1"] and starts it. *)
Lemma workerTurn_on_paused_queue :
  let out := workerTurn 2000 "cleanup" pausedCleanup in
  QueueDoc.isActive <$> queueModel pausedCleanup !! "cleanup" = Some false
  ∧ Job.status <$> jobModel pausedCleanup !! "w1" = Some waiting
  ∧ out.2 = Ok (Some "w1")
  ∧ Job.status <$> jobModel out.1 !! "w1" = Some active
  ∧ (jobModel out.1 !! "w1" ≫= Job.startedAt) = Some 2000.
Proof. vm_compute. repeat split. Qed.

(** C1, amended. For an admin, a known queue and a reachable store, pause
    and resume succeed; pause writes [isActive = false] to the queue's
    descriptor and resume writes [true]; neither touches the queues or the
    jobs. The worker does not read
    the descriptor: its turn on the paused state takes the same job and
    makes the same writes as on the state before the pause. *)
Theorem pauseQueue_is_descriptor_only {BQ : Type} `{Bull BQ}
    now h queueName (s : System BQ) :
  let paused := (pauseQueue now h queueName s).1 in
  let resumed := (resumeQueue now h queueName s).1 in
  x_user_role h = Some "admin" →
  queueName ∈ QUEUES →
  mongoUp s = true →
  (pauseQueue now h queueName s).2 = Ok tt
  ∧ (resumeQueue now h queueName s).2 = Ok tt
  ∧ QueueDoc.isActive <$> queueModel paused !! queueName = Some false
  ∧ QueueDoc.isActive <$> queueModel resumed !! queueName = Some true
  ∧ queues paused = queues s ∧ jobModel paused = jobModel s
  ∧ queues resumed = queues s ∧ jobModel resumed = jobModel s
  ∧ ∀ t, (workerTurn t queueName paused).2 = (workerTurn t queueName s).2
         ∧ jobModel (workerTurn t queueName paused).1
           = jobModel (workerTurn t queueName s).1
         ∧ queues (workerTurn t queueName paused).1
           = queues (workerTurn t queueName s).1.
Proof.
  intros paused resumed Hadmin Hqueue Hup. subst paused resumed.
  unfold pauseQueue, resumeQueue.
  rewrite !setActive_unfold by assumption. cbn [fst snd].
  cbn [set_queueModel queueModel queues jobModel].
  rewrite !lookup_insert_eq.
  repeat (split; [reflexivity|]).
  intros t. rewrite workerTurn_ignores_queueModel. cbn [fst snd].
  repeat split.
Qed.

(** Pausing ['cleanup'] in [cancelScene] leaves its worker the job ["w1"]. *)
Lemma pauseQueue_is_descriptor_only_witness :
  QueueDoc.isActive <$> queueModel pausedCleanup !! "cleanup" = Some false
  ∧ (workerTurn 2000 "cleanup" pausedCleanup).2 = Ok (Some "w1").
Proof.
  destruct (pauseQueue_is_descriptor_only 1000 adminHeaders "cleanup" cancelScene)
    as (_ & _ & Hflag & _ & _ & _ & _ & _ & Hturn).
  - reflexivity.
  - apply (bool_decide_unpack _). vm_compute. exact I.
  - reflexivity.
  - split; [exact Hflag|].
    destruct (Hturn 2000) as (Hres & _ & _).
    unfold pausedCleanup. rewrite Hres. vm_compute. reflexivity.
Defined.

(** ** The invariant of the job store *)

Section Invariant.
Context {BQ : Type} `{Bull BQ}.

Lemma keeps_ret {A} (a : A) (R : A → Prop) : R a → keeps (BQ:=BQ) (ret a) R.
Proof. intros Ha s Hs. split; [exact Hs|]. now intros a' [= <-]. Qed.

Lemma keeps_throw {A} e (R : A → Prop) : keeps (BQ:=BQ) (throw e) R.
Proof. intros s Hs. split; [exact Hs|]. discriminate. Qed.

Lemma keeps_bind {A B} (m : M BQ A) (k : A → M BQ B) R1 R2 :
  keeps m R1 → (∀ a, R1 a → keeps (k a) R2) → keeps (bind m k) R2.
Proof.
  intros Hm Hk s Hs. unfold bind. destruct (Hm s Hs) as [Hs1 Hr].
  destruct (m s) as [s1 [a|e]]; cbn [fst snd] in *.
  - now apply (Hk a (Hr a eq_refl)).
  - split; [exact Hs1|]. discriminate.
Qed.

Lemma keeps_weaken {A} (m : M BQ A) (R1 R2 : A → Prop) :
  keeps m R1 → (∀ a, R1 a → R2 a) → keeps m R2.
Proof.
  intros Hm Himp s Hs. destruct (Hm s Hs) as [Hs1 Hr].
  split; [exact Hs1|]. intros a Ha. now apply Himp, Hr.
Qed.

Lemma keeps_when c (m : M BQ unit) :
  keeps m (λ _, True) → keeps (when c m) (λ _, True).
Proof. intros Hm. destruct c; [exact Hm|]. now apply keeps_ret. Qed.

Lemma keeps_catch {A} (m : M BQ A) R : keeps m R → keeps (catch m) (λ _, True).
Proof. intros Hm s Hs. split; [apply (Hm s Hs)|trivial]. Qed.

Lemma keeps_forEach {A} (xs : list A) (body : A → M BQ unit) :
  Forall (λ x, keeps (body x) (λ _, True)) xs →
  keeps (forEach xs body) (λ _, True).
Proof.
  induction 1 as [|x xs Hx Hxs IH]; [now apply keeps_ret|].
  cbn [forEach]. eapply keeps_bind; [exact Hx|]. intros _ _. exact IH.
Qed.

(** A handler that leaves the job store alone keeps its invariant. *)
Lemma keeps_frame {A} (m : M BQ A) :
  (∀ s, jobModel (m s).1 = jobModel s) → keeps m (λ _, True).
Proof. intros Hm s Hs. rewrite Hm. split; [exact Hs|trivial]. Qed.

Lemma store_ok_insert m doc :
  store_ok m → addJob_shaped doc → store_ok (<[Job.jobId doc := doc]> m).
Proof.
  intros Hm Hdoc id doc' Hdoc'.
  destruct (decide (Job.jobId doc = id)) as [<-|Hne].
  - rewrite lookup_insert_eq in Hdoc'. injection Hdoc' as <-. now split.
  - rewrite lookup_insert_ne in Hdoc' by assumption. now apply Hm.
Qed.

Lemma store_ok_wf m : store_ok m → wf_store m.
Proof. intros Hm id doc Hdoc. now apply Hm. Qed.

Lemma keeps_findOne jobId :
  keeps (BQ:=BQ) (JobModel_findOne jobId)
    (λ found, ∀ doc, found = Some doc → addJob_shaped doc).
Proof.
  intros s Hs. unfold JobModel_findOne.
  destruct (mongoUp s); (split; [exact Hs|]); [|discriminate].
  intros found [= <-] doc Hdoc. now apply (Hs _ _ Hdoc).
Qed.

Lemma keeps_find filter :
  keeps (BQ:=BQ) (JobModel_find filter) (Forall addJob_shaped).
Proof.
  intros s Hs. unfold JobModel_find.
  destruct (mongoUp s); (split; [exact Hs|]); [|discriminate].
  intros found [= <-]. apply Forall_forall. intros doc Hin.
  apply elem_of_found in Hin as [Hdoc _]; [|now apply store_ok_wf].
  now apply (Hs _ _ Hdoc).
Qed.

Lemma keeps_create doc :
  addJob_shaped doc → keeps (BQ:=BQ) (JobModel_create doc) (λ _, True).
Proof.
  intros Hdoc s Hs. unfold JobModel_create.
  destruct (mongoUp s); [|now split].
  destruct (jobModel s !! Job.jobId doc); [now split|].
  split; [|trivial]. now apply store_ok_insert.
Qed.

Lemma keeps_save doc :
  addJob_shaped doc → keeps (BQ:=BQ) (JobModel_save doc) (λ _, True).
Proof.
  intros Hdoc s Hs. unfold JobModel_save.
  destruct (mongoUp s); [|now split].
  split; [|trivial]. now apply store_ok_insert.
Qed.

Lemma keeps_findOneAndUpdate jobId update :
  (∀ doc, Job.jobId (update doc) = Job.jobId doc
          ∧ (addJob_shaped doc → addJob_shaped (update doc))) →
  keeps (BQ:=BQ) (JobModel_findOneAndUpdate jobId update) (λ _, True).
Proof.
  intros Hupd s Hs. unfold JobModel_findOneAndUpdate.
  destruct (mongoUp s); [|now split].
  split; [|trivial]. intros id doc. cbn [fst set_jobModel jobModel].
  destruct (decide (jobId = id)) as [<-|Hne].
  - rewrite lookup_alter_eq.
    destruct (jobModel s !! jobId) as [doc0|] eqn:Hdoc0; [|discriminate].
    intros [= <-]. destruct (Hupd doc0) as [Hid Hshape].
    destruct (Hs _ _ Hdoc0) as [Hid0 Hshape0].
    split; [congruence|now apply Hshape].
  - rewrite lookup_alter_ne by assumption. apply Hs.
Qed.

Lemma keeps_deleteMany filter :
  keeps (BQ:=BQ) (JobModel_deleteMany filter) (λ _, True).
Proof.
  intros s Hs. unfold JobModel_deleteMany.
  destruct (mongoUp s); [|now split].
  split; [|trivial]. intros id doc Hdoc. cbn [fst set_jobModel jobModel] in Hdoc.
  apply map_lookup_filter_Some in Hdoc as [Hdoc _]. now apply Hs.
Qed.
End Invariant.

Section HandlersKeep.
Context {BQ : Type} `{Bull BQ}.

Create HintDb keeps.
Local Hint Resolve keeps_ret keeps_throw keeps_when keeps_deleteMany : keeps.

Lemma markCancelled_shaped now message doc :
  addJob_shaped doc → addJob_shaped (markCancelled now message doc).
Proof. trivial. Qed.

Lemma sweepStalled_shaped now doc :
  addJob_shaped doc → addJob_shaped (sweepStalled now doc).
Proof. unfold sweepStalled. now destruct (Job.maxAttempts doc <=? Job.attempts doc). Qed.

Lemma addJob_jobDoc_shaped now gen queueName jobType data options :
  addJob_shaped (addJob_jobDoc now queueName
                   (addJob_jobData now gen jobType data options)).
Proof.
  split; [reflexivity|]. split.
  - cbn. unfold orZ.
    destruct (options ≫= o_attempts) as [n|]; [|discriminate].
    destruct (Z.eqb_spec n 0); [discriminate|assumption].
  - cbn. unfold orS. destruct (p_id data) as [id|]; [|reflexivity].
    destruct (String.eqb id ""); reflexivity.
Qed.

Lemma keeps_addJob now gen queueName jobType data options :
  keeps (BQ:=BQ) (addJob now gen queueName jobType data options) (λ _, True).
Proof.
  intros s Hs. split; [|trivial]. rewrite addJob_unfold.
  destruct (queues_get s queueName) as [q|]; [|exact Hs].
  destruct (mongoUp s); [|exact Hs].
  cbn [jd_id addJob_jobData].
  destruct (jobModel s !! _) eqn:Hfree; [exact Hs|].
  assert (Hnew : store_ok
            (<[orS (p_id data) gen :=
                 addJob_jobDoc now queueName
                   (addJob_jobData now gen jobType data options)]> (jobModel s))).
  { apply (store_ok_insert _ (addJob_jobDoc now queueName
                                (addJob_jobData now gen jobType data options)));
      [exact Hs | apply addJob_jobDoc_shaped]. }
  destruct (q_add q _ _ _); exact Hnew.
Qed.

Lemma keeps_requireUser h : keeps (BQ:=BQ) (requireUser h) (λ _, True).
Proof. unfold requireUser. auto with keeps. Qed.

Lemma keeps_requireAdmin h : keeps (BQ:=BQ) (requireAdmin h) (λ _, True).
Proof. unfold requireAdmin. auto with keeps. Qed.

Lemma keeps_requireQueue queueName :
  keeps (BQ:=BQ) (requireQueue queueName) (λ _, True).
Proof. unfold requireQueue. auto with keeps. Qed.

Lemma keeps_createJob now gen h body :
  keeps (BQ:=BQ) (createJob now gen h body) (λ _, True).
Proof.
  unfold createJob. eapply keeps_bind; [apply keeps_requireUser|]. intros _ _.
  destruct (b_data body) as [data|]; [|apply keeps_throw].
  destruct (truthyS (b_queue body) && truthyS (b_type body)); [|apply keeps_throw].
  eapply keeps_bind; [auto with keeps|]. intros _ _.
  eapply keeps_bind; [auto with keeps|]. intros _ _.
  apply keeps_addJob.
Qed.

Lemma keeps_loadJob h jobId :
  keeps (BQ:=BQ) (loadJob h jobId) addJob_shaped.
Proof.
  unfold loadJob. eapply keeps_bind; [apply keeps_requireUser|]. intros _ _.
  eapply keeps_bind; [apply keeps_findOne|]. intros [doc|] Hdoc; [|apply keeps_throw].
  eapply keeps_bind; [auto with keeps|]. intros _ _.
  apply keeps_ret. now apply Hdoc.
Qed.

Lemma keeps_removeBullJob jobId :
  keeps (BQ:=BQ) (removeBullJob jobId) (λ _, True).
Proof. apply keeps_frame. intros s. apply removeBullJob_state. Qed.

Lemma keeps_cancelJob now h jobId :
  keeps (BQ:=BQ) (cancelJob now h jobId) (λ _, True).
Proof.
  unfold cancelJob. eapply keeps_bind; [apply keeps_loadJob|]. intros doc Hdoc.
  eapply keeps_bind; [auto with keeps|]. intros _ _.
  eapply keeps_bind; [apply keeps_removeBullJob|]. intros _ _.
  apply keeps_save. now apply markCancelled_shaped.
Qed.

Lemma keeps_retryJob now gen h jobId :
  keeps (BQ:=BQ) (retryJob now gen h jobId) (λ _, True).
Proof.
  unfold retryJob. eapply keeps_bind; [apply keeps_loadJob|]. intros doc Hdoc.
  eapply keeps_bind; [auto with keeps|]. intros _ _.
  apply keeps_addJob.
Qed.

Lemma keeps_bulkCancelOne now job :
  addJob_shaped job → keeps (BQ:=BQ) (bulkCancelOne now job) (λ _, True).
Proof.
  intros Hjob s Hs. split; [|trivial]. unfold bulkCancelOne.
  assert (Hattempt : keeps (BQ:=BQ)
            (if terminal (Job.status job) then ret bulk_skipped
             else removeBullJob (Job.jobId job)
                  >> JobModel_save (markCancelled now "Bulk cancelled by user" job)
                  >> ret bulk_cancelled) (λ _, True)).
  { destruct (terminal (Job.status job)); [now apply keeps_ret|].
    eapply keeps_bind; [apply keeps_removeBullJob|]. intros _ _.
    eapply keeps_bind; [apply keeps_save; now apply markCancelled_shaped|].
    intros _ _. now apply keeps_ret. }
  destruct (Hattempt s Hs) as [Hs' _].
  match goal with |- context [match ?m s with _ => _ end] =>
    destruct (m s) as [s' [o|e]] end; exact Hs'.
Qed.

Lemma keeps_bulkCancelLoop now jobs :
  Forall addJob_shaped jobs →
  keeps (BQ:=BQ) (bulkCancelLoop now jobs) (λ _, True).
Proof.
  induction 1 as [|job jobs Hjob Hjobs IH]; [now apply keeps_ret|].
  cbn [bulkCancelLoop].
  eapply keeps_bind; [now apply keeps_bulkCancelOne|]. intros o _.
  eapply keeps_bind; [exact IH|]. intros rest _. now apply keeps_ret.
Qed.

Lemma keeps_bulkCancel now h jobIds :
  keeps (BQ:=BQ) (bulkCancel now h jobIds) (λ _, True).
Proof.
  unfold bulkCancel. eapply keeps_bind; [apply keeps_requireUser|]. intros _ _.
  destruct jobIds as [[|id ids]|]; try apply keeps_throw.
  eapply keeps_bind; [apply keeps_find|]. intros jobs Hjobs.
  now apply keeps_bulkCancelLoop.
Qed.

Lemma keeps_upsert now name update :
  keeps (BQ:=BQ) (QueueModel_upsert now name update) (λ _, True).
Proof.
  apply keeps_frame. intros s. unfold QueueModel_upsert.
  now destruct (mongoUp s).
Qed.

Lemma keeps_setActive now h queueName v :
  keeps (BQ:=BQ)
    (requireAdmin h >> requireQueue queueName
     >> QueueModel_upsert now queueName (QueueDoc.set_isActive v)) (λ _, True).
Proof.
  eapply keeps_bind; [apply keeps_requireAdmin|]. intros _ _.
  eapply keeps_bind; [apply keeps_requireQueue|]. intros _ _.
  apply keeps_upsert.
Qed.

Lemma keeps_cleanQueue now h queueName olderThan status :
  keeps (BQ:=BQ) (cleanQueue now h queueName olderThan status) (λ _, True).
Proof.
  unfold cleanQueue. eapply keeps_bind; [apply keeps_requireAdmin|]. intros _ _.
  eapply keeps_bind; [apply keeps_requireQueue|]. intros _ _.
  eapply keeps_weaken; [apply keeps_deleteMany|trivial].
Qed.

Lemma keeps_getQueueStats queueName :
  keeps (BQ:=BQ) (getQueueStats queueName) (λ _, True).
Proof.
  apply keeps_frame. intros s. unfold getQueueStats.
  destruct (truthyS queueName); destruct (stats_of s _); reflexivity.
Qed.

Lemma keeps_healthSummary h : keeps (BQ:=BQ) (healthSummary h) (λ _, True).
Proof.
  unfold healthSummary. eapply keeps_bind; [apply keeps_requireAdmin|]. intros _ _.
  eapply keeps_bind.
  { apply keeps_frame. intros s. unfold getSchedulerStats. now destruct (mongoUp s). }
  intros _ _. eapply keeps_bind; [apply keeps_getQueueStats|].
  intros [entries|stat] _; now apply keeps_ret.
Qed.

Lemma keeps_updateQueueStatistics now :
  keeps (BQ:=BQ) (updateQueueStatistics now) (λ _, True).
Proof.
  unfold updateQueueStatistics. eapply keeps_catch, keeps_forEach, Forall_forall.
  intros queueName _. unfold updateQueueStatisticsOne.
  eapply keeps_bind; [apply keeps_find|]. intros jobs _. apply keeps_upsert.
Qed.

Lemma keeps_processStalledJobs now :
  keeps (BQ:=BQ) (processStalledJobs now) (λ _, True).
Proof.
  unfold processStalledJobs. eapply keeps_catch, keeps_bind; [apply keeps_find|].
  intros jobs Hjobs. apply keeps_forEach.
  eapply Forall_impl; [exact Hjobs|]. intros job Hjob.
  apply keeps_save. now apply sweepStalled_shaped.
Qed.

Lemma keeps_listener jobId update :
  (∀ doc, Job.jobId (update doc) = Job.jobId doc
          ∧ Job.priority (update doc) = Job.priority doc
          ∧ Job.data (update doc) = Job.data doc
          ∧ Job.maxAttempts (update doc) = Job.maxAttempts doc) →
  keeps (BQ:=BQ) (JobModel_findOneAndUpdate jobId update) (λ _, True).
Proof.
  intros Hupd. apply keeps_findOneAndUpdate. intros doc.
  destruct (Hupd doc) as (Hid & Hprio & Hdata & Hmax).
  split; [exact Hid|]. unfold addJob_shaped. now rewrite Hprio, Hdata, Hmax, Hid.
Qed.

Lemma keeps_workerTurn now queueName :
  keeps (BQ:=BQ) (workerTurn now queueName) (λ _, True).
Proof.
  intros s Hs. split; [|trivial]. unfold workerTurn.
  destruct (queues_get s queueName) as [q|]; [|exact Hs].
  destruct (q_next q) as [[jobId q']|]; [|exact Hs].
  assert (Hturn : keeps (BQ:=BQ) (catch (onJobActive now jobId) >> ret (Some jobId))
                    (λ _, True)).
  { eapply keeps_bind; [|intros _ _; now apply keeps_ret].
    eapply keeps_catch. apply keeps_listener. now intros doc. }
  now apply (Hturn (queues_put queueName q' s)).
Qed.

Lemma keeps_runJob processor jobId startTime endTime reply mongoMessage :
  keeps (BQ:=BQ) (runJob processor jobId startTime endTime reply mongoMessage)
    (λ _, True).
Proof.
  unfold runJob, processJob. eapply keeps_bind with (R1 := λ _, True).
  - eapply keeps_bind with (R1 := λ _, True); [|intros; now apply keeps_ret].
    destruct processor; try now apply keeps_ret.
    eapply keeps_bind with (R1 := λ _, True); [|intros; now apply keeps_ret].
    intros s Hs. split; [|trivial]. unfold processCleanupExpiredJobs.
    pose proof (keeps_deleteMany (BQ:=BQ) (expiredFilter (startTime - sevenDays)) s Hs)
      as [Hkeep _].
    now destruct (JobModel_deleteMany _ s) as [s' [n|e]].
  - intros result _. eapply keeps_catch. apply keeps_listener. now intros doc.
Qed.

Lemma keeps_archiveOldJobs now : keeps (BQ:=BQ) (archiveOldJobs now) (λ _, True).
Proof. unfold archiveOldJobs. eapply keeps_catch. apply keeps_deleteMany. Qed.

Lemma keeps_scheduleDelayed now gen h body :
  keeps (BQ:=BQ) (scheduleDelayed now gen h body) (λ _, True).
Proof.
  unfold scheduleDelayed. eapply keeps_bind; [apply keeps_requireUser|]. intros _ _.
  destruct (d_data body) as [data|]; [|apply keeps_throw].
  destruct (d_delayMs body) as [delayMs|]; [|apply keeps_throw].
  destruct (truthyS (d_queue body) && truthyS (d_type body)); [|apply keeps_throw].
  eapply keeps_bind; [auto with keeps|]. intros _ _.
  eapply keeps_bind; [auto with keeps|]. intros _ _.
  eapply keeps_bind; [auto with keeps|]. intros _ _.
  unfold scheduleDelayedJob. eapply keeps_bind; [apply keeps_addJob|].
  intros _ _. now apply keeps_ret.
Qed.

Lemma keeps_triggerJob now gen h jobName data :
  keeps (BQ:=BQ) (triggerJob now gen h jobName data) (λ _, True).
Proof.
  unfold triggerJob. eapply keeps_bind; [auto with keeps|]. intros _ _.
  destruct (systemJobs jobName) as [[queue type|]|];
    [apply keeps_addJob|apply keeps_throw|apply keeps_throw].
Qed.

Lemma keeps_fire now gen sch i : keeps (BQ:=BQ) (fire now gen sch i) (λ _, True).
Proof.
  unfold fire. destruct (cronJobs sch !! i) as [c|]; [|now apply keeps_ret].
  destruct (cron_running c); [|now apply keeps_ret].
  unfold runTask. destruct (cron_task c).
  - eapply keeps_catch, keeps_bind with (R2 := λ _, True); [apply keeps_addJob|].
    intros _ _. now apply keeps_ret.
  - eapply keeps_catch. apply keeps_frame. intros s.
    now rewrite performHealthChecks_writes_nothing.
  - eapply keeps_catch. apply keeps_updateQueueStatistics.
  - eapply keeps_catch. apply keeps_processStalledJobs.
  - eapply keeps_catch. apply keeps_archiveOldJobs.
Qed.

(** Every call keeps the invariant of the job store. *)
Lemma step_store_ok (s s' : System BQ) :
  step s s' → store_ok (jobModel s) → store_ok (jobModel s').
Proof.
  intros Hstep Hs. destruct Hstep.
  - now apply keeps_addJob.
  - now apply keeps_createJob.
  - now apply keeps_cancelJob.
  - now apply keeps_retryJob.
  - now apply keeps_bulkCancel.
  - now apply keeps_setActive.
  - now apply keeps_setActive.
  - now apply keeps_cleanQueue.
  - now apply keeps_healthSummary.
  - now rewrite performHealthChecks_writes_nothing.
  - now apply keeps_updateQueueStatistics.
  - now apply keeps_processStalledJobs.
  - now apply keeps_workerTurn.
  - eapply keeps_listener; [|exact Hs]. now intros doc.
  - eapply keeps_listener; [|exact Hs]. now intros doc.
  - eapply keeps_listener; [|exact Hs]. now intros doc.
  - intros id doc Hdoc. cbn [JobModel_ttl fst set_jobModel jobModel] in Hdoc.
    apply map_lookup_filter_Some in Hdoc as [Hdoc _]. now apply Hs.
  - exact Hs.
  - exact Hs.
  - now apply keeps_runJob.
  - now apply keeps_archiveOldJobs.
  - now apply keeps_scheduleDelayed.
  - now apply keeps_triggerJob.
  - now apply keeps_fire.
Qed.

(** X1. In every reachable state each document sits under its own [jobId],
    takes its priority from its payload and has a truthy [maxAttempts]. *)
Theorem store_invariant (s : System BQ) :
  reachable s → store_ok (jobModel s).
Proof.
  induction 1 as [s Hempty|s s' _ IH Hstep].
  - rewrite Hempty. intros id doc Hdoc. now rewrite lookup_empty in Hdoc.
  - exact (step_store_ok s s' Hstep IH).
Qed.
End HandlersKeep.

(** ** Bulk cancellation *)

Section BulkCancel.
Context {BQ : Type} `{Bull BQ}.

(** One turn of the loop: it returns an outcome, writes at most the job's
    own record, and leaves MongoDB reachable. *)
Lemma bulkCancelOne_spec now job (s : System BQ) :
  let out := bulkCancelOne now job s in
  mongoUp s = true →
  mongoUp out.1 = true
  ∧ (∀ id, id ≠ Job.jobId job → jobModel out.1 !! id = jobModel s !! id)
  ∧ ∃ o, out.2 = Ok o
         ∧ bulkOutcome now job (jobModel s !! Job.jobId job)
             (jobModel out.1 !! Job.jobId job) o.
Proof.
  intros out Hup. subst out. unfold bulkCancelOne.
  destruct (terminal (Job.status job)) eqn:Hterm.
  { cbn [ret fst snd]. split; [exact Hup|]. split; [reflexivity|].
    exists bulk_skipped. repeat split. exact Hterm. }
  destruct (removeBullJob_state (Job.jobId job) s) as (Hup' & Hjobs' & _ & Herr & _).
  unfold bind. destruct (removeBullJob (Job.jobId job) s) as [s1 [[]|e]];
    cbn [fst snd] in *.
  - unfold JobModel_save. rewrite Hup', Hup. cbn [fst snd ret set_jobModel mongoUp jobModel].
    split; [congruence|]. rewrite Hjobs'.
    change (Job.jobId (markCancelled now "Bulk cancelled by user" job))
      with (Job.jobId job).
    split.
    + intros id Hne. now rewrite lookup_insert_ne.
    + exists bulk_cancelled. split; [reflexivity|]. split; [exact Hterm|].
      apply lookup_insert_eq.
  - rewrite (Herr e eq_refl). split; [exact Hup|]. split; [reflexivity|].
    exists (bulk_error e). repeat split. exact Hterm.
Qed.

(** The loop over the jobs found: one entry per job, in order, each telling
    what happened to that job's record. *)
Lemma bulkCancelLoop_spec now jobs (s : System BQ) :
  let out := bulkCancelLoop now jobs s in
  mongoUp s = true →
  NoDup (Job.jobId <$> jobs) →
  mongoUp out.1 = true
  ∧ (∀ id, id ∉ Job.jobId <$> jobs → jobModel out.1 !! id = jobModel s !! id)
  ∧ ∃ results,
      out.2 = Ok results
      ∧ results.*1 = Job.jobId <$> jobs
      ∧ ∀ job, job ∈ jobs →
          ∃ o, (Job.jobId job, o) ∈ results
               ∧ bulkOutcome now job (jobModel s !! Job.jobId job)
                   (jobModel out.1 !! Job.jobId job) o.
Proof.
  revert s. induction jobs as [|job jobs IH]; intros s out Hup Hnd; subst out.
  { cbn [bulkCancelLoop ret fst snd]. split; [exact Hup|]. split; [reflexivity|].
    exists []. repeat split. intros job Hin. inversion Hin. }
  cbn [fmap list_fmap] in Hnd. apply NoDup_cons in Hnd as [Hfresh Hnd].
  cbn [bulkCancelLoop]. unfold bind.
  destruct (bulkCancelOne_spec now job s Hup) as (Hup1 & Hframe1 & o & Ho & Hout).
  destruct (bulkCancelOne now job s) as [s1 r1]; cbn [fst snd] in *. subst r1.
  destruct (IH s1 Hup1 Hnd) as (Hup2 & Hframe2 & results & Hres & Hids & Hall).
  destruct (bulkCancelLoop now jobs s1) as [s2 r2]; cbn [fst snd] in *.
  subst r2. cbn [ret fst snd].
  split; [exact Hup2|]. split.
  - intros id Hid. cbn [fmap list_fmap] in Hid.
    rewrite Hframe2.
    + apply Hframe1. intros ->. apply Hid. constructor.
    + intros Hin. apply Hid. now constructor.
  - exists ((Job.jobId job, o) :: results). split; [reflexivity|].
    split; [cbn; now rewrite Hids|].
    intros job' Hin. apply elem_of_cons in Hin as [->|Hin].
    + exists o. split; [constructor|]. now rewrite Hframe2.
    + destruct (Hall job' Hin) as (o' & Hin' & Hout').
      exists o'. split; [now constructor|].
      rewrite <- Hframe1; [exact Hout'|].
      intros Heq. apply Hfresh. rewrite <- Heq.
      apply list_elem_of_fmap. now exists job'.
Qed.

(** X2. [POST /jobs/bulk/cancel] on a reachable, well-formed store: the call
    returns, and every job among the ids that the caller may touch has an
    entry: [skipped] for a completed or failed job, whose record stays;
    [cancelled] for any other job, whose record is marked; or [error], with
    the record untouched. Every other record stays as it is. *)
Lemma bulkCancel_outcomes now h id ids (s : System BQ) :
  let out := bulkCancel now h (Some (id :: ids)) s in
  truthyS (x_user_id h) = true →
  mongoUp s = true →
  wf_store (jobModel s) →
  ∃ results,
    out.2 = Ok results
    ∧ (∀ id' doc, jobModel s !! id' = Some doc →
         id' ∈ id :: ids →
         x_user_role h = Some "admin" ∨ Job.userId doc = x_user_id h →
         ∃ o, (id', o) ∈ results
              ∧ bulkOutcome now doc (Some doc) (jobModel out.1 !! id') o)
    ∧ (∀ id', id' ∉ id :: ids → jobModel out.1 !! id' = jobModel s !! id').
Proof.
  intros out Huser Hup Hwf. subst out.
  set (filter := λ j : Job.t,
         bool_decide (Job.jobId j ∈ id :: ids)
         && (negb (notAdmin h) || negb (notOwner h j))).
  set (jobs := List.filter filter (map_to_list (jobModel s)).*2).
  assert (Hrun : bulkCancel now h (Some (id :: ids)) s = bulkCancelLoop now jobs s).
  { unfold bulkCancel, requireUser. rewrite Huser. cbn [negb when].
    unfold bind, ret, JobModel_find. now rewrite Hup. }
  rewrite Hrun.
  destruct (bulkCancelLoop_spec now jobs s Hup (NoDup_found filter _ Hwf))
    as (_ & Hframe & results & Hres & _ & Hall).
  exists results. split; [exact Hres|]. split.
  - intros id' doc Hdoc Hin Hperm. pose proof (Hwf _ _ Hdoc) as Hid.
    assert (Hfound : doc ∈ jobs).
    { apply elem_of_found; [exact Hwf|]. rewrite Hid. split; [exact Hdoc|].
      unfold filter. rewrite Hid, (bool_decide_eq_true_2 _ Hin). cbn [andb].
      unfold notAdmin, notOwner. destruct Hperm as [Hadmin|Howner].
      - now rewrite (bool_decide_eq_true_2 _ Hadmin).
      - rewrite (bool_decide_eq_true_2 _ Howner). apply orb_true_r. }
    destruct (Hall doc Hfound) as (o & Ho & Hout).
    rewrite Hid in Ho, Hout. rewrite Hdoc in Hout.
    exists o. split; [exact Ho | exact Hout].
  - intros id' Hnot. apply Hframe. intros Hin.
    apply list_elem_of_fmap in Hin as (doc & -> & Hdoc).
    apply elem_of_found in Hdoc as [_ Hsel]; [|exact Hwf].
    unfold filter in Hsel. apply andb_true_iff in Hsel as [Hsel _].
    apply bool_decide_eq_true_1 in Hsel. contradiction.
Qed.
End BulkCancel.

(** * Further properties *)

(** ** The stores of the examples *)

Lemma wf_store_withJobs {BQ : Type} jobs (s : System BQ) :
  wf_store (jobModel (withJobs jobs s)).
Proof.
  unfold withJobs. cbn [jobModel set_jobModel].
  induction jobs as [|j jobs IH]; cbn [map list_to_map foldr].
  - apply wf_store_empty.
  - now apply (wf_store_insert _ j).
Qed.

(** ** Witnesses of the invariants above *)

Lemma store_invariant_witness :
  let s := (cancelJob 20 (userHeaders "u1") "job_10_a"
              (createJob 10 "job_10_a" (userHeaders "u1") crossQueueBody
                 initialSystem).1).1 in
  reachable s ∧ store_ok (jobModel s).
Proof.
  assert (Hr : reachable
                 (cancelJob 20 (userHeaders "u1") "job_10_a"
                    (createJob 10 "job_10_a" (userHeaders "u1") crossQueueBody
                       initialSystem).1).1).
  { eapply reachable_step; [|apply step_cancelJob].
    eapply reachable_step; [|apply step_createJob].
    apply reachable_start. reflexivity. }
  split; [exact Hr | exact (store_invariant _ Hr)].
Defined.

Lemma bulkCancel_outcomes_witness :
  ∃ results,
    (bulkCancel 5000 (userHeaders "u1") (Some ["w1"; "a1"; "zz"]) cancelScene).2
    = Ok results
    ∧ ∃ o, ("w1", o) ∈ results.
Proof.
  destruct (bulkCancel_outcomes 5000 (userHeaders "u1") "w1" ["a1"; "zz"] cancelScene)
    as (results & Hres & Hall & _).
  - reflexivity.
  - reflexivity.
  - apply wf_store_withJobs.
  - exists results. split; [exact Hres|].
    destruct (Hall "w1" (sampleJob "w1" "cleanup" "cleanup-expired-jobs" waiting 0 3 0))
      as (o & Ho & _).
    + vm_compute. reflexivity.
    + apply elem_of_cons. now left.
    + right. reflexivity.
    + exists o. exact Ho.
Defined.

Lemma retryJob_own_id_witness :
  let job := Job.mk "mine" "cleanup" "cleanup-expired-jobs"
               (mkPayload (Some "mine") (Some "u1") None []) (Some "u1") failed 0 3
               3 0 None (Some "boom") None 0 None None (Some 5) None in
  let s := withJobs [job] initialSystem in
  retryJob 100 "job_100_a" (userHeaders "u1") "mine" s
  = (s, Err (MongoDuplicateKey "mine")).
Proof.
  intros job s.
  apply (retryJob_own_id 100 "job_100_a" (userHeaders "u1") "mine" s job).
  - reflexivity.
  - reflexivity.
  - vm_compute. reflexivity.
  - reflexivity.
  - right. reflexivity.
  - vm_compute. repeat split; congruence.
  - reflexivity.
  - reflexivity.
  - vm_compute. eexists. reflexivity.
Defined.

(** ** The statistics the refresh stores *)

Section StoredStatistics.
Context {BQ : Type} `{Bull BQ}.

(** One turn of the loop of [updateQueueStatistics] on a reachable store: it
    returns, leaves the jobs alone, and writes into the document of its
    queue, and into no other, what it computed from the recent jobs. *)
Lemma updateQueueStatisticsOne_stores now name (s : System BQ) :
  mongoUp s = true →
  let recent := List.filter (recentFilter now name) (map_to_list (jobModel s)).*2 in
  let out := updateQueueStatisticsOne now name s in
  out.2 = Ok tt
  ∧ mongoUp out.1 = true
  ∧ jobModel out.1 = jobModel s
  ∧ (∃ d, queueModel out.1 !! name = Some d
          ∧ QueueDoc.lastProcessedAt d = lastProcessedOf recent
          ∧ QueueDoc.processingRate d = processingRateOf recent)
  ∧ ∀ other, other ≠ name → queueModel out.1 !! other = queueModel s !! other.
Proof.
  intros Hup recent out. subst out.
  unfold updateQueueStatisticsOne, bind, JobModel_find, QueueModel_upsert.
  rewrite Hup. cbv beta. rewrite Hup.
  cbn [mongoUp jobModel set_queueModel queueModel fst snd].
  split; [reflexivity|]. split; [exact Hup|]. split; [reflexivity|]. split.
  - eexists. rewrite lookup_insert_eq. split; [reflexivity|]. split; reflexivity.
  - intros other Hne. now rewrite lookup_insert_ne by congruence.
Qed.

(** The whole loop, over any list of queue names. *)
Lemma updateQueueStatistics_loop now names (s : System BQ) :
  mongoUp s = true →
  let out := forEach names (updateQueueStatisticsOne now) s in
  mongoUp out.1 = true
  ∧ jobModel out.1 = jobModel s
  ∧ (∀ name, name ∈ names →
       ∃ d, queueModel out.1 !! name = Some d
            ∧ QueueDoc.lastProcessedAt d
              = lastProcessedOf (List.filter (recentFilter now name)
                                   (map_to_list (jobModel s)).*2)
            ∧ QueueDoc.processingRate d
              = processingRateOf (List.filter (recentFilter now name)
                                    (map_to_list (jobModel s)).*2))
  ∧ ∀ name, name ∉ names → queueModel out.1 !! name = queueModel s !! name.
Proof.
  revert s. induction names as [|name0 names IH]; intros s Hup out; subst out.
  - cbn [forEach ret fst]. repeat split; try assumption. intros name Hin. inversion Hin.
  - cbn [forEach]. unfold bind.
    destruct (updateQueueStatisticsOne_stores now name0 s Hup)
      as (Hres & Hup1 & Hjobs1 & Hdoc1 & Hframe1).
    destruct (updateQueueStatisticsOne now name0 s) as [s1 r1]. cbn [fst snd] in *.
    subst r1.
    destruct (IH s1 Hup1) as (Hup2 & Hjobs2 & Hdocs2 & Hframe2).
    rewrite Hjobs1 in Hdocs2.
    split; [exact Hup2|]. split; [congruence|]. split.
    + intros name Hin.
      destruct (decide (name ∈ names)) as [Hrest|Hrest]; [now apply Hdocs2|].
      apply elem_of_cons in Hin as [->|Hin]; [|contradiction].
      rewrite (Hframe2 _ Hrest). exact Hdoc1.
    + intros name Hnot. apply not_elem_of_cons in Hnot as [Hne Hnot].
      rewrite (Hframe2 _ Hnot). now apply Hframe1.
Qed.

(** X4. After [updateQueueStatistics] on a reachable store, the document of
    a queue that has jobs completed within the last hour holds, as
    [lastProcessedAt], the completion time of one of those jobs, and none of
    them completed later. *)
Theorem updateQueueStatistics_lastProcessedAt now queueName (s : System BQ) :
  mongoUp s = true →
  queueName ∈ QUEUES →
  let recent :=
    List.filter (recentFilter now queueName) (map_to_list (jobModel s)).*2 in
  recent ≠ [] →
  ∃ d t,
    queueModel (updateQueueStatistics now s).1 !! queueName = Some d
    ∧ QueueDoc.lastProcessedAt d = Some t
    ∧ (∃ job, job ∈ recent ∧ Job.completedAt job = Some t)
    ∧ ∀ job t', job ∈ recent → Job.completedAt job = Some t' → t' ≤ t.
Proof.
  intros Hup Hqueue recent Hsome.
  destruct (updateQueueStatistics_loop now QUEUES s Hup) as (_ & _ & Hdocs & _).
  destruct (Hdocs queueName Hqueue) as (d & Hd & Hlast & _). fold recent in Hlast.
  destruct (lastProcessedOf_latest (BQ:=BQ) now queueName recent Hsome)
    as (t & Ht & Hfrom & Hmax).
  { apply Forall_forall. intros job Hjob.
    apply list_elem_of_In, filter_In in Hjob as [_ Hrecent]. exact Hrecent. }
  exists d, t. split; [exact Hd|]. split; [congruence|]. split; assumption.
Qed.
End StoredStatistics.

Lemma updateQueueStatistics_lastProcessedAt_witness :
  ∃ d, queueModel (updateQueueStatistics oneHour sixtyCompleted).1 !! "cleanup" = Some d
       ∧ QueueDoc.lastProcessedAt d = Some (59 * 60000 + 1000).
Proof.
  destruct (updateQueueStatistics_lastProcessedAt oneHour "cleanup" sixtyCompleted)
    as (d & t & Hd & Hlast & _ & _).
  - reflexivity.
  - apply (bool_decide_unpack _). vm_compute. exact I.
  - vm_compute. discriminate.
  - exists d. split; [exact Hd|].
    pose proof Hd as Hc. vm_compute in Hc. injection Hc as <-. reflexivity.
Defined.

(** ** The stored health of the queues *)

Section StoredHealth.
Context {BQ : Type} `{Bull BQ}.

Lemma qkeeps_ret {A} (a : A) : qkeeps (BQ:=BQ) (ret a).
Proof. intros s Hs. exact Hs. Qed.

Lemma qkeeps_throw {A} e : qkeeps (BQ:=BQ) (throw (A:=A) e).
Proof. intros s Hs. exact Hs. Qed.

Lemma qkeeps_bind {A B} (m : M BQ A) (k : A → M BQ B) :
  qkeeps m → (∀ a, qkeeps (k a)) → qkeeps (bind m k).
Proof.
  intros Hm Hk s Hs. unfold bind. pose proof (Hm s Hs) as Hs'.
  destruct (m s) as [s' [a|e]]; [now apply Hk | exact Hs'].
Qed.

Lemma qkeeps_when c (m : M BQ unit) : qkeeps m → qkeeps (when c m).
Proof. intros Hm. destruct c; [exact Hm | apply qkeeps_ret]. Qed.

Lemma qkeeps_catch {A} (m : M BQ A) : qkeeps m → qkeeps (catch m).
Proof. intros Hm s Hs. exact (Hm s Hs). Qed.

Lemma qkeeps_forEach {A} (xs : list A) (body : A → M BQ unit) :
  (∀ x, qkeeps (body x)) → qkeeps (forEach xs body).
Proof.
  intros Hbody. induction xs as [|x xs IH]; [apply qkeeps_ret|].
  cbn [forEach]. apply qkeeps_bind; [apply Hbody | intros _; exact IH].
Qed.

Lemma qkeeps_frame {A} (m : M BQ A) :
  (∀ s, queueModel (m s).1 = queueModel s) → qkeeps m.
Proof. intros Hm s Hs. now rewrite Hm. Qed.

Lemma qkeeps_findOne jobId : qkeeps (BQ:=BQ) (JobModel_findOne jobId).
Proof. apply qkeeps_frame. intros s. unfold JobModel_findOne. now destruct (mongoUp s). Qed.

Lemma qkeeps_find filter : qkeeps (BQ:=BQ) (JobModel_find filter).
Proof. apply qkeeps_frame. intros s. unfold JobModel_find. now destruct (mongoUp s). Qed.

Lemma qkeeps_save doc : qkeeps (BQ:=BQ) (JobModel_save doc).
Proof. apply qkeeps_frame. intros s. unfold JobModel_save. now destruct (mongoUp s). Qed.

Lemma qkeeps_deleteMany filter : qkeeps (BQ:=BQ) (JobModel_deleteMany filter).
Proof. apply qkeeps_frame. intros s. unfold JobModel_deleteMany. now destruct (mongoUp s). Qed.

Lemma qkeeps_findOneAndUpdate jobId update :
  qkeeps (BQ:=BQ) (JobModel_findOneAndUpdate jobId update).
Proof.
  apply qkeeps_frame. intros s. unfold JobModel_findOneAndUpdate.
  now destruct (mongoUp s).
Qed.

Lemma qkeeps_addJob now gen queueName jobType data options :
  qkeeps (BQ:=BQ) (addJob now gen queueName jobType data options).
Proof.
  apply qkeeps_frame. intros s. rewrite addJob_unfold.
  destruct (queues_get s queueName) as [q|]; [|reflexivity].
  destruct (mongoUp s); [|reflexivity].
  destruct (jobModel s !! _); [reflexivity|].
  now destruct (q_add q _ _ _).
Qed.

Lemma qkeeps_getQueueStats queueName : qkeeps (BQ:=BQ) (getQueueStats queueName).
Proof.
  apply qkeeps_frame. intros s. unfold getQueueStats.
  destruct (truthyS queueName); destruct (stats_of s _); reflexivity.
Qed.

Lemma qkeeps_removeBullJob jobId : qkeeps (BQ:=BQ) (removeBullJob jobId).
Proof. apply qkeeps_frame. intros s. apply removeBullJob_state. Qed.

(** An upsert whose update leaves [healthStatus] alone. *)
Lemma qkeeps_upsert now name update :
  (∀ d, QueueDoc.healthStatus (update d) = QueueDoc.healthStatus d) →
  qkeeps (BQ:=BQ) (QueueModel_upsert now name update).
Proof.
  intros Hupd s Hs. unfold QueueModel_upsert.
  destruct (mongoUp s); [|exact Hs].
  cbn [fst queueModel set_queueModel]. intros name' d Hd.
  destruct (decide (name = name')) as [<-|Hne].
  - rewrite lookup_insert_eq in Hd. injection Hd as <-. rewrite Hupd.
    destruct (queueModel s !! name) as [d0|] eqn:Hd0; [|reflexivity].
    exact (Hs _ _ Hd0).
  - rewrite lookup_insert_ne in Hd by assumption. exact (Hs _ _ Hd).
Qed.

Create HintDb qkeeps.
Local Hint Resolve qkeeps_ret qkeeps_throw qkeeps_findOne qkeeps_find qkeeps_save
  qkeeps_deleteMany qkeeps_findOneAndUpdate qkeeps_addJob qkeeps_getQueueStats
  qkeeps_removeBullJob : qkeeps.

(** Handlers built from the calls above with [bind], [when], [catch],
    [forEach] and case distinctions. *)
Ltac qkeeps_step :=
  first
    [ solve [auto with qkeeps]
    | match goal with
      | |- qkeeps (bind _ _) => apply qkeeps_bind; [|intros ?; cbv beta]
      | |- qkeeps (when _ _) => apply qkeeps_when
      | |- qkeeps (catch _) => apply qkeeps_catch
      | |- qkeeps (forEach _ _) => apply qkeeps_forEach; intros ?; cbv beta
      | |- qkeeps (match ?x with _ => _ end) => destruct x
      end ].
Ltac qkeeps_auto := repeat qkeeps_step.

Lemma qkeeps_loadJob h jobId : qkeeps (BQ:=BQ) (loadJob h jobId).
Proof. unfold loadJob, requireUser. qkeeps_auto. Qed.

Lemma qkeeps_createJob now gen h body : qkeeps (BQ:=BQ) (createJob now gen h body).
Proof. unfold createJob, requireUser. qkeeps_auto. Qed.

Lemma qkeeps_cancelJob now h jobId : qkeeps (BQ:=BQ) (cancelJob now h jobId).
Proof. unfold cancelJob. pose proof qkeeps_loadJob. qkeeps_auto. Qed.

Lemma qkeeps_retryJob now gen h jobId : qkeeps (BQ:=BQ) (retryJob now gen h jobId).
Proof. unfold retryJob. pose proof qkeeps_loadJob. qkeeps_auto. Qed.

Lemma qkeeps_bulkCancelOne now job : qkeeps (BQ:=BQ) (bulkCancelOne now job).
Proof.
  intros s Hs. unfold bulkCancelOne.
  assert (Hattempt : qkeeps (BQ:=BQ)
            (if terminal (Job.status job) then ret bulk_skipped
             else removeBullJob (Job.jobId job)
                  >> JobModel_save (markCancelled now "Bulk cancelled by user" job)
                  >> ret bulk_cancelled)) by qkeeps_auto.
  pose proof (Hattempt s Hs) as Hs'.
  match goal with |- context [match ?m s with _ => _ end] =>
    destruct (m s) as [s' [o|e]] end; exact Hs'.
Qed.

Lemma qkeeps_bulkCancel now h jobIds : qkeeps (BQ:=BQ) (bulkCancel now h jobIds).
Proof.
  unfold bulkCancel, requireUser. apply qkeeps_bind; [qkeeps_auto|]. intros _.
  destruct jobIds as [[|id ids]|]; try apply qkeeps_throw.
  apply qkeeps_bind; [qkeeps_auto|]. intros jobs.
  induction jobs as [|job jobs IH]; cbn [bulkCancelLoop]; [apply qkeeps_ret|].
  apply qkeeps_bind; [apply qkeeps_bulkCancelOne|]. intros o.
  apply qkeeps_bind; [exact IH|]. intros rest. apply qkeeps_ret.
Qed.

Lemma qkeeps_setActive now h queueName v :
  qkeeps (BQ:=BQ)
    (requireAdmin h >> requireQueue queueName
     >> QueueModel_upsert now queueName (QueueDoc.set_isActive v)).
Proof.
  unfold requireAdmin, requireQueue.
  apply qkeeps_bind; [qkeeps_auto|]. intros _.
  apply qkeeps_bind; [qkeeps_auto|]. intros _. now apply qkeeps_upsert.
Qed.

Lemma qkeeps_updateQueueStatistics now :
  qkeeps (BQ:=BQ) (updateQueueStatistics now).
Proof.
  unfold updateQueueStatistics. apply qkeeps_catch, qkeeps_forEach. intros queueName.
  unfold updateQueueStatisticsOne. apply qkeeps_bind; [qkeeps_auto|]. intros jobs.
  now apply qkeeps_upsert.
Qed.

Lemma qkeeps_processStalledJobs now : qkeeps (BQ:=BQ) (processStalledJobs now).
Proof. unfold processStalledJobs. qkeeps_auto. Qed.

Lemma qkeeps_performHealthChecks now : qkeeps (BQ:=BQ) (performHealthChecks now).
Proof. intros s Hs. now rewrite performHealthChecks_writes_nothing. Qed.

Lemma qkeeps_workerTurn now queueName : qkeeps (BQ:=BQ) (workerTurn now queueName).
Proof.
  intros s Hs. unfold workerTurn.
  destruct (queues_get s queueName) as [q|]; [|exact Hs].
  destruct (q_next q) as [[jobId q']|]; [|exact Hs].
  assert (Hturn : qkeeps (BQ:=BQ) (catch (onJobActive now jobId) >> ret (Some jobId))).
  { unfold onJobActive. qkeeps_auto. }
  exact (Hturn (queues_put queueName q' s) Hs).
Qed.

Lemma qkeeps_runJob processor jobId startTime endTime reply mongoMessage :
  qkeeps (BQ:=BQ) (runJob processor jobId startTime endTime reply mongoMessage).
Proof.
  unfold runJob, processJob, onJobCompleted.
  assert (Hclean : qkeeps (BQ:=BQ) (processCleanupExpiredJobs startTime mongoMessage)).
  { intros s Hs. unfold processCleanupExpiredJobs.
    pose proof (qkeeps_deleteMany (expiredFilter (startTime - sevenDays)) s Hs) as Hs'.
    now destruct (JobModel_deleteMany _ s) as [s' [n|e]]. }
  destruct processor; qkeeps_auto.
Qed.

Lemma qkeeps_archiveOldJobs now : qkeeps (BQ:=BQ) (archiveOldJobs now).
Proof. unfold archiveOldJobs. qkeeps_auto. Qed.

Lemma qkeeps_scheduleDelayed now gen h body :
  qkeeps (BQ:=BQ) (scheduleDelayed now gen h body).
Proof. unfold scheduleDelayed, scheduleDelayedJob, requireUser. qkeeps_auto. Qed.

Lemma qkeeps_triggerJob now gen h jobName data :
  qkeeps (BQ:=BQ) (triggerJob now gen h jobName data).
Proof. unfold triggerJob. qkeeps_auto. Qed.

Lemma qkeeps_fire now gen sch i : qkeeps (BQ:=BQ) (fire now gen sch i).
Proof.
  unfold fire, runTask.
  pose proof qkeeps_performHealthChecks. pose proof qkeeps_updateQueueStatistics.
  pose proof qkeeps_processStalledJobs. pose proof qkeeps_archiveOldJobs.
  qkeeps_auto.
Qed.

Lemma step_healthy_docs (s s' : System BQ) :
  step s s' → healthy_docs (queueModel s) → healthy_docs (queueModel s').
Proof.
  intros Hstep Hs. destruct Hstep.
  - now apply qkeeps_addJob.
  - now apply qkeeps_createJob.
  - now apply qkeeps_cancelJob.
  - now apply qkeeps_retryJob.
  - now apply qkeeps_bulkCancel.
  - now apply qkeeps_setActive.
  - now apply qkeeps_setActive.
  - unfold cleanQueue, requireAdmin, requireQueue.
    match goal with |- healthy_docs (queueModel (?m s).1) =>
      assert (Hm : qkeeps (BQ:=BQ) m) by qkeeps_auto end.
    now apply Hm.
  - unfold healthSummary, requireAdmin.
    match goal with |- healthy_docs (queueModel (?m s).1) =>
      assert (Hm : qkeeps (BQ:=BQ) m) end.
    { apply qkeeps_bind; [qkeeps_auto|]. intros _.
      apply qkeeps_bind.
      { apply qkeeps_frame. intros s0. unfold getSchedulerStats.
        now destruct (mongoUp s0). }
      intros stats. qkeeps_auto. }
    now apply Hm.
  - now apply qkeeps_performHealthChecks.
  - now apply qkeeps_updateQueueStatistics.
  - now apply qkeeps_processStalledJobs.
  - now apply qkeeps_workerTurn.
  - now apply qkeeps_findOneAndUpdate.
  - now apply qkeeps_findOneAndUpdate.
  - now apply qkeeps_findOneAndUpdate.
  - exact Hs.
  - exact Hs.
  - exact Hs.
  - now apply qkeeps_runJob.
  - now apply qkeeps_archiveOldJobs.
  - now apply qkeeps_scheduleDelayed.
  - now apply qkeeps_triggerJob.
  - now apply qkeeps_fire.
Qed.

(** X5. The health the service stores never leaves [healthy]: whatever the
    routes, the timers, the workers and Bull do from a state whose queue
    documents all say [healthy] (an empty collection is one), every queue
    document still says [healthy], also when the queues hold more failed
    than completed jobs. [performHealthChecks], the one writer of
    [healthStatus], never writes. *)
Theorem stored_health_stays_healthy (s s' : System BQ) :
  rtc step s s' →
  healthy_docs (queueModel s) →
  healthy_docs (queueModel s').
Proof.
  induction 1 as [s|s s1 s' Hstep _ IH]; intros Hs; [exact Hs|].
  apply IH. exact (step_healthy_docs s s1 Hstep Hs).
Qed.
End StoredHealth.

Lemma stored_health_stays_healthy_witness :
  let s' := (pauseQueue 20 adminHeaders "cleanup"
               (performHealthChecks 10 unhealthyQueues).1).1 in
  (∃ qs, (healthSummary adminHeaders unhealthyQueues).2 = Ok (error, qs))
  ∧ QueueDoc.healthStatus <$> queueModel s' !! "cleanup" = Some healthy
  ∧ healthy_docs (queueModel s').
Proof.
  split; [eexists; vm_compute; reflexivity|]. split; [vm_compute; reflexivity|].
  apply (stored_health_stays_healthy unhealthyQueues).
  - eapply rtc_l; [apply step_performHealthChecks|].
    eapply rtc_l; [apply step_pauseQueue|]. apply rtc_refl.
  - intros name d Hd. cbn [unhealthyQueues queueModel] in Hd.
    now rewrite lookup_empty in Hd.
Defined.

(** ** The views of the queues *)

Section QueueViewFacts.
Context {BQ : Type} `{Bull BQ}.

Lemma truthyS_queue queueName : queueName ∈ QUEUES → truthyS (Some queueName) = true.
Proof.
  intros Hin.
  repeat (apply elem_of_cons in Hin as [->|Hin]; [reflexivity|]).
  inversion Hin.
Qed.

(** X6. [GET /queues/:queueName] never shows the live counts of the queue:
    for an admin, a known queue, a reachable store and a readable queue the
    route answers, and [liveStats] is the empty object whatever the queue
    holds. [getQueueStats(queueName)] already returns the entry of the
    queue, and the route indexes it by the queue's name once more. *)
Theorem queueDetail_liveStats_empty h queueName (s : System BQ) q stat :
  x_user_role h = Some "admin" →
  queueName ∈ QUEUES →
  mongoUp s = true →
  queues_get s queueName = Some q →
  queue_stat q = Some stat →
  ∃ view recentJobs typeStats,
    queueDetail h queueName s = (s, Ok (view, recentJobs, typeStats))
    ∧ qv_liveStats view = live_empty
    ∧ (getQueueStats (Some queueName) s).2 = Ok (StatsOne (Some stat)).
Proof.
  intros Hadmin Hqueue Hup Hq Hstat.
  assert (Hstats : getQueueStats (Some queueName) s = (s, Ok (StatsOne (Some stat)))).
  { unfold getQueueStats. rewrite (truthyS_queue _ Hqueue).
    change (default "" (Some queueName)) with queueName.
    cbn [stats_of]. now rewrite Hq, Hstat. }
  unfold queueDetail, requireAdmin, requireQueue, notAdmin, includes.
  rewrite (bool_decide_eq_true_2 _ Hadmin), (bool_decide_eq_true_2 _ Hqueue).
  cbn [negb when]. unfold bind at 1 2. unfold ret at 1 2.
  unfold bind at 1. rewrite Hstats.
  unfold bind, QueueModel_findOne, JobModel_find. rewrite !Hup.
  cbn [liveStatsOf]. rewrite (stat_property_of_queue _ _ Hqueue).
  do 3 eexists. repeat split; reflexivity.
Qed.
End QueueViewFacts.

Lemma queueDetail_liveStats_empty_witness :
  (∃ view recentJobs typeStats,
     queueDetail adminHeaders "cleanup" unhealthyQueues
     = (unhealthyQueues, Ok (view, recentJobs, typeStats))
     ∧ qv_liveStats view = live_empty)
  ∧ (getQueueStats (Some "cleanup") unhealthyQueues).2
    = Ok (StatsOne (Some (mkQStat 0 0 2 3 0 5))).
Proof.
  destruct (queueDetail_liveStats_empty adminHeaders "cleanup" unhealthyQueues
              (queueWith 2 3) (mkQStat 0 0 2 3 0 5))
    as (view & recentJobs & typeStats & Hrun & Hlive & Hstats).
  - reflexivity.
  - apply (bool_decide_unpack _). vm_compute. exact I.
  - reflexivity.
  - reflexivity.
  - vm_compute. reflexivity.
  - split; [|exact Hstats]. now exists view, recentJobs, typeStats.
Defined.

(** ** The life of a job *)

Section Lifecycle.
Context {BQ : Type} `{Bull BQ}.

(** X7. A job that fails an attempt, runs again and completes keeps the
    traces of the failure: after the listeners of ['failed'], ['active'] and
    ['completed'] its record is [completed] with the result, and still
    carries the error message and [failedAt] of the failed attempt. No
    listener clears them. *)
Theorem completed_job_keeps_its_error
    failedAt startedAt completedAt jobId message attemptsMade result
    (s : System BQ) doc :
  mongoUp s = true →
  jobModel s !! jobId = Some doc →
  let s' := (onJobCompleted completedAt jobId result
               (onJobActive startedAt jobId
                  (onJobFailed failedAt jobId message attemptsMade s).1).1).1 in
  ∃ doc', jobModel s' !! jobId = Some doc'
          ∧ Job.status doc' = completed
          ∧ Job.result doc' = Some result
          ∧ Job.completedAt doc' = Some completedAt
          ∧ Job.error doc' = Some message
          ∧ Job.failedAt doc' = Some failedAt
          ∧ Job.attempts doc' = attemptsMade
          ∧ ∀ id, id ≠ jobId → jobModel s' !! id = jobModel s !! id.
Proof.
  intros Hup Hdoc s'. subst s'.
  unfold onJobCompleted, onJobActive, onJobFailed, JobModel_findOneAndUpdate.
  rewrite Hup. cbn [fst mongoUp set_jobModel]. rewrite Hup.
  cbn [fst mongoUp set_jobModel jobModel]. rewrite Hup.
  cbn [fst mongoUp set_jobModel jobModel].
  rewrite !lookup_alter_eq, Hdoc. cbn [fmap option_fmap option_map].
  eexists. split; [reflexivity|]. repeat split.
  intros id Hne. now rewrite !lookup_alter_ne by congruence.
Qed.

(** What a successful cancellation leaves. *)
Lemma cancelJob_success now h jobId (s : System BQ) :
  wf_store (jobModel s) →
  (cancelJob now h jobId s).2 = Ok tt →
  ∃ doc,
    jobModel s !! jobId = Some doc
    ∧ truthyS (x_user_id h) = true
    ∧ notAdmin h && notOwner h doc = false
    ∧ mongoUp (cancelJob now h jobId s).1 = true
    ∧ jobModel (cancelJob now h jobId s).1
      = <[jobId := markCancelled now "Cancelled by user" doc]> (jobModel s).
Proof.
  intros Hwf Hok.
  destruct (cancelJob now h jobId s) as [s' r] eqn:Hrun.
  cbn [fst snd] in *. subst r. revert Hrun.
  unfold cancelJob. unfold bind at 1.
  destruct (loadJob h jobId s) as [s0 [doc|e]] eqn:Hload; [|discriminate].
  unfold loadJob, requireUser in Hload. unfold bind at 1 in Hload.
  destruct (truthyS (x_user_id h)) eqn:Huser; [|discriminate].
  cbn [negb when ret] in Hload. unfold bind at 1 in Hload.
  unfold JobModel_findOne in Hload.
  destruct (mongoUp s) eqn:Hup; [|discriminate].
  destruct (jobModel s !! jobId) as [doc0|] eqn:Hdoc; [|discriminate].
  unfold bind in Hload.
  destruct (notAdmin h && notOwner h doc0) eqn:Hperm; [discriminate|].
  cbn [when ret] in Hload. injection Hload as <- <-.
  unfold bind at 1.
  destruct (terminal (Job.status doc0)) eqn:Hterm; [discriminate|].
  cbn [when ret]. unfold bind.
  destruct (removeBullJob_state jobId s) as (Hup' & Hjobs' & _).
  destruct (removeBullJob jobId s) as [s1 [[]|e]]; [|discriminate].
  cbn [fst] in Hup', Hjobs'. unfold JobModel_save. rewrite Hup', Hup.
  intros [= <-]. exists doc0.
  split; [reflexivity|]. split; [reflexivity|]. split; [exact Hperm|].
  split; [cbn [mongoUp set_jobModel]; congruence|].
  - cbn [jobModel set_jobModel]. rewrite Hjobs'.
    change (Job.jobId (markCancelled now "Cancelled by user" doc0)) with (Job.jobId doc0).
    now rewrite (Hwf _ _ Hdoc).
Qed.

(** X8. Cancelling is not idempotent, and a cancelled job can run again.
    After a cancellation that succeeded, a second one by the same caller is
    refused with [JOB_NOT_CANCELLABLE] and changes nothing, while a retry by
    that caller passes the status check and enqueues the job's work anew. *)
Theorem cancelJob_then_again now now' gen h jobId (s : System BQ) :
  wf_store (jobModel s) →
  (cancelJob now h jobId s).2 = Ok tt →
  let s' := (cancelJob now h jobId s).1 in
  cancelJob now' h jobId s'
  = (s', Err (AppError "Cannot cancel completed or failed job" 400
                "JOB_NOT_CANCELLABLE"))
  ∧ ∃ doc,
      jobModel s !! jobId = Some doc
      ∧ retryJob now' gen h jobId s'
        = addJob now' gen (Job.queue doc) (Job.type doc) (Job.data doc)
            (Some (mkJobOptions (Some (Job.maxAttempts doc)) None
                     (Some (Job.priority doc)) None)) s'.
Proof.
  intros Hwf Hok s'.
  destruct (cancelJob_success now h jobId s Hwf Hok)
    as (doc & Hdoc & Huser & Hperm & Hup' & Hjobs').
  fold s' in Hup', Hjobs'.
  assert (Hload : loadJob h jobId s'
                  = (s', Ok (markCancelled now "Cancelled by user" doc))).
  { unfold loadJob, requireUser. rewrite Huser. cbn [negb when].
    unfold bind at 1. cbn [ret]. unfold bind at 1. unfold JobModel_findOne.
    rewrite Hup', Hjobs', lookup_insert_eq.
    change (notOwner h (markCancelled now "Cancelled by user" doc))
      with (notOwner h doc).
    unfold bind. now rewrite Hperm. }
  split.
  - unfold cancelJob. unfold bind at 1. now rewrite Hload.
  - exists doc. split; [exact Hdoc|].
    unfold retryJob. unfold bind at 1. rewrite Hload. reflexivity.
Qed.

(** X9. Who may load the record [addJob] writes. Once [addJob] has returned
    the id of its job, the check the job routes run before they show, cancel
    or retry a job lets an admin through, and the user named by the [userId]
    of the job's data, and refuses everyone else with 403; a job whose data
    names no user, as those of the timers, is for admins only. *)
Theorem addJob_then_loadJob now gen queueName jobType data options
    (s : System BQ) id h :
  (addJob now gen queueName jobType data options s).2 = Ok id →
  truthyS (x_user_id h) = true →
  let s' := (addJob now gen queueName jobType data options s).1 in
  ∃ doc,
    jobModel s' !! id = Some doc
    ∧ Job.userId doc = p_userId data
    ∧ Job.data doc = data
    ∧ (x_user_role h = Some "admin" ∨ x_user_id h = p_userId data →
         loadJob h id s' = (s', Ok doc))
    ∧ (x_user_role h ≠ Some "admin" → x_user_id h ≠ p_userId data →
         loadJob h id s' = (s', Err (AppError "Access denied" 403 "FORBIDDEN"))).
Proof.
  intros Hok Huser s'. subst s'. revert Hok. rewrite addJob_unfold.
  destruct (queues_get s queueName) as [q|]; [|discriminate].
  destruct (mongoUp s) eqn:Hup; [|discriminate].
  destruct (jobModel s !! _) eqn:Hfree; [discriminate|].
  destruct (q_add q _ _ _) as [q'|]; [|discriminate].
  cbn [fst snd]. intros [= <-].
  set (doc := addJob_jobDoc now queueName
                (addJob_jobData now gen jobType data options)).
  set (s' := queues_put queueName q' _).
  assert (Hdoc : jobModel s' !! jd_id (addJob_jobData now gen jobType data options)
                 = Some doc).
  { subst s'. cbn [queues_put set_queues jobModel set_jobModel].
    apply lookup_insert_eq. }
  exists doc. split; [exact Hdoc|]. split; [reflexivity|]. split; [reflexivity|].
  split.
  - intros Hperm. apply loadJob_found; [exact Huser|exact Hup|exact Hdoc|].
    destruct Hperm as [Hadmin|Howner]; [now left|right]. now rewrite Howner.
  - intros Hrole Hother. unfold loadJob, requireUser. rewrite Huser.
    cbn [negb when]. unfold bind at 1. cbn [ret]. unfold bind at 1.
    unfold JobModel_findOne. change (mongoUp s') with (mongoUp s).
    rewrite Hup. cbn [jd_id addJob_jobData] in Hdoc. rewrite Hdoc.
    unfold bind, notAdmin, notOwner.
    rewrite (bool_decide_eq_false_2 _ Hrole).
    change (Job.userId doc) with (p_userId data).
    rewrite bool_decide_eq_false_2 by congruence. reflexivity.
Qed.

(** X10. A job created through [POST /jobs] belongs to its caller: the
    record carries the caller's [x-user-id], in [userId] and in the data,
    whatever [userId] the data of the request names. *)
Theorem createJob_owner now gen h body (s : System BQ) id :
  (createJob now gen h body s).2 = Ok id →
  ∃ doc,
    jobModel (createJob now gen h body s).1 !! id = Some doc
    ∧ Job.userId doc = x_user_id h
    ∧ p_userId (Job.data doc) = x_user_id h
    ∧ truthyS (Job.userId doc) = true
    ∧ Job.status doc = waiting.
Proof.
  destruct (createJob now gen h body s) as [s' r] eqn:Hrun.
  cbn [fst snd]. intros ->. revert Hrun.
  unfold createJob, requireUser. unfold bind at 1.
  destruct (x_user_id h) as [userId|] eqn:Hh; [|discriminate].
  destruct (truthyS (Some userId)) eqn:Huser; [|discriminate].
  cbn [negb when ret].
  destruct (b_data body) as [data|]; [|discriminate].
  destruct (truthyS (b_queue body) && truthyS (b_type body)); [|discriminate].
  unfold bind at 1.
  destruct (negb (includes QUEUES _)); [discriminate|]. cbn [when ret].
  unfold bind at 1.
  destruct (negb (includes JOB_TYPES _)); [discriminate|]. cbn [when ret].
  rewrite addJob_unfold.
  destruct (queues_get s _) as [q|]; [|discriminate].
  destruct (mongoUp s); [|discriminate].
  destruct (jobModel s !! _); [discriminate|].
  destruct (q_add q _ _ _) as [q'|]; [|discriminate].
  intros [= <- <-].
  eexists. split.
  { cbn [queues_put set_queues jobModel set_jobModel]. apply lookup_insert_eq. }
  repeat split. exact Huser.
Qed.
End Lifecycle.

Lemma completed_job_keeps_its_error_witness :
  ∃ doc', jobModel (onJobCompleted 30 "a1" (mkJobResult true None 7)
                      (onJobActive 20 "a1"
                         (onJobFailed 10 "a1" "timeout" 1 cancelScene).1).1).1
          !! "a1" = Some doc'
          ∧ Job.status doc' = completed
          ∧ Job.error doc' = Some "timeout"
          ∧ Job.failedAt doc' = Some 10.
Proof.
  destruct (completed_job_keeps_its_error 10 20 30 "a1" "timeout" 1
              (mkJobResult true None 7) cancelScene
              (sampleJob "a1" "cleanup" "cleanup-expired-jobs" active 1 3 0))
    as (doc' & Hdoc' & Hst & _ & _ & Herr & Hfailed & _).
  - reflexivity.
  - vm_compute. reflexivity.
  - exists doc'. repeat split; assumption.
Defined.

Lemma cancelJob_then_again_witness :
  let s' := (cancelJob 5000 (userHeaders "u1") "w1" cancelScene).1 in
  cancelJob 6000 (userHeaders "u1") "w1" s'
  = (s', Err (AppError "Cannot cancel completed or failed job" 400
                "JOB_NOT_CANCELLABLE"))
  ∧ (retryJob 6000 "job_6000_a" (userHeaders "u1") "w1" s').2 = Ok "job_6000_a".
Proof.
  destruct (cancelJob_then_again 5000 6000 "job_6000_a" (userHeaders "u1") "w1"
              cancelScene) as [Hagain _].
  - apply wf_store_withJobs.
  - vm_compute. reflexivity.
  - split; [exact Hagain|]. vm_compute. reflexivity.
Defined.

Lemma addJob_then_loadJob_witness :
  let s' := (addJob 10 "job_10_a" "cleanup" "cleanup-expired-jobs"
               (mkPayload None None None [("triggeredBy", "scheduler")]) None
               initialSystem).1 in
  loadJob (userHeaders "u1") "job_10_a" s'
  = (s', Err (AppError "Access denied" 403 "FORBIDDEN"))
  ∧ ∃ doc, loadJob adminHeaders "job_10_a" s' = (s', Ok doc).
Proof.
  destruct (addJob_then_loadJob 10 "job_10_a" "cleanup" "cleanup-expired-jobs"
              (mkPayload None None None [("triggeredBy", "scheduler")]) None
              initialSystem "job_10_a" (userHeaders "u1"))
    as (doc & _ & _ & _ & _ & Hdenied).
  - vm_compute. reflexivity.
  - reflexivity.
  - split; [apply Hdenied; discriminate|].
    eexists. vm_compute. reflexivity.
Defined.

Lemma createJob_owner_witness :
  ∃ doc,
    jobModel (createJob 10 "job_10_a" (userHeaders "u1")
                (mkCreateBody (Some "cleanup") (Some "cleanup-expired-jobs")
                   (Some (mkPayload None (Some "someone-else") None [])) None)
                initialSystem).1 !! "job_10_a" = Some doc
    ∧ Job.userId doc = Some "u1".
Proof.
  destruct (createJob_owner 10 "job_10_a" (userHeaders "u1")
              (mkCreateBody (Some "cleanup") (Some "cleanup-expired-jobs")
                 (Some (mkPayload None (Some "someone-else") None [])) None)
              initialSystem "job_10_a") as (doc & Hdoc & Howner & _).
  - vm_compute. reflexivity.
  - exists doc. split; [exact Hdoc | exact Howner].
Defined.

(** ** Deleting records *)

Section DeleteFacts.
Context {BQ : Type} `{Bull BQ}.

Lemma size_deleted (f : Job.t → bool) (m : gmap string Job.t) :
  size m = (size (filter (λ kv, f kv.2 = false) m)
            + size (filter (λ kv, f kv.2 = true) m))%nat.
Proof.
  rewrite <- (map_filter_union_complement (λ kv : string * Job.t, f kv.2 = true) m) at 1.
  rewrite map_size_disj_union by apply map_disjoint_filter_complement.
  assert (Heq : filter (λ kv : string * Job.t, ¬ f kv.2 = true) m
                = filter (λ kv, f kv.2 = false) m).
  { apply map_filter_ext. intros i x _. apply not_true_iff_false. }
  rewrite Heq. apply Nat.add_comm.
Qed.

Lemma set_jobModel_id (s : System BQ) g :
  g (jobModel s) = jobModel s → set_jobModel g s = s.
Proof. destruct s as [up jm qm qs]. unfold set_jobModel. cbn. now intros ->. Qed.

(** Two [deleteMany] in a row, the second with the wider filter, leave what
    the second alone leaves and count together what it alone counts. *)
Lemma deleteMany_twice (f g : Job.t → bool) (s : System BQ) :
  mongoUp s = true →
  (∀ j, f j = true → g j = true) →
  ∃ n1 n2 n,
    (JobModel_deleteMany f s).2 = Ok n1
    ∧ (JobModel_deleteMany g (JobModel_deleteMany f s).1).2 = Ok n2
    ∧ (JobModel_deleteMany g s).2 = Ok n
    ∧ (JobModel_deleteMany g (JobModel_deleteMany f s).1).1
      = (JobModel_deleteMany g s).1
    ∧ (n1 + n2 = n)%nat
    ∧ size (jobModel s) = (size (jobModel (JobModel_deleteMany g s).1) + n)%nat.
Proof.
  intros Hup Hsub. unfold JobModel_deleteMany. rewrite Hup.
  cbn [fst snd mongoUp set_jobModel jobModel]. rewrite Hup.
  cbn [fst snd mongoUp set_jobModel jobModel].
  assert (Hboth : filter (λ kv : string * Job.t, g kv.2 = false)
                    (filter (λ kv : string * Job.t, f kv.2 = false) (jobModel s))
                  = filter (λ kv : string * Job.t, g kv.2 = false) (jobModel s)).
  { apply map_filter_filter_l. intros i x _ Hg. cbn [snd] in *.
    destruct (f x) eqn:Hf; [|reflexivity]. rewrite (Hsub _ Hf) in Hg.
    discriminate. }
  do 3 eexists. split; [reflexivity|]. split; [reflexivity|].
  split; [reflexivity|]. split.
  { unfold set_jobModel. cbn [mongoUp jobModel queueModel queues]. now rewrite Hboth. }
  pose proof (size_deleted f (jobModel s)) as Hf.
  pose proof (size_deleted g (jobModel s)) as Hg.
  pose proof (size_deleted g (filter (λ kv : string * Job.t, f kv.2 = false) (jobModel s)))
    as Hfg.
  rewrite Hboth in Hfg. split; lia.
Qed.

(** A [deleteMany] after one with a wider filter finds nothing. *)
Lemma deleteMany_nothing_left (f g : Job.t → bool) (s : System BQ) :
  mongoUp s = true →
  (∀ j, g j = true → f j = true) →
  JobModel_deleteMany g (JobModel_deleteMany f s).1
  = ((JobModel_deleteMany f s).1, Ok 0%nat).
Proof.
  intros Hup Hsub. unfold JobModel_deleteMany. rewrite Hup.
  cbn [fst snd mongoUp set_jobModel jobModel]. rewrite Hup. f_equal.
  - apply set_jobModel_id. cbn [jobModel].
    apply map_filter_id. intros i x Hx.
    apply map_lookup_filter_Some in Hx as [_ Hf]. cbn [snd] in *.
    destruct (g x) eqn:Hg; [|reflexivity]. rewrite (Hsub _ Hg) in Hf. discriminate.
  - f_equal. apply map_size_empty_iff. apply map_empty_filter_2.
    intros i x Hx Hg. apply map_lookup_filter_Some in Hx as [_ Hf]. cbn [snd] in *.
    rewrite (Hsub _ Hg) in Hf. discriminate.
Qed.

Lemma cleanQueue_run now h queueName olderThan status (s : System BQ) :
  x_user_role h = Some "admin" →
  queueName ∈ QUEUES →
  cleanQueue now h queueName olderThan status s
  = JobModel_deleteMany
      (cleanFilter queueName (now - default (24 * 60 * 60 * 1000) olderThan)
         (default "completed" status)) s.
Proof.
  intros Hadmin Hqueue.
  unfold cleanQueue, requireAdmin, requireQueue, notAdmin, includes.
  now rewrite (bool_decide_eq_true_2 _ Hadmin), (bool_decide_eq_true_2 _ Hqueue).
Qed.

(** X11. [POST /queues/:queueName/clean] counts what it deletes, and two
    cleanings add up. For an admin, a known queue and a reachable store, the
    store shrinks by exactly [deletedCount]; a cleaning followed by a later
    one with the same body leaves the store the later one alone would have
    left, their counts adding up to its count; and a cleaning repeated at the
    same instant deletes nothing. *)
Theorem cleanQueue_counts now1 now2 h queueName olderThan status (s : System BQ) :
  x_user_role h = Some "admin" →
  queueName ∈ QUEUES →
  mongoUp s = true →
  now1 ≤ now2 →
  let first := cleanQueue now1 h queueName olderThan status s in
  let second := cleanQueue now2 h queueName olderThan status first.1 in
  let alone := cleanQueue now2 h queueName olderThan status s in
  ∃ n1 n2 n,
    first.2 = Ok n1 ∧ second.2 = Ok n2 ∧ alone.2 = Ok n
    ∧ second.1 = alone.1
    ∧ (n1 + n2 = n)%nat
    ∧ size (jobModel s) = (size (jobModel alone.1) + n)%nat
    ∧ (now1 = now2 → n2 = 0%nat).
Proof.
  intros Hadmin Hqueue Hup Hle first second alone. subst first second alone.
  rewrite !cleanQueue_run by assumption.
  set (f := cleanFilter queueName (now1 - default (24 * 60 * 60 * 1000) olderThan)
              (default "completed" status)).
  set (g := cleanFilter queueName (now2 - default (24 * 60 * 60 * 1000) olderThan)
              (default "completed" status)).
  assert (Hsub : ∀ j, f j = true → g j = true).
  { intros j. unfold f, g, cleanFilter. rewrite !andb_true_iff.
    intros [[Hq Hc] Hst]. repeat split; [exact Hq| |exact Hst].
    apply Z.ltb_lt in Hc. apply Z.ltb_lt. lia. }
  destruct (deleteMany_twice f g s Hup Hsub)
    as (n1 & n2 & n & H1 & H2 & Hn & Hstate & Hsum & Hsize).
  exists n1, n2, n. repeat split; try assumption.
  intros ->. subst f g. rewrite H1 in Hn. injection Hn as ->. lia.
Qed.

(** X12. What the cleanup job deletes, and what is left for the weekly
    archive. With the store down the processor returns a failure and does
    not throw. With the store up it reports success and the number of
    records deleted, and deletes exactly the completed and failed records
    created more than seven days before. Take [archiveOldJobs], which deletes
    those created more than thirty days before, at a time less than
    twenty-three days after the cleanup. Run on the state the cleanup left,
    it finds nothing. Run on any later state, it deletes only what has
    changed or appeared since: a record that is still as the cleanup left it
    is never deleted. *)
Theorem cleanup_then_archive now now' mongoMessage (s : System BQ) :
  let out := processCleanupExpiredJobs now mongoMessage s in
  (mongoUp s = false →
     out = (s, Ok (mkJobResult false (Some mongoMessage) 0, None)))
  ∧ (mongoUp s = true →
       ∃ n, out.2 = Ok (mkJobResult true None 0, Some n)
            ∧ size (jobModel s) = (size (jobModel out.1) + n)%nat
            ∧ (∀ id doc,
                 jobModel out.1 !! id = Some doc
                 ↔ jobModel s !! id = Some doc
                   ∧ ¬ (terminal (Job.status doc) = true
                        ∧ Job.createdAt doc < now - sevenDays))
            ∧ (now' - thirtyDays ≤ now - sevenDays →
                 archiveOldJobs now' out.1 = (out.1, Ok tt)
                 ∧ ∀ (later : System BQ) id doc,
                     jobModel later !! id = Some doc →
                     jobModel (archiveOldJobs now' later).1 !! id = None →
                     jobModel out.1 !! id ≠ Some doc)).
Proof.
  intros out. subst out. unfold processCleanupExpiredJobs. split.
  - intros Hdown. unfold JobModel_deleteMany. now rewrite Hdown.
  - intros Hup.
    pose proof (deleteMany_nothing_left (expiredFilter (now - sevenDays))
                  (expiredFilter (now' - thirtyDays)) s Hup) as Harchive.
    pose proof (size_deleted (expiredFilter (now - sevenDays)) (jobModel s)) as Hsize.
    assert (Hrun : JobModel_deleteMany (expiredFilter (now - sevenDays)) s
                   = (set_jobModel
                        (filter (λ kv, expiredFilter (now - sevenDays) kv.2 = false)) s,
                      Ok (size (filter (λ kv, expiredFilter (now - sevenDays) kv.2 = true)
                                  (jobModel s))))).
    { unfold JobModel_deleteMany. now rewrite Hup. }
    rewrite Hrun in Harchive |- *. cbn [fst snd jobModel set_jobModel] in *.
    assert (Hkept : ∀ id doc,
              filter (λ kv : string * Job.t, expiredFilter (now - sevenDays) kv.2 = false)
                (jobModel s) !! id = Some doc
              ↔ jobModel s !! id = Some doc
                ∧ ¬ (terminal (Job.status doc) = true
                     ∧ Job.createdAt doc < now - sevenDays)).
    { intros id doc. rewrite map_lookup_filter_Some. cbn [snd].
      unfold expiredFilter. rewrite andb_false_iff, Z.ltb_ge.
      split; intros [Hdoc Hkeep]; (split; [exact Hdoc|]).
      * intros [Hterm Hold]. destruct Hkeep as [Hnew|Hlive]; [lia|congruence].
      * destruct (terminal (Job.status doc)); [|now right].
        left. destruct (Z.le_gt_cases (now - sevenDays) (Job.createdAt doc)); [assumption|].
        exfalso. apply Hkeep. split; [reflexivity|lia]. }
    eexists. split; [reflexivity|]. split; [exact Hsize|]. split; [exact Hkept|].
    intros Hle. split.
    + unfold archiveOldJobs, catch. rewrite Harchive; [reflexivity|].
      intros j. unfold expiredFilter. rewrite !andb_true_iff, !Z.ltb_lt.
      intros [Hold Hterm]. split; [lia|exact Hterm].
    + intros later id doc Hdoc Hgone Hsame.
      apply Hkept in Hsame as [_ Hfresh].
      unfold archiveOldJobs, catch, JobModel_deleteMany in Hgone. cbn [fst] in Hgone.
      destruct (mongoUp later); cbn [fst jobModel set_jobModel] in Hgone;
        [|congruence].
      apply map_lookup_filter_None in Hgone as [Hnone|Hdel]; [congruence|].
      specialize (Hdel doc Hdoc). cbn [snd] in Hdel.
      apply not_false_iff_true in Hdel. unfold expiredFilter in Hdel.
      apply andb_true_iff in Hdel as [Hold Hterm]. apply Z.ltb_lt in Hold.
      apply Hfresh. split; [exact Hterm|lia].
Qed.
End DeleteFacts.

Lemma cleanQueue_counts_witness :
  ∃ n1 n2,
    (cleanQueue twoDays adminHeaders "cleanup" None None cleanupBacklog).2 = Ok n1
    ∧ (cleanQueue twoDays adminHeaders "cleanup" None None
         (cleanQueue twoDays adminHeaders "cleanup" None None cleanupBacklog).1).2
      = Ok n2
    ∧ n2 = 0%nat.
Proof.
  destruct (cleanQueue_counts twoDays twoDays adminHeaders "cleanup" None None
              cleanupBacklog)
    as (n1 & n2 & n & H1 & H2 & _ & _ & _ & _ & Hzero).
  - reflexivity.
  - apply (bool_decide_unpack _). vm_compute. exact I.
  - reflexivity.
  - lia.
  - exists n1, n2. split; [exact H1|]. split; [exact H2|]. now apply Hzero.
Defined.

Lemma cleanup_then_archive_witness :
  let out := processCleanupExpiredJobs (10 * twoDays) "down" cleanupBacklog in
  let later := (onJobCompleted (11 * twoDays) "w1" (mkJobResult true None 5) out.1).1 in
  (∃ n, out.2 = Ok (mkJobResult true None 0, Some n))
  ∧ archiveOldJobs (20 * twoDays) out.1 = (out.1, Ok tt)
  ∧ jobModel (archiveOldJobs (20 * twoDays) later).1 !! "w1" = None
  ∧ jobModel out.1 !! "w1" ≠ jobModel later !! "w1".
Proof.
  intros out later.
  destruct (cleanup_then_archive (10 * twoDays) (20 * twoDays) "down" cleanupBacklog)
    as [_ Hup].
  destruct Hup as (n & Hres & _ & _ & Harchive); [reflexivity|].
  destruct Harchive as [Hnothing Hchanged]; [vm_compute; discriminate|].
  split; [now exists n|]. split; [exact Hnothing|].
  assert (Hgone : jobModel (archiveOldJobs (20 * twoDays) later).1 !! "w1" = None)
    by (vm_compute; reflexivity).
  split; [exact Hgone|].
  destruct (jobModel later !! "w1") as [doc|] eqn:Hdoc; [|vm_compute in Hdoc; discriminate].
  exact (Hchanged later "w1" doc Hdoc Hgone).
Defined.

(** ** The workers *)

Section WorkerFacts.
Context {BQ : Type} `{Bull BQ}.

(** X13. A failed call is recorded as a completed job. The function the
    workers run never throws, whatever the processor and whatever the
    downstream service answers, so Bull never sees a failed attempt; and a
    job whose call to the service failed ends [completed], with the failure
    only inside its result, its attempts, error and [failedAt] untouched. *)
Theorem failed_call_is_recorded_completed
    processor jobId startTime endTime reply mongoMessage (s : System BQ) :
  (∃ s' result,
     processJob processor startTime endTime reply mongoMessage s = (s', Ok result)
     ∧ r_processingTime result = endTime - startTime)
  ∧ (∀ doc message,
       mongoUp s = true →
       jobModel s !! jobId = Some doc →
       let s' := (runJob proc_http jobId startTime endTime (reply_error message)
                    mongoMessage s).1 in
       ∃ doc', jobModel s' !! jobId = Some doc'
               ∧ Job.status doc' = completed
               ∧ Job.result doc'
                 = Some (mkJobResult false (Some message) (endTime - startTime))
               ∧ Job.attempts doc' = Job.attempts doc
               ∧ Job.error doc' = Job.error doc
               ∧ Job.failedAt doc' = Job.failedAt doc).
Proof.
  split.
  - unfold processJob. destruct processor.
    + do 2 eexists. split; reflexivity.
    + unfold bind, processCleanupExpiredJobs.
      destruct (JobModel_deleteMany _ s) as [s' [n|e]];
        do 2 eexists; split; reflexivity.
    + do 2 eexists. split; reflexivity.
  - intros doc message Hup Hdoc s'. subst s'.
    unfold runJob, processJob, processHttp, bind, ret, catch, onJobCompleted,
      JobModel_findOneAndUpdate.
    cbn [fst]. rewrite Hup. cbn [fst jobModel set_jobModel].
    rewrite lookup_alter_eq, Hdoc. cbn [fmap option_fmap option_map].
    eexists. split; [reflexivity|]. repeat split.
Qed.

(** X14. What a worker posts. Bull hands the processor the [jobData] object
    of [addJob], in which the submitted payload sits under [payload]; the
    processors read their fields from the object itself. So whatever the
    payload, the body posted to the downstream service is empty, for every
    job type; only the [x-user-id] header arrives, from the [userId] that
    [addJob] copied out of the payload. *)
Theorem postedBody_is_empty now gen jobType data options :
  postedBody jobType (addJob_jobData now gen jobType data options) = []
  ∧ postedUser (addJob_jobData now gen jobType data options)
    = prop_string <$> p_userId data.
Proof.
  split; [|reflexivity].
  unfold postedBody, postedParts.
  repeat (destruct (String.eqb jobType _); [reflexivity|]). reflexivity.
Qed.
End WorkerFacts.

Lemma failed_call_is_recorded_completed_witness :
  ∃ doc', jobModel (runJob proc_http "a1" 100 350 (reply_error "ECONNREFUSED") "down"
                      cancelScene).1 !! "a1" = Some doc'
          ∧ Job.status doc' = completed
          ∧ Job.result doc' = Some (mkJobResult false (Some "ECONNREFUSED") 250).
Proof.
  destruct (failed_call_is_recorded_completed proc_http "a1" 100 350
              (reply_error "ECONNREFUSED") "down" cancelScene) as [_ Hrun].
  destruct (Hrun (sampleJob "a1" "cleanup" "cleanup-expired-jobs" active 1 3 0)
              "ECONNREFUSED") as (doc' & Hdoc' & Hst & Hres & _).
  - reflexivity.
  - vm_compute. reflexivity.
  - exists doc'. repeat split; assumption.
Defined.

(** ** The scheduler's routes *)

Section SchedulerRouteFacts.
Context {BQ : Type} `{Bull BQ}.

(** X15. The bound of [POST /scheduler/delayed]. For an authenticated
    caller, a known queue and a known type, a delay above seven days
    (604800000 ms) is refused with [INVALID_DELAY] and nothing is written;
    every other delay, seven days exactly, zero and negative ones included,
    goes to [addJob], and when the store is up, the id free and Bull takes
    the job, the record is written [waiting] for the caller with that very
    delay. *)
Theorem scheduleDelayed_bound now gen h queue type data delayMs (s : System BQ) :
  truthyS (x_user_id h) = true →
  queue ∈ QUEUES →
  type ∈ JOB_TYPES →
  let body := mkDelayedBody (Some queue) (Some type) (Some data) (Some delayMs) in
  let out := scheduleDelayed now gen h body s in
  (604800000 < delayMs →
     out = (s, Err (AppError "Delay cannot exceed 7 days" 400 "INVALID_DELAY")))
  ∧ (delayMs ≤ 604800000 →
       ∀ q, mongoUp s = true →
            queues_get s queue = Some q →
            jobModel s !! orS (p_id data) gen = None →
            (∀ jobData opts, is_Some (q_add q type jobData opts)) →
            out.2 = Ok tt
            ∧ ∃ doc, jobModel out.1 !! orS (p_id data) gen = Some doc
                     ∧ Job.delay doc = delayMs
                     ∧ Job.userId doc = x_user_id h
                     ∧ Job.status doc = waiting
                     ∧ Job.queue doc = queue ∧ Job.type doc = type).
Proof.
  intros Huser Hqueue Htype body out.
  set (payload := {| p_id := p_id data; p_userId := Some (default "" (x_user_id h));
                     p_priority := p_priority data;
                     p_body := setProperty "scheduledBy" (default "" (x_user_id h))
                                 (p_body data) |}).
  assert (Hrun : out = if 604800000 <? delayMs
                       then (s, Err (AppError "Delay cannot exceed 7 days" 400
                                       "INVALID_DELAY"))
                       else scheduleDelayedJob now gen queue type payload delayMs s).
  { assert (Hq : queue ≠ "")
      by (intros ->; revert Hqueue; apply (bool_decide_unpack _); vm_compute; exact I).
    assert (Ht : type ≠ "")
      by (intros ->; revert Htype; apply (bool_decide_unpack _); vm_compute; exact I).
    apply String.eqb_neq in Hq, Ht.
    subst out body. unfold scheduleDelayed, requireUser. rewrite Huser.
    cbn [d_data d_delayMs d_queue d_type truthyS]. rewrite Hq, Ht.
    unfold includes.
    rewrite (bool_decide_eq_true_2 _ Hqueue), (bool_decide_eq_true_2 _ Htype).
    change (7 * 24 * 60 * 60 * 1000) with 604800000.
    destruct (604800000 <? delayMs); reflexivity. }
  rewrite Hrun. split.
  - intros Hbig. apply Z.ltb_lt in Hbig. now rewrite Hbig.
  - intros Hsmall q Hup Hget Hfree Hadd.
    apply Z.ltb_ge in Hsmall. rewrite Hsmall.
    unfold scheduleDelayedJob, bind. rewrite addJob_unfold. rewrite Hget, Hup.
    change (jd_id (addJob_jobData now gen type payload
                     (Some {| o_attempts := None; o_delay := Some delayMs;
                              o_priority := None; o_jobId := None |})))
      with (orS (p_id data) gen).
    rewrite Hfree.
    match goal with |- context [q_add q ?n ?jd ?o] =>
      destruct (Hadd jd o) as [q' Hq']; rewrite Hq' end.
    cbn [fst snd ret]. split; [reflexivity|].
    eexists. split.
    { cbn [queues_put set_queues jobModel set_jobModel]. apply lookup_insert_eq. }
    cbn. unfold orZ. destruct (Z.eqb_spec delayMs 0) as [->|_]; repeat split.
    all: destruct (x_user_id h) as [u|]; [reflexivity|discriminate].
Qed.

(** X16. What [POST /scheduler/jobs/:jobName/trigger] can start. For an
    admin, a name that is neither ['cleanup-expired-jobs'] nor
    ['health-check-services'] writes nothing: a name of a property of
    [Object.prototype] (['constructor'], ['toString'], ['__proto__'], ...)
    passes the route's test, reaches [addJob] without a queue and is
    answered 500 [INTERNAL_ERROR]; every other name is refused with 400
    [JOB_NOT_TRIGGERABLE]. So none of the other timers can be triggered. A
    trigger that succeeds writes a job of the queue ['cleanup'] whose type is
    the name, and for ['health-check-services'] that is a type
    [setupProcessors] binds no processor to. *)
Theorem triggerJob_outcomes now gen h jobName data (s : System BQ) :
  truthyS (x_user_id h) = true →
  x_user_role h = Some "admin" →
  let out := triggerJob now gen h jobName data s in
  (jobName ∈ objectPrototype →
     out = (s, Err (QueueNotFound "undefined"))
     ∧ errorHandler (QueueNotFound "undefined") = (500, "INTERNAL_ERROR"))
  ∧ (jobName ∉ objectPrototype →
     jobName ≠ "cleanup-expired-jobs" → jobName ≠ "health-check-services" →
     out = (s, Err (AppError "Cannot manually trigger this job type" 400
                      "JOB_NOT_TRIGGERABLE")))
  ∧ (∀ id, out.2 = Ok id →
       ∃ doc, jobModel out.1 !! id = Some doc
              ∧ Job.queue doc = "cleanup"
              ∧ Job.type doc = jobName
              ∧ (jobName = "cleanup-expired-jobs" ∨ jobName = "health-check-services")
              ∧ (processorOf (Job.queue doc) (Job.type doc) = None
                 ↔ jobName = "health-check-services")).
Proof.
  intros Huser Hadmin out.
  destruct (triggerJob now gen h jobName data s) as [s' r] eqn:Hrun.
  subst out. cbn [fst snd]. revert Hrun.
  unfold triggerJob, notAdmin. rewrite Huser, (bool_decide_eq_true_2 _ Hadmin).
  cbn [negb orb when]. unfold bind at 1. cbn [ret]. unfold systemJobs.
  assert (Hown : ∀ name : string,
            name = "cleanup-expired-jobs" ∨ name = "health-check-services" →
            name ∉ objectPrototype).
  { intros name [->| ->]; apply (bool_decide_unpack _); vm_compute; exact I. }
  destruct (String.eqb_spec jobName "cleanup-expired-jobs") as [->|Hn1].
  { pose proof (Hown _ (or_introl eq_refl)) as Hnot.
    rewrite addJob_unfold.
    destruct (queues_get s "cleanup") as [q|];
      [|intros [= <- <-]; repeat split; (contradiction || congruence || discriminate)].
    destruct (mongoUp s);
      [|intros [= <- <-]; repeat split; (contradiction || congruence || discriminate)].
    destruct (jobModel s !! _);
      [intros [= <- <-]; repeat split; (contradiction || congruence || discriminate)|].
    destruct (q_add q _ _ _) as [q'|];
      [|intros [= <- <-]; repeat split; (contradiction || congruence || discriminate)].
    intros [= <- <-]. split; [contradiction|]. split; [congruence|]. intros id [= <-].
    eexists. split.
    { cbn [queues_put set_queues jobModel set_jobModel]. apply lookup_insert_eq. }
    repeat split; [now left|discriminate|discriminate]. }
  destruct (String.eqb_spec jobName "health-check-services") as [->|Hn2].
  { pose proof (Hown _ (or_intror eq_refl)) as Hnot.
    rewrite addJob_unfold.
    destruct (queues_get s "cleanup") as [q|];
      [|intros [= <- <-]; repeat split; (contradiction || congruence || discriminate)].
    destruct (mongoUp s);
      [|intros [= <- <-]; repeat split; (contradiction || congruence || discriminate)].
    destruct (jobModel s !! _);
      [intros [= <- <-]; repeat split; (contradiction || congruence || discriminate)|].
    destruct (q_add q _ _ _) as [q'|];
      [|intros [= <- <-]; repeat split; (contradiction || congruence || discriminate)].
    intros [= <- <-]. split; [contradiction|]. split; [congruence|]. intros id [= <-].
    eexists. split.
    { cbn [queues_put set_queues jobModel set_jobModel]. apply lookup_insert_eq. }
    repeat split; now right. }
  unfold includes. destruct (decide (jobName ∈ objectPrototype)) as [Hin|Hnot].
  - rewrite (bool_decide_eq_true_2 _ Hin). intros [= <- <-].
    split; [now split|]. split; [contradiction|discriminate].
  - rewrite (bool_decide_eq_false_2 _ Hnot). intros [= <- <-].
    split; [contradiction|]. split; [reflexivity|discriminate].
Qed.

(** X17. What [POST /jobs] can answer. With the error handler of the
    service, a request that is refused gets 401, 400, 409 or 500, never 403
    or 404; 409 ([DUPLICATE_ENTRY]) exactly when the store already holds the
    id, and then nothing is written; 500 when the store is down, Bull
    rejects, or the queue manager has no such queue. *)
Theorem createJob_status_codes now gen h body (s : System BQ) e :
  (createJob now gen h body s).2 = Err e →
  (errorHandler e).1 ∈ [401; 400; 409; 500]
  ∧ ((errorHandler e).1 = 409 →
       (createJob now gen h body s).1 = s
       ∧ ∃ data, b_data body = Some data
                 ∧ is_Some (jobModel s !! orS (p_id data) gen))
  ∧ ((errorHandler e).1 = 401 ↔ truthyS (x_user_id h) = false).
Proof.
  destruct (createJob now gen h body s) as [s' r] eqn:Hrun.
  cbn [fst snd]. intros ->. revert Hrun.
  unfold createJob, requireUser. unfold bind at 1.
  destruct (truthyS (x_user_id h)) eqn:Huser; cbn [negb when ret throw].
  2:{ intros [= <- <-]. cbn. split; [repeat constructor|].
      split; [discriminate|]. split; reflexivity. }
  assert (H400 : ∀ m c, (errorHandler (AppError m 400 c)).1 ∈ [401; 400; 409; 500]
                        ∧ ((errorHandler (AppError m 400 c)).1 = 409 →
                             s = s ∧ ∃ data, b_data body = Some data
                                   ∧ is_Some (jobModel s !! orS (p_id data) gen))
                        ∧ ((errorHandler (AppError m 400 c)).1 = 401 ↔ true = false)).
  { intros m c. cbn. split; [repeat constructor|].
    split; [discriminate|]. split; discriminate. }
  assert (H500 : ∀ e0 s0, errorHandler e0 = (500, "INTERNAL_ERROR") →
                   (errorHandler e0).1 ∈ [401; 400; 409; 500]
                   ∧ ((errorHandler e0).1 = 409 →
                        s0 = s ∧ ∃ data, b_data body = Some data
                              ∧ is_Some (jobModel s !! orS (p_id data) gen))
                   ∧ ((errorHandler e0).1 = 401 ↔ true = false)).
  { intros e0 s0 ->. cbn. split; [repeat constructor|].
    split; [discriminate|]. split; discriminate. }
  destruct (b_data body) as [data|] eqn:Hdata; [|intros [= <- <-]; apply H400].
  destruct (truthyS (b_queue body) && truthyS (b_type body));
    [|intros [= <- <-]; apply H400].
  unfold bind at 1.
  destruct (negb (includes QUEUES _)); cbn [when ret throw];
    [intros [= <- <-]; apply H400|].
  unfold bind at 1.
  destruct (negb (includes JOB_TYPES _)); cbn [when ret throw];
    [intros [= <- <-]; apply H400|].
  rewrite addJob_unfold.
  destruct (queues_get s _) as [q|]; [|intros [= <- <-]; now apply H500].
  destruct (mongoUp s); [|intros [= <- <-]; now apply H500].
  cbn [jd_id addJob_jobData withUserId p_id].
  destruct (jobModel s !! _) as [old|] eqn:Hold.
  { intros [= <- <-]. cbn. split.
    { repeat constructor. }
    split; [|split; discriminate].
    intros _. split; [reflexivity|]. exists data. split; [reflexivity|].
    now rewrite Hold. }
  destruct (q_add q _ _ _) as [q'|]; [discriminate|].
  intros [= <- <-]. now apply H500.
Qed.
End SchedulerRouteFacts.

Lemma scheduleDelayed_bound_witness :
  let out := scheduleDelayed 1000 "job_1000_a" (userHeaders "u1")
               (mkDelayedBody (Some "notifications") (Some "send-notification")
                  (Some (mkPayload None None None [])) (Some (-5)))
               initialSystem in
  out.2 = Ok tt
  ∧ ∃ doc, jobModel out.1 !! "job_1000_a" = Some doc ∧ Job.delay doc = -5.
Proof.
  destruct (scheduleDelayed_bound 1000 "job_1000_a" (userHeaders "u1")
              "notifications" "send-notification" (mkPayload None None None [])
              (-5) initialSystem) as [_ Hsmall].
  - reflexivity.
  - apply (bool_decide_unpack _). vm_compute. exact I.
  - apply (bool_decide_unpack _). vm_compute. exact I.
  - destruct (Hsmall ltac:(lia) (mkListQueue true []))
      as (Hok & doc & Hdoc & Hdelay & _).
    + reflexivity.
    + reflexivity.
    + reflexivity.
    + intros jobData opts. cbn. unfold lq_add. cbn. eexists. reflexivity.
    + split; [exact Hok|]. exists doc. split; [exact Hdoc | exact Hdelay].
Defined.

Lemma triggerJob_outcomes_witness :
  triggerJob 10 "job_10_a" adminHeaders "update-queue-stats" None initialSystem
  = (initialSystem, Err (AppError "Cannot manually trigger this job type" 400
                           "JOB_NOT_TRIGGERABLE"))
  ∧ triggerJob 10 "job_10_a" adminHeaders "constructor" None initialSystem
    = (initialSystem, Err (QueueNotFound "undefined"))
  ∧ ∃ doc, jobModel (triggerJob 10 "job_10_a" adminHeaders "health-check-services"
                       None initialSystem).1 !! "job_10_a" = Some doc
           ∧ processorOf (Job.queue doc) (Job.type doc) = None.
Proof.
  split; [|split].
  - apply (triggerJob_outcomes 10 "job_10_a" adminHeaders "update-queue-stats" None
             initialSystem); [reflexivity|reflexivity| |discriminate|discriminate].
    apply (bool_decide_unpack _). vm_compute. exact I.
  - apply (triggerJob_outcomes 10 "job_10_a" adminHeaders "constructor" None
             initialSystem); [reflexivity|reflexivity|].
    apply (bool_decide_unpack _). vm_compute. exact I.
  - destruct (triggerJob_outcomes 10 "job_10_a" adminHeaders "health-check-services"
                None initialSystem) as (_ & _ & Hok); [reflexivity|reflexivity|].
    destruct (Hok "job_10_a") as (doc & Hdoc & _ & _ & _ & Hnone).
    + vm_compute. reflexivity.
    + exists doc. split; [exact Hdoc|]. now apply Hnone.
Defined.

Lemma createJob_status_codes_witness :
  (errorHandler (MongoDuplicateKey "w1")).1 = 409
  ∧ (createJob 10 "job_10_a" (userHeaders "u1")
       (mkCreateBody (Some "cleanup") (Some "cleanup-expired-jobs")
          (Some (mkPayload (Some "w1") None None [])) None) cancelScene).1
    = cancelScene.
Proof.
  destruct (createJob_status_codes 10 "job_10_a" (userHeaders "u1")
              (mkCreateBody (Some "cleanup") (Some "cleanup-expired-jobs")
                 (Some (mkPayload (Some "w1") None None [])) None) cancelScene
              (MongoDuplicateKey "w1")) as (_ & Hdup & _).
  - vm_compute. reflexivity.
  - split; [reflexivity|]. now apply Hdup.
Defined.

(** ** Pages of jobs *)

Lemma totalPagesOf_pos total limit :
  0 < limit → totalPagesOf total limit = (total + limit - 1) / limit.
Proof.
  intros Hpos. destruct limit as [|p|p]; try lia.
  unfold totalPagesOf, Qceiling, Qfloor, Qdiv, Qinv, Qmult, Qopp, inject_Z.
  cbn [Qnum Qden]. rewrite Z.mul_1_r, Pos.mul_1_l.
  apply (Z.div_unique_pos _ _ _ (Z.pos p - 1 - (- total) mod Z.pos p)).
  - pose proof (Z.mod_pos_bound (- total) (Z.pos p) ltac:(lia)). lia.
  - pose proof (Z.div_mod (- total) (Z.pos p) ltac:(lia)). lia.
Qed.

Lemma totalPagesOf_next total limit page :
  0 < limit → (page < totalPagesOf total limit ↔ page * limit < total).
Proof.
  intros Hpos. rewrite totalPagesOf_pos by assumption.
  pose proof (Z.div_mod (total + limit - 1) limit ltac:(lia)) as Hdm.
  pose proof (Z.mod_pos_bound (total + limit - 1) limit Hpos) as Hb.
  split; intros Hlt; nia.
Qed.

Lemma insertByCreatedAt_length j sorted :
  length (insertByCreatedAt j sorted) = S (length sorted).
Proof.
  induction sorted as [|k rest IH]; [reflexivity|]. cbn [insertByCreatedAt].
  destruct (Job.createdAt k <=? Job.createdAt j); cbn [length]; congruence.
Qed.

Lemma sortByCreatedAtDesc_length jobs :
  length (sortByCreatedAtDesc jobs) = length jobs.
Proof.
  induction jobs as [|j jobs IH]; [reflexivity|].
  cbn [sortByCreatedAtDesc foldr]. rewrite insertByCreatedAt_length.
  cbn [length]. f_equal. exact IH.
Qed.

(** Cutting a list into [k] pages of [l] and gluing them gives its first
    [k * l] elements. *)
Lemma pages_concat {A} (xs : list A) (l k : nat) :
  concat ((λ i, take l (drop (i * l) xs)) <$> seq 0 k) = take (k * l) xs.
Proof.
  induction k as [|k IH]; [reflexivity|].
  rewrite seq_S, fmap_app, concat_app, IH. cbn [fmap list_fmap concat plus].
  rewrite app_nil_r, take_take_drop. f_equal. lia.
Qed.

Lemma insertByCreatedAt_perm j sorted :
  insertByCreatedAt j sorted ≡ₚ j :: sorted.
Proof.
  induction sorted as [|k rest IH]; [reflexivity|]. cbn [insertByCreatedAt].
  destruct (Job.createdAt k <=? Job.createdAt j); [reflexivity|].
  rewrite IH. apply Permutation_swap.
Qed.

Lemma sortByCreatedAtDesc_perm jobs : sortByCreatedAtDesc jobs ≡ₚ jobs.
Proof.
  induction jobs as [|j jobs IH]; [reflexivity|].
  cbn [sortByCreatedAtDesc foldr]. rewrite insertByCreatedAt_perm.
  now apply Permutation_skip.
Qed.

Lemma insertByCreatedAt_sorted j sorted :
  StronglySorted (λ a b, Job.createdAt b ≤ Job.createdAt a) sorted →
  StronglySorted (λ a b, Job.createdAt b ≤ Job.createdAt a)
    (insertByCreatedAt j sorted).
Proof.
  induction 1 as [|k rest Hrest IH Hk]; cbn [insertByCreatedAt].
  - repeat constructor.
  - destruct (Z.leb_spec (Job.createdAt k) (Job.createdAt j)) as [Hle|Hgt].
    + constructor; [now constructor|]. constructor; [exact Hle|].
      eapply Forall_impl; [exact Hk|]. cbv beta. intros x Hx. lia.
    + constructor; [exact IH|].
      rewrite insertByCreatedAt_perm. constructor; [lia | exact Hk].
Qed.

Lemma sortByCreatedAtDesc_sorted jobs :
  StronglySorted (λ a b, Job.createdAt b ≤ Job.createdAt a)
    (sortByCreatedAtDesc jobs).
Proof.
  induction jobs as [|j jobs IH]; [constructor|].
  cbn [sortByCreatedAtDesc foldr]. now apply insertByCreatedAt_sorted.
Qed.

Section Pages.
Context {BQ : Type} `{Bull BQ}.

Lemma queueJobs_run h queueName q (s : System BQ) :
  x_user_role h = Some "admin" →
  queueName ∈ QUEUES →
  mongoUp s = true →
  let page := orZ (jq_page q) 1 in
  let limit := Z.min (orZ (jq_limit q) 20) 100 in
  let found := List.filter (jobsFilter queueName q) (map_to_list (jobModel s)).*2 in
  queueJobs h queueName q s
  = (s, Ok (take (Z.to_nat limit)
              (drop (Z.to_nat ((page - 1) * limit)) (sortByCreatedAtDesc found)),
            {| pg_page := page;
               pg_limit := limit;
               pg_total := Z.of_nat (length found);
               pg_totalPages := totalPagesOf (Z.of_nat (length found)) limit;
               pg_hasNext := page <? totalPagesOf (Z.of_nat (length found)) limit;
               pg_hasPrev := 1 <? page |})).
Proof.
  intros Hadmin Hqueue Hup page limit found.
  unfold queueJobs, requireAdmin, requireQueue, notAdmin, includes.
  rewrite (bool_decide_eq_true_2 _ Hadmin), (bool_decide_eq_true_2 _ Hqueue).
  cbn [negb when]. unfold bind, ret, JobModel_find. now rewrite Hup.
Qed.

(** X18. The pages of [GET /queues/:queueName/jobs]. For an admin, a known
    queue and a reachable store, with a page of at least 1 and a limit of at
    least 1 (or none given), and no two matching jobs created at the same
    time: the route answers; the limit used lies between 1 and 100 and
    bounds the page; [total] counts the matching jobs; [totalPages] is that
    count divided by the limit, rounded up; [hasNext] holds exactly when jobs
    remain after this page, [hasPrev] exactly after the first page; and the
    pages 1 to [totalPages], in order, make up a list that holds every
    matching job once and no other, latest first. There is one such list
    only, so the order is not the model's choice. *)
Theorem queueJobs_pagination h queueName q (s : System BQ) :
  x_user_role h = Some "admin" →
  queueName ∈ QUEUES →
  mongoUp s = true →
  1 ≤ orZ (jq_page q) 1 →
  1 ≤ orZ (jq_limit q) 20 →
  let found := List.filter (jobsFilter queueName q) (map_to_list (jobModel s)).*2 in
  let matching := sortByCreatedAtDesc found in
  let latestFirst := λ a b : Job.t, Job.createdAt b ≤ Job.createdAt a in
  let pageOf (p : nat) :=
    (queueJobs h queueName
       (mkJobsQuery (Some (Z.of_nat p)) (jq_limit q) (jq_status q) (jq_type q)
          (jq_userId q) (jq_from q) (jq_to q)) s).2 in
  NoDup (Job.createdAt <$> found) →
  ∃ data pg,
    queueJobs h queueName q s = (s, Ok (data, pg))
    ∧ 1 ≤ pg_limit pg ≤ 100
    ∧ Z.of_nat (length data) ≤ pg_limit pg
    ∧ pg_total pg = Z.of_nat (length matching)
    ∧ pg_totalPages pg = (pg_total pg + pg_limit pg - 1) / pg_limit pg
    ∧ (pg_hasNext pg = true ↔ pg_page pg * pg_limit pg < pg_total pg)
    ∧ (pg_hasPrev pg = true ↔ 1 < pg_page pg)
    ∧ (∃ pages,
         Forall2 (λ p d, ∃ pg', pageOf p = Ok (d, pg'))
           (seq 1 (Z.to_nat (pg_totalPages pg))) pages
         ∧ concat pages = matching)
    ∧ matching ≡ₚ found
    ∧ NoDup matching
    ∧ StronglySorted latestFirst matching
    ∧ ∀ other, other ≡ₚ found → StronglySorted latestFirst other →
               other = matching.
Proof.
  intros Hadmin Hqueue Hup Hpage Hlimit found matching latestFirst pageOf Hties.
  set (limit := Z.min (orZ (jq_limit q) 20) 100).
  assert (Hl : 1 ≤ limit ≤ 100) by (unfold limit; lia).
  do 2 eexists. split; [now apply queueJobs_run|].
  cbn [pg_limit pg_total pg_totalPages pg_hasNext pg_hasPrev pg_page].
  fold limit. fold found. fold matching.
  assert (Hlen : length matching = length found)
    by apply sortByCreatedAtDesc_length.
  assert (Hperm : matching ≡ₚ found) by apply sortByCreatedAtDesc_perm.
  assert (Hsorted : StronglySorted latestFirst matching)
    by apply sortByCreatedAtDesc_sorted.
  split; [exact Hl|]. split.
  { rewrite length_take. lia. }
  split; [now rewrite Hlen|]. split; [apply totalPagesOf_pos; lia|]. split.
  { rewrite Z.ltb_lt. apply totalPagesOf_next. lia. }
  split; [apply Z.ltb_lt|]. split; [|split; [exact Hperm|split; [|split]]].
  - set (k := Z.to_nat (totalPagesOf (Z.of_nat (length found)) limit)).
    exists ((λ i, take (Z.to_nat limit) (drop (i * Z.to_nat limit) matching))
              <$> seq 0 k).
    split.
    + rewrite <- (fmap_S_seq 0 k). apply Forall2_fmap, Forall_Forall2_diag, Forall_forall.
      intros i _. eexists. unfold pageOf.
      rewrite queueJobs_run by assumption. cbn [snd jq_page jq_limit orZ].
      fold limit.
      replace (Z.of_nat (S i) =? 0) with false by (symmetry; apply Z.eqb_neq; lia).
      do 3 f_equal. f_equal. lia.
    + rewrite pages_concat. apply take_ge.
      assert (Hpages : Z.of_nat (length found) ≤ Z.of_nat k * limit).
      { unfold k. rewrite totalPagesOf_pos by lia.
        pose proof (Z.div_mod (Z.of_nat (length found) + limit - 1) limit ltac:(lia)).
        pose proof (Z.mod_pos_bound (Z.of_nat (length found) + limit - 1) limit ltac:(lia)).
        rewrite Z2Nat.id by (apply Z.div_pos; lia). nia. }
      rewrite Hlen. nia.
  - rewrite Hperm. exact (NoDup_fmap_1 _ _ Hties).
  - exact Hsorted.
  - intros other Hother Hdesc.
    apply (StronglySorted_unique_strong latestFirst); [|exact Hdesc|exact Hsorted|].
    + intros x1 x2 Hx1 Hx2 H12 H21. rewrite Hother in Hx1. rewrite Hperm in Hx2.
      assert (Hsame : Job.createdAt x1 = Job.createdAt x2)
        by (unfold latestFirst in *; lia).
      apply list_elem_of_lookup in Hx1 as [i1 Hi1].
      apply list_elem_of_lookup in Hx2 as [i2 Hi2].
      assert (i1 = i2).
      { apply (NoDup_lookup _ _ _ (Job.createdAt x1) Hties);
          rewrite list_lookup_fmap; [now rewrite Hi1 | now rewrite Hi2, Hsame]. }
      congruence.
    + now rewrite Hother, Hperm.
Qed.
End Pages.

Lemma queueJobs_pagination_witness :
  ∃ data pg,
    queueJobs adminHeaders "cleanup" (mkJobsQuery (Some 2) (Some 1) None None None None None)
      twoUsers = (twoUsers, Ok (data, pg))
    ∧ Job.jobId <$> data = ["u1-a"]
    ∧ pg_total pg = 2
    ∧ pg_totalPages pg = 2 ∧ pg_hasNext pg = false ∧ pg_hasPrev pg = true.
Proof.
  destruct (queueJobs_pagination adminHeaders "cleanup"
              (mkJobsQuery (Some 2) (Some 1) None None None None None) twoUsers)
    as (data & pg & Hrun & _).
  - reflexivity.
  - apply (bool_decide_unpack _). vm_compute. exact I.
  - reflexivity.
  - vm_compute. discriminate.
  - vm_compute. discriminate.
  - apply (bool_decide_unpack _). vm_compute. exact I.
  - exists data, pg. split; [exact Hrun|].
    assert (Hcomp : (queueJobs adminHeaders "cleanup"
                       (mkJobsQuery (Some 2) (Some 1) None None None None None)
                       twoUsers).2
                    = Ok (data, pg)) by now rewrite Hrun.
    vm_compute in Hcomp. injection Hcomp as <- <-. repeat split.
Defined.

(** ** Totals *)

Section Totals.
Context {BQ : Type} `{Bull BQ}.

Lemma queue_stat_total (q : BQ) stat :
  queue_stat q = Some stat →
  st_total stat = st_waiting stat + st_active stat + st_completed stat
                  + st_failed stat + st_delayed stat.
Proof.
  unfold queue_stat.
  destruct (q_jobs q b_waiting); [|discriminate].
  destruct (q_jobs q b_active); [|discriminate].
  destruct (q_jobs q b_completed); [|discriminate].
  destruct (q_jobs q b_failed); [|discriminate].
  destruct (q_jobs q b_delayed); [|discriminate].
  cbn. now intros [= <-].
Qed.

Lemma stats_of_total (s : System BQ) names entries :
  stats_of s names = Ok entries →
  Forall (λ e, st_total e.2 = st_waiting e.2 + st_active e.2 + st_completed e.2
                              + st_failed e.2 + st_delayed e.2) entries.
Proof.
  revert entries. induction names as [|name names IH]; intros entries.
  - intros [= <-]. constructor.
  - cbn [stats_of]. destruct (queues_get s name) as [q|]; [|apply IH].
    destruct (queue_stat q) as [stat|] eqn:Hstat; [|discriminate].
    destruct (stats_of s names) as [rest|e]; [|discriminate].
    intros [= <-]. constructor; [exact (queue_stat_total q stat Hstat) | now apply IH].
Qed.

Lemma addTotals_sum stats acc :
  Forall (λ st, st_total st = st_waiting st + st_active st + st_completed st
                              + st_failed st + st_delayed st) stats →
  let totals := foldl addTotals acc stats in
  totalJobs totals - totalCompleted totals - totalFailed totals
  - totalActive totals - totalWaiting totals
  = totalJobs acc - totalCompleted acc - totalFailed acc
    - totalActive acc - totalWaiting acc
    + foldr Z.add 0 (st_delayed <$> stats).
Proof.
  intros Hall. revert acc. induction Hall as [|st stats Hst _ IH]; intros acc.
  - cbn. lia.
  - cbn [foldl fmap list_fmap foldr]. cbn zeta in IH. rewrite IH.
    cbn [addTotals totalJobs totalCompleted totalFailed totalActive totalWaiting].
    lia.
Qed.

(** X19. The totals of [GET /scheduler/metrics]. For an admin and readable
    queues the route answers, and [totalJobs] exceeds the sum of
    [totalCompleted], [totalFailed], [totalActive] and [totalWaiting] by the
    number of delayed jobs, which the totals show nowhere else. *)
Theorem systemMetrics_totals h (s : System BQ) entries :
  x_user_role h = Some "admin" →
  stats_of s (queues s).*1 = Ok entries →
  ∃ totals,
    systemMetrics h s = (s, Ok (totals, entries))
    ∧ totalJobs totals
      = totalCompleted totals + totalFailed totals + totalActive totals
        + totalWaiting totals + foldr Z.add 0 (st_delayed ∘ snd <$> entries).
Proof.
  intros Hadmin Hstats.
  unfold systemMetrics, requireAdmin, notAdmin.
  rewrite (bool_decide_eq_true_2 _ Hadmin). cbn [negb when].
  unfold bind, ret, getQueueStats. cbn [truthyS]. rewrite Hstats.
  eexists. split; [reflexivity|].
  assert (Hall : Forall (λ st, st_total st = st_waiting st + st_active st
                               + st_completed st + st_failed st + st_delayed st)
                   entries.*2).
  { apply Forall_fmap. exact (stats_of_total s _ _ Hstats). }
  pose proof (addTotals_sum entries.*2 (mkSystemTotals 0 0 0 0 0) Hall) as Hsum.
  cbn zeta in Hsum.
  cbn [totalJobs totalCompleted totalFailed totalActive totalWaiting] in Hsum.
  rewrite <- list_fmap_compose in Hsum. lia.
Qed.
End Totals.

Lemma systemMetrics_totals_witness :
  let s := (scheduleDelayed 1000 "job_1000_a" (userHeaders "u1")
              (mkDelayedBody (Some "notifications") (Some "send-notification")
                 (Some (mkPayload None None None [])) (Some 60000))
              unhealthyQueues).1 in
  ∃ totals entries,
    systemMetrics adminHeaders s = (s, Ok (totals, entries))
    ∧ totalJobs totals = 117
    ∧ totalCompleted totals + totalFailed totals + totalActive totals
      + totalWaiting totals = 116.
Proof.
  intros s.
  destruct (stats_of s (queues s).*1) as [entries|e] eqn:Hstats;
    [|vm_compute in Hstats; discriminate].
  destruct (systemMetrics_totals adminHeaders s entries eq_refl Hstats)
    as (totals & Hrun & _).
  exists totals, entries. split; [exact Hrun|].
  pose proof (f_equal snd Hrun) as Hres. vm_compute in Hres.
  injection Hres as <- _. split; reflexivity.
Defined.

(** ** The rollup by type *)





(** ** The timers of the scheduler *)

Lemma jobs_get_Some name m i :
  jobs_get name m = Some i → (name, i) ∈ m.
Proof.
  unfold jobs_get. induction m as [|[k v] m IH]; [discriminate|].
  cbn [List.find fst]. destruct (String.eqb_spec k name) as [->|Hne].
  - intros [= <-]. now left.
  - intros Hm. right. now apply IH.
Qed.

Lemma jobs_get_None name m :
  jobs_get name m = None ↔ name ∉ m.*1.
Proof.
  unfold jobs_get. induction m as [|[k v] m IH].
  - split; [intros _; apply not_elem_of_nil | reflexivity].
  - cbn [List.find fst fmap list_fmap]. rewrite not_elem_of_cons.
    destruct (String.eqb_spec k name) as [->|Hne].
    + split; [discriminate | now intros [? _]].
    + rewrite IH. split; [now split | now intros [_ ?]].
Qed.

Lemma jobs_delete_keys name m :
  (jobs_delete name m).*1 = List.filter (λ k, negb (String.eqb k name)) m.*1.
Proof.
  induction m as [|[k v] m IH]; [reflexivity|].
  cbn [jobs_delete List.filter fmap list_fmap fst].
  destruct (negb (String.eqb k name)); cbn [fmap list_fmap fst]; f_equal; exact IH.
Qed.

Lemma jobs_delete_values name m i :
  i ∈ (jobs_delete name m).*2 → i ∈ m.*2.
Proof.
  intros Hi. apply list_elem_of_fmap in Hi as ([k v] & -> & Hkv).
  unfold jobs_delete in Hkv. apply list_elem_of_In, filter_In in Hkv as [Hkv _].
  apply list_elem_of_fmap. exists (k, v). split; [reflexivity|].
  now apply list_elem_of_In.
Qed.

Lemma jobs_set_values name v m i :
  i ∈ (jobs_set name v m).*2 → i = v ∨ i ∈ m.*2.
Proof.
  induction m as [|[k w] m IH]; cbn [jobs_set].
  - intros Hi. left. apply list_elem_of_singleton in Hi. exact Hi.
  - destruct (String.eqb k name); cbn [fmap list_fmap snd]; intros Hi;
      apply elem_of_cons in Hi as [->|Hi].
    + now left.
    + right. now right.
    + right. now left.
    + destruct (IH Hi) as [->|Hm]; [now left | right; now right].
Qed.

Lemma jobs_set_set name v w m :
  jobs_set name w (jobs_set name v m) = jobs_set name w m.
Proof.
  induction m as [|[k x] m IH]; cbn [jobs_set].
  - now rewrite String.eqb_refl.
  - destruct (String.eqb k name) eqn:Hk; cbn [jobs_set].
    + now rewrite String.eqb_refl.
    + rewrite Hk. f_equal. exact IH.
Qed.

Lemma jobs_set_keys name v m :
  name ∈ m.*1 → (jobs_set name v m).*1 = m.*1.
Proof.
  induction m as [|[k x] m IH]; [inversion 1|].
  cbn [jobs_set fmap list_fmap fst]. intros Hin.
  destruct (String.eqb_spec k name) as [->|Hne]; [reflexivity|].
  cbn [fmap list_fmap fst]. f_equal. apply IH.
  apply elem_of_cons in Hin as [->|Hin]; [congruence | exact Hin].
Qed.

Lemma cron_stop_other i j cs : i ≠ j → cron_stop j cs !! i = cs !! i.
Proof. intros Hne. unfold cron_stop. apply list_lookup_alter_ne. congruence. Qed.

Lemma cron_stop_all i (m : list (string * nat)) cs :
  i ∉ m.*2 → foldl (λ cs kv, cron_stop kv.2 cs) cs m !! i = cs !! i.
Proof.
  revert cs. induction m as [|[k v] m IH]; intros cs Hi; [reflexivity|].
  cbn [foldl snd]. cbn [fmap list_fmap snd] in Hi.
  apply not_elem_of_cons in Hi as [Hne Hi].
  rewrite IH by exact Hi. now apply cron_stop_other.
Qed.

(** X21. [cancelScheduledJob] on the registry. The call returns [true]
    exactly for a name [getScheduledJobs] lists; afterwards the name is not
    listed, the other names are listed as before, in the same order, and a
    second cancellation of the name returns [false] and changes nothing. *)
Theorem cancelScheduledJob_listing jobName sch :
  let out := cancelScheduledJob jobName sch in
  (out.2 = true ↔ jobName ∈ getScheduledJobs sch)
  ∧ getScheduledJobs out.1
    = List.filter (λ name, negb (String.eqb name jobName)) (getScheduledJobs sch)
  ∧ (jobName ∉ getScheduledJobs out.1)
  ∧ cancelScheduledJob jobName out.1 = (out.1, false).
Proof.
  intros out. subst out. unfold cancelScheduledJob, getScheduledJobs.
  assert (Hgone : jobName ∉ (jobs_delete jobName (jobs sch)).*1).
  { rewrite jobs_delete_keys. intros Hin.
    apply list_elem_of_In, filter_In in Hin as [_ Hne].
    now rewrite String.eqb_refl in Hne. }
  destruct (jobs_get jobName (jobs sch)) as [i|] eqn:Hget; cbn [fst snd jobs].
  - split.
    { split; [intros _|reflexivity]. apply jobs_get_Some in Hget.
      apply list_elem_of_fmap. now exists (jobName, i). }
    split; [apply jobs_delete_keys|]. split; [exact Hgone|].
    apply jobs_get_None in Hgone. now rewrite Hgone.
  - apply jobs_get_None in Hget as Hnot. split.
    { split; [discriminate | intros Hin; contradiction]. }
    split.
    { clear Hget Hgone. induction (jobs sch) as [|[k v] m IH]; [reflexivity|].
      cbn [fmap list_fmap fst List.filter] in *.
      apply not_elem_of_cons in Hnot as [Hne Hnot].
      destruct (String.eqb_spec k jobName) as [->|_]; [congruence|].
      cbn [negb]. f_equal. now apply IH. }
    split; [exact Hnot|]. now rewrite Hget.
Qed.

Section TimerFacts.
Context {BQ : Type} `{Bull BQ}.
Variable validCron : string → bool.

(** One call keeps a running timer that the registry does not hold. *)
Lemma schedulerCall_keeps_orphan c sch i cron :
  cronJobs sch !! i = Some cron →
  i ∉ (jobs sch).*2 →
  cronJobs (schedulerCall validCron c sch) !! i = Some cron
  ∧ i ∉ (jobs (schedulerCall validCron c sch)).*2.
Proof.
  intros Hcron Hfree. destruct c as [name expr task|jobName|]; cbn [schedulerCall].
  - unfold scheduleJob. destruct (validCron expr); cbn [fst cronJobs jobs];
      [|now split].
    split.
    + rewrite lookup_app_l; [exact Hcron|]. now apply lookup_lt_Some in Hcron.
    + intros Hin. apply jobs_set_values in Hin as [->|Hin]; [|contradiction].
      apply lookup_lt_Some in Hcron. lia.
  - unfold cancelScheduledJob.
    destruct (jobs_get jobName (jobs sch)) as [j|] eqn:Hget; cbn [fst cronJobs jobs];
      [|now split].
    split.
    + rewrite cron_stop_other; [exact Hcron|]. intros ->.
      apply Hfree. apply jobs_get_Some in Hget.
      apply list_elem_of_fmap. now exists (jobName, j).
    + intros Hin. now apply jobs_delete_values in Hin.
  - unfold stop. cbn [cronJobs jobs]. split; [|apply not_elem_of_nil].
    now rewrite cron_stop_all.
Qed.

(** X22. A timer registered under a name already taken can never be
    stopped. When [scheduleJob] registers a second timer under the name of a
    first, the registry forgets the first while it keeps running: the name
    is listed as before, and whatever is scheduled, cancelled or stopped
    afterwards, [stop()] included, the first timer still runs and still
    fires its task. *)
Theorem rescheduled_timer_never_stops name expr1 task1 expr2 task2 sch calls :
  validCron expr1 = true →
  validCron expr2 = true →
  Forall (λ kv, (kv.2 < length (cronJobs sch))%nat) (jobs sch) →
  let first := length (cronJobs sch) in
  let sch1 := (scheduleJob validCron name expr1 task1 sch).1 in
  let sch2 := (scheduleJob validCron name expr2 task2 sch1).1 in
  let final := foldl (λ st c, schedulerCall validCron c st) sch2 calls in
  getScheduledJobs sch2 = getScheduledJobs sch1
  ∧ jobs_get name (jobs sch2) = Some (S first)
  ∧ cronJobs final !! first = Some (mkCronJob expr1 task1 true)
  ∧ ∀ now gen, fire (BQ:=BQ) now gen final first = runTask now gen task1.
Proof.
  intros Hv1 Hv2 Hwf first sch1 sch2 final.
  assert (Hsch1 : sch1 = {| cronJobs := cronJobs sch ++ [mkCronJob expr1 task1 true];
                            jobs := jobs_set name first (jobs sch) |}).
  { subst sch1. unfold scheduleJob. now rewrite Hv1. }
  assert (Hsch2 : sch2 = {| cronJobs := cronJobs sch1 ++ [mkCronJob expr2 task2 true];
                            jobs := jobs_set name (length (cronJobs sch1)) (jobs sch1) |}).
  { subst sch2. unfold scheduleJob. now rewrite Hv2. }
  assert (Hlen1 : length (cronJobs sch1) = S first).
  { rewrite Hsch1. cbn [cronJobs]. rewrite length_app. cbn. lia. }
  assert (Hin1 : name ∈ (jobs sch1).*1).
  { rewrite Hsch1. cbn [jobs]. clear. induction (jobs sch) as [|[k v] m IH];
      cbn [jobs_set]; [now left|].
    destruct (String.eqb_spec k name) as [->|_]; cbn [fmap list_fmap fst];
      [now left | now right]. }
  assert (Hcron : cronJobs sch2 !! first = Some (mkCronJob expr1 task1 true)).
  { rewrite Hsch2, Hsch1. cbn [cronJobs]. rewrite <- app_assoc.
    now rewrite lookup_app_r, Nat.sub_diag by reflexivity. }
  assert (Hfree : first ∉ (jobs sch2).*2).
  { rewrite Hsch2. cbn [jobs]. rewrite Hlen1, Hsch1. cbn [jobs].
    rewrite jobs_set_set. intros Hin.
    apply jobs_set_values in Hin as [Heq|Hin].
    - lia.
    - apply list_elem_of_fmap in Hin as ([k v] & Hv & Hkv). cbn [snd] in Hv.
      rewrite Forall_forall in Hwf. specialize (Hwf _ Hkv). cbn [snd] in Hwf.
      subst first. lia. }
  split; [|split].
  - unfold getScheduledJobs. rewrite Hsch2. cbn [jobs]. now apply jobs_set_keys.
  - rewrite Hsch2, Hlen1. cbn [jobs]. clear -Hin1. unfold jobs_get.
    induction (jobs sch1) as [|[k v] m IH]; [inversion Hin1|].
    cbn [jobs_set]. destruct (String.eqb_spec k name) as [->|Hne].
    + cbn [List.find fst]. now rewrite String.eqb_refl.
    + cbn [List.find fst]. destruct (String.eqb_spec k name); [congruence|].
      apply IH. cbn [fmap list_fmap fst] in Hin1.
      apply elem_of_cons in Hin1 as [->|Hin1]; [congruence | exact Hin1].
  - assert (Hfinal : cronJobs final !! first = Some (mkCronJob expr1 task1 true)
                     ∧ first ∉ (jobs final).*2).
    { subst final. clear Hsch2. revert Hcron Hfree. generalize sch2.
      induction calls as [|c calls IH]; intros st Hcron Hfree; [now split|].
      cbn [foldl].
      destruct (schedulerCall_keeps_orphan c st first _ Hcron Hfree) as [Hc Hf].
      now apply IH. }
    destruct Hfinal as [Hrun _]. split; [exact Hrun|].
    intros now gen. unfold fire. now rewrite Hrun.
Qed.
End TimerFacts.

Lemma cancelScheduledJob_listing_witness :
  let sch := (scheduleRecurringJobs (λ _, true) (mkJobScheduler [] [])).1 in
  (cancelScheduledJob "update-queue-stats" sch).2 = true
  ∧ getScheduledJobs (cancelScheduledJob "update-queue-stats" sch).1
    = ["cleanup-expired-jobs"; "health-check-services"; "process-stalled-jobs";
       "archive-old-jobs"].
Proof.
  intros sch.
  destruct (cancelScheduledJob_listing "update-queue-stats" sch)
    as (Hret & Hlist & _ & _).
  split.
  - apply Hret. apply (bool_decide_unpack _). vm_compute. exact I.
  - rewrite Hlist. vm_compute. reflexivity.
Defined.

Lemma rescheduled_timer_never_stops_witness :
  let sch1 := (scheduleRepeatingJob (λ _, true) 1000 "cleanup" "cleanup-expired-jobs"
                 (mkPayload None None None []) "0 * * * *"
                 (mkJobScheduler [] [])).1 in
  let sch2 := (scheduleRepeatingJob (λ _, true) 1000 "cleanup" "cleanup-expired-jobs"
                 (mkPayload None None None []) "30 * * * *" sch1).1 in
  let final := stop (cancelScheduledJob "cleanup-cleanup-expired-jobs-1000" sch2).1 in
  getScheduledJobs sch2 = ["cleanup-cleanup-expired-jobs-1000"]
  ∧ getScheduledJobs final = []
  ∧ cronJobs final !! 0%nat
    = Some (mkCronJob "0 * * * *"
              (task_addJob "cleanup" "cleanup-expired-jobs" (mkPayload None None None []))
              true).
Proof.
  intros sch1 sch2 final.
  destruct (rescheduled_timer_never_stops (BQ:=ListQueue) (λ _, true)
              "cleanup-cleanup-expired-jobs-1000" "0 * * * *"
              (task_addJob "cleanup" "cleanup-expired-jobs" (mkPayload None None None []))
              "30 * * * *"
              (task_addJob "cleanup" "cleanup-expired-jobs" (mkPayload None None None []))
              (mkJobScheduler [] [])
              [call_cancelScheduledJob "cleanup-cleanup-expired-jobs-1000"; call_stop])
    as (_ & _ & Hruns & _).
  - reflexivity.
  - reflexivity.
  - constructor.
  - split; [vm_compute; reflexivity|]. split; [vm_compute; reflexivity|].
    exact Hruns.
Defined.

(** ** The list of queues *)

Lemma mapM_total {A B} (f : A → option B) (g : A → B) xs :
  (∀ x, f x = Some (g x)) → mapM f xs = Some (g <$> xs).
Proof.
  intros Hf. induction xs as [|x xs IH]; [reflexivity|].
  cbn [mapM]. rewrite Hf, IH. reflexivity.
Qed.

Section QueueListFacts.
Context {BQ : Type} `{Bull BQ}.

Lemma queues_get_listed (s : System BQ) name q :
  queues_get s name = Some q → name ∈ (queues s).*1.
Proof.
  unfold queues_get. induction (queues s) as [|[k v] m IH]; [discriminate|].
  cbn [List.find fst fmap list_fmap].
  destruct (String.eqb_spec k name) as [->|_]; [intros _; now left|].
  intros Hm. right. now apply IH.
Qed.

Lemma stats_of_find (s : System BQ) names entries name q stat :
  stats_of s names = Ok entries →
  name ∈ names →
  queues_get s name = Some q →
  queue_stat q = Some stat →
  List.find (λ kv, String.eqb kv.1 name) entries = Some (name, stat).
Proof.
  intros Hstats Hin Hq Hstat. revert entries Hstats Hin.
  induction names as [|name0 names IH]; intros entries Hstats Hin; [inversion Hin|].
  cbn [stats_of] in Hstats.
  destruct (String.eqb_spec name0 name) as [->|Hne].
  - rewrite Hq, Hstat in Hstats.
    destruct (stats_of s names) as [rest|e]; [|discriminate].
    injection Hstats as <-. cbn [List.find fst]. now rewrite String.eqb_refl.
  - apply elem_of_cons in Hin as [->|Hin]; [congruence|].
    destruct (queues_get s name0) as [q0|]; [|now apply IH].
    destruct (queue_stat q0) as [stat0|]; [|discriminate].
    destruct (stats_of s names) as [rest|e]; [|discriminate].
    injection Hstats as <-. cbn [List.find fst].
    destruct (String.eqb_spec name0 name); [congruence|]. now apply IH.
Qed.

(** X23. [GET /queues] does show the live counts. For an admin, a reachable
    store and readable queues the route answers with one entry per queue
    name, in the order of [QUEUES], and the entry of a queue the manager
    holds carries the counts Bull reports for it; a queue without a document
    is shown active, with health ['unknown'] and a rate of zero. *)
Theorem listQueues_liveStats h (s : System BQ) entries queueName q stat :
  x_user_role h = Some "admin" →
  mongoUp s = true →
  stats_of s (queues s).*1 = Ok entries →
  queueName ∈ QUEUES →
  queues_get s queueName = Some q →
  queue_stat q = Some stat →
  ∃ views,
    listQueues h s = (s, Ok views)
    ∧ qv_name <$> views = QUEUES
    ∧ ∃ view, view ∈ views
              ∧ qv_name view = queueName
              ∧ qv_liveStats view = live_stat stat
              ∧ ((∀ d, d ∈ (map_to_list (queueModel s)).*2 →
                       QueueDoc.name d ≠ queueName) →
                   qv_isActive view = true
                   ∧ qv_healthStatus view = None
                   ∧ qv_processingRate view = 0).
Proof.
  intros Hadmin Hup Hstats Hqueue Hq Hstat.
  set (docs := (map_to_list (queueModel s)).*2).
  set (viewOf := λ name,
         queueView name
           match List.find (λ kv : string * QStat, String.eqb kv.1 name) entries with
           | Some (_, st) => live_stat st
           | None => live_empty
           end
           (List.find (λ d, String.eqb (QueueDoc.name d) name) docs)).
  exists (viewOf <$> QUEUES). split; [|split].
  - unfold listQueues, requireAdmin, notAdmin.
    rewrite (bool_decide_eq_true_2 _ Hadmin). cbn [negb when].
    unfold bind, ret, getQueueStats, getSchedulerStats. cbn [truthyS].
    rewrite Hstats, Hup. fold docs.
    rewrite (mapM_total _ viewOf); [reflexivity|].
    intros name. unfold viewOf. cbn [liveStatsOf].
    now destruct (List.find _ entries) as [[? ?]|].
  - rewrite <- list_fmap_compose. apply list_fmap_id.
  - exists (viewOf queueName). split; [now apply list_elem_of_fmap_2|].
    split; [reflexivity|]. split.
    + unfold viewOf. cbn [queueView qv_liveStats].
      rewrite (stats_of_find s _ entries queueName q stat Hstats
                 (queues_get_listed s queueName q Hq) Hq Hstat).
      reflexivity.
    + intros Hnone.
      assert (Hfind : List.find (λ d, String.eqb (QueueDoc.name d) queueName) docs
                      = None).
      { destruct (List.find _ docs) as [d|] eqn:Hd; [|reflexivity].
        apply find_some in Hd as [Hin Hname]. apply String.eqb_eq in Hname.
        exfalso. apply (Hnone d); [now apply list_elem_of_In | exact Hname]. }
      unfold viewOf. rewrite Hfind. repeat split.
Qed.
End QueueListFacts.

Lemma listQueues_liveStats_witness :
  ∃ views view,
    listQueues adminHeaders unhealthyQueues = (unhealthyQueues, Ok views)
    ∧ view ∈ views
    ∧ qv_name view = "cleanup"
    ∧ qv_liveStats view = live_stat (mkQStat 0 0 2 3 0 5)
    ∧ qv_healthStatus view = None.
Proof.
  destruct (stats_of unhealthyQueues (queues unhealthyQueues).*1)
    as [entries|e] eqn:Hstats; [|vm_compute in Hstats; discriminate].
  destruct (listQueues_liveStats adminHeaders unhealthyQueues entries "cleanup"
              (queueWith 2 3) (mkQStat 0 0 2 3 0 5))
    as (views & Hrun & _ & view & Hin & Hname & Hlive & Hfresh).
  - reflexivity.
  - reflexivity.
  - exact Hstats.
  - apply (bool_decide_unpack _). vm_compute. exact I.
  - reflexivity.
  - vm_compute. reflexivity.
  - exists views, view. repeat split; try assumption.
    apply Hfresh. intros d Hd. vm_compute in Hd. inversion Hd.
Defined.

(** ** The jobs of a user *)

Lemma insertByCreatedAt_elem j k sorted :
  k ∈ insertByCreatedAt j sorted → k = j ∨ k ∈ sorted.
Proof.
  induction sorted as [|x rest IH]; cbn [insertByCreatedAt].
  - intros Hk. left. now apply list_elem_of_singleton in Hk.
  - destruct (Job.createdAt x <=? Job.createdAt j); intros Hk.
    + apply elem_of_cons in Hk as [->|Hk]; [now left | now right].
    + apply elem_of_cons in Hk as [->|Hk]; [right; now left|].
      destruct (IH Hk) as [->|Hrest]; [now left | right; now right].
Qed.

Lemma sortByCreatedAtDesc_elem k jobs :
  k ∈ sortByCreatedAtDesc jobs → k ∈ jobs.
Proof.
  induction jobs as [|j jobs IH]; [trivial|].
  cbn [sortByCreatedAtDesc foldr]. intros Hk.
  apply insertByCreatedAt_elem in Hk as [->|Hk]; [now left|].
  right. now apply IH.
Qed.

Section UserJobsFacts.
Context {BQ : Type} `{Bull BQ}.

(** X24. [GET /jobs/user/:userId] shows a user's jobs to that user and to
    admins only, and nothing else. Another authenticated user gets 403. For
    the user or an admin, a reachable store, a page of at least 1 and a limit
    of at least 1 (or none given), the route answers; every entry is the
    summary of a stored job whose [userId] is the one asked for; the limit is
    the one asked for, without the cap of 100 the queue listing has, and it
    bounds the page; [total] counts the matching jobs, and [totalPages] is
    that count divided by the limit, rounded up. *)
Theorem userJobs_listing h userId q (s : System BQ) :
  truthyS (x_user_id h) = true →
  (x_user_role h ≠ Some "admin" → x_user_id h ≠ Some userId →
     userJobs h userId q s = (s, Err (AppError "Access denied" 403 "FORBIDDEN")))
  ∧ (x_user_role h = Some "admin" ∨ x_user_id h = Some userId →
       mongoUp s = true →
       1 ≤ orZ (uq_page q) 1 →
       1 ≤ orZ (uq_limit q) 20 →
       ∃ data info,
         userJobs h userId q s = (s, Ok (data, info))
         ∧ (∀ entry, entry ∈ data →
              ∃ job, job ∈ (map_to_list (jobModel s)).*2
                     ∧ Job.userId job = Some userId
                     ∧ entry = jobSummary job)
         ∧ pi_limit info = orZ (uq_limit q) 20
         ∧ Z.of_nat (length data) ≤ pi_limit info
         ∧ pi_total info
           = Z.of_nat (length (List.filter (userJobsFilter userId q)
                                 (map_to_list (jobModel s)).*2))
         ∧ pi_totalPages info
           = (pi_total info + pi_limit info - 1) / pi_limit info).
Proof.
  intros Huser. unfold userJobs, requireUser. rewrite Huser. cbn [negb when].
  split.
  - intros Hrole Hother. unfold notAdmin.
    rewrite (bool_decide_eq_false_2 _ Hrole), (bool_decide_eq_false_2 _ Hother).
    reflexivity.
  - intros Hperm Hup Hpage Hlimit.
    assert (Hallowed : notAdmin h && negb (bool_decide (x_user_id h = Some userId))
                       = false).
    { unfold notAdmin. destruct Hperm as [Hadmin|Hself].
      - now rewrite (bool_decide_eq_true_2 _ Hadmin).
      - rewrite (bool_decide_eq_true_2 _ Hself). apply andb_false_r. }
    rewrite Hallowed. cbn [when]. unfold bind, ret, JobModel_find. rewrite Hup.
    unfold createPaginationResponse, createPaginationOptions. cbn [fst].
    do 2 eexists. split; [reflexivity|].
    cbn [pi_limit pi_total pi_totalPages]. split; [|split; [reflexivity|split]].
    + intros entry Hentry.
      apply list_elem_of_fmap in Hentry as (job & -> & Hjob).
      apply subseteq_take, subseteq_drop, sortByCreatedAtDesc_elem in Hjob.
      apply list_elem_of_In, filter_In in Hjob as [Hin Hsel].
      exists job. split; [now apply list_elem_of_In|]. split; [|reflexivity].
      unfold userJobsFilter in Hsel. rewrite !andb_true_iff in Hsel.
      destruct Hsel as [[[Hu _] _] _]. now apply bool_decide_eq_true_1 in Hu.
    + rewrite length_fmap, length_take. lia.
    + split; [reflexivity|]. apply totalPagesOf_pos. lia.
Qed.
End UserJobsFacts.

Lemma userJobs_listing_witness :
  userJobs (userHeaders "u2") "u1" (mkUserJobsQuery None None None None None) twoUsers
  = (twoUsers, Err (AppError "Access denied" 403 "FORBIDDEN"))
  ∧ ∃ data info,
      userJobs (userHeaders "u1") "u1" (mkUserJobsQuery None (Some 500) None None None)
        twoUsers = (twoUsers, Ok (data, info))
      ∧ js_jobId <$> data = ["u1-b"; "u1-a"]
      ∧ pi_limit info = 500.
Proof.
  split.
  - apply (userJobs_listing (userHeaders "u2") "u1"); [reflexivity|discriminate|discriminate].
  - destruct (userJobs_listing (userHeaders "u1") "u1"
                (mkUserJobsQuery None (Some 500) None None None) twoUsers)
      as [_ Hown]; [reflexivity|].
    destruct Hown as (data & info & Hrun & _ & Hlimit & _).
    + right. reflexivity.
    + reflexivity.
    + vm_compute. discriminate.
    + vm_compute. discriminate.
    + exists data, info. split; [exact Hrun|]. split; [|exact Hlimit].
      pose proof (f_equal snd Hrun) as Hres. vm_compute in Hres.
      injection Hres as <- _. reflexivity.
Defined.

(** ** The health of the service *)

Section HealthFacts.
Context {BQ : Type} `{Bull BQ}.

(** X25. High memory hides an outage from [GET /health] but not from
    [GET /health/ready]. Neither route throws or writes. The readiness
    check answers 503 exactly when MongoDB is not connected or the queue
    statistics cannot be read. The basic check answers 503 exactly when, in
    addition, the memory in use is below 90 per cent: above it the status is
    ['warning'] and the code 200, whatever else is down. *)
Theorem healthBasic_masks_outage memoryBelow90 (s : System BQ) :
  ∃ code status checks (ready : bool),
    healthBasic memoryBelow90 s = (s, Ok (code, status, checks))
    ∧ healthReady s = (s, Ok (if ready then 200 else 503, ready))
    ∧ (ready = false ↔ mongoUp s = false ∨ ∃ e, (getQueueStats None s).2 = Err e)
    ∧ (code = 503 ↔ ready = false ∧ memoryBelow90 = true)
    ∧ (memoryBelow90 = false → status = svc_warning ∧ code = 200)
    ∧ (hc_database checks = mongoUp s ∧ hc_memory checks = memoryBelow90
       ∧ hc_redis checks = hc_queues checks).
Proof.
  unfold healthBasic, healthReady.
  destruct (mongoUp s) eqn:Hup;
    destruct ((getQueueStats None s).2) as [stats|e] eqn:Hstats;
    destruct memoryBelow90;
    do 3 eexists;
    (exists true + exists false);
    (split; [reflexivity|]); (split; [reflexivity|]);
    cbn [healthStatusCode hc_database hc_memory hc_redis hc_queues];
    repeat split; try discriminate; try reflexivity; try tauto;
    try (intros [?|[? ?]]; discriminate); try (intros [? ?]; discriminate);
    try (intros _; right; eexists; reflexivity); try (intros _; now left).
Qed.

Lemma warn_fold entries status :
  foldl (λ st (entry : string * QStat),
           if problematic entry.2 then warnIfHealthy st else st) status entries
  = if existsb (λ entry, problematic entry.2) entries
    then warnIfHealthy status else status.
Proof.
  revert status. induction entries as [|entry entries IH]; intros status;
    [reflexivity|].
  cbn [foldl existsb]. rewrite IH.
  destruct (problematic entry.2), (existsb _ entries), status; reflexivity.
Qed.

(** X26. [GET /health/detailed] for an admin. The route does not throw or
    write. The status is ['unhealthy'], and the code 503, exactly when
    MongoDB is not connected or the queue statistics cannot be read, high
    memory or not; otherwise it is ['warning'] exactly when the memory in use
    is above 85 per cent or some queue has more failed than completed jobs
    and more than ten jobs in all, and ['healthy'] if not. Anyone else gets
    403. *)
Theorem healthDetailed_status h memoryAbove85 (s : System BQ) entries :
  (x_user_role h ≠ Some "admin" →
     healthDetailed h memoryAbove85 s = (s, Ok (403, None)))
  ∧ (x_user_role h = Some "admin" →
       (mongoUp s = false ∨ (∃ e, (getQueueStats None s).2 = Err e) →
          ∃ troubled,
            healthDetailed h memoryAbove85 s
            = (s, Ok (503, Some (svc_unhealthy, troubled))))
       ∧ (mongoUp s = true →
          (getQueueStats None s).2 = Ok (StatsAll entries) →
          let troubled := existsb (λ entry, problematic entry.2) entries in
          healthDetailed h memoryAbove85 s
          = (s, Ok (200, Some (if troubled || memoryAbove85
                               then svc_warning else svc_healthy,
                               troubled))))).
Proof.
  unfold healthDetailed, notAdmin. split.
  - intros Hrole. now rewrite (bool_decide_eq_false_2 _ Hrole).
  - intros Hadmin. rewrite (bool_decide_eq_true_2 _ Hadmin). cbn [negb]. split.
    + intros [Hdown|[e He]].
      * rewrite Hdown.
        destruct ((getQueueStats None s).2) as [[entries'|stat]|e];
          [rewrite warn_fold; destruct (existsb _ entries')| |];
          destruct memoryAbove85; eexists; reflexivity.
      * rewrite He. destruct (mongoUp s), memoryAbove85; eexists; reflexivity.
    + intros Hup Hstats. cbv zeta. rewrite Hup, Hstats, warn_fold.
      destruct (existsb _ entries), memoryAbove85; reflexivity.
Qed.
End HealthFacts.

Lemma healthBasic_masks_outage_witness :
  (∃ checks, healthBasic false brokerRefusingSystem
             = (brokerRefusingSystem, Ok (200, svc_warning, checks)))
  ∧ healthReady brokerRefusingSystem = (brokerRefusingSystem, Ok (503, false)).
Proof.
  destruct (healthBasic_masks_outage false brokerRefusingSystem)
    as (code & status & checks & ready & Hbasic & Hready & Hdown & _ & Hmask & _).
  assert (Hnot : ready = false).
  { apply Hdown. right. eexists. vm_compute. reflexivity. }
  destruct (Hmask eq_refl) as [Hstatus Hcode].
  rewrite Hnot in Hready. rewrite Hstatus, Hcode in Hbasic.
  split; [now exists checks | exact Hready].
Defined.

Lemma healthDetailed_status_witness :
  healthDetailed adminHeaders false unhealthyQueues
  = (unhealthyQueues, Ok (200, Some (svc_healthy, false)))
  ∧ (∃ qs, (healthSummary adminHeaders unhealthyQueues).2 = Ok (error, qs)).
Proof.
  pose (entries := match stats_of unhealthyQueues (queues unhealthyQueues).*1 with
                   | Ok entries => entries
                   | Err _ => []
                   end).
  destruct (healthDetailed_status adminHeaders false unhealthyQueues entries)
    as [_ Hadmin].
  destruct (Hadmin eq_refl) as [_ Hup].
  split.
  - assert (Hstats : (getQueueStats None unhealthyQueues).2 = Ok (StatsAll entries))
      by (vm_compute; reflexivity).
    pose proof (Hup eq_refl Hstats) as Hrun. cbv zeta in Hrun.
    rewrite Hrun. vm_compute. reflexivity.
  - eexists. vm_compute. reflexivity.
Defined.
